(** * A query-and-caching service layer over a search engine and a cache

    Shallow embedding of the service layer of the film catalogue API:
    [utils/params.py], [models/model.py], [db/cache.py],
    [services/search/base.py], [services/search/elastic.py],
    [services/service.py], [services/film.py], [services/genre.py],
    [services/person.py], and the request handlers of [api/v1].

    Python integers are unbounded and are modelled by [Z]; Python strings by
    [string]; a raised exception by the [Raise] outcome of [result]; the
    two remote clients (Redis, Elasticsearch) by explicit state. *)

From Stdlib Require Import ZArith Floats Ascii String.
From stdpp Require Import base option list strings gmap pretty.

Set Default Proof Using "Type".

(** ** Exceptions and outcomes *)

(** The exception classes that the modelled code raises, catches or lets
    through. *)
Inductive exn : Type :=
  | IndexError              (* builtin: index out of range *)
  | AttributeError          (* builtin: getattr on a missing attribute *)
  | UnboundLocalError       (* builtin: a local read before it is bound *)
  | ValidationError         (* pydantic.ValidationError *)
  | RedisConnectionError    (* redis.exceptions.ConnectionError *)
  | ConnectionCacheError    (* db.cache.ConnectionCacheError *)
  | NotFoundError           (* elasticsearch.NotFoundError *)
  | ElasticConnectionError. (* elasticsearch.ConnectionError *)

Inductive result (A : Type) : Type :=
  | Ok (a : A)
  | Raise (e : exn).
Arguments Ok {A} a.
Arguments Raise {A} e.

#[global] Instance exn_eq_dec : EqDecision exn.
Proof. solve_decision. Defined.

#[global] Instance result_ret : MRet result := fun A a => Ok a.
#[global] Instance result_bind : MBind result := fun A B f m =>
  match m with
  | Ok a => f a
  | Raise e => Raise e
  end.

(** ** [utils/params.py] *)

Record CommonQueryParams : Type := {
  page_number : Z;
  page_size : Z;
  sort : list string;
}.

(** [CommonQueryParams()]: the dataclass defaults. *)
Definition CommonQueryParams_default : CommonQueryParams :=
  {| page_number := 1; page_size := 10; sort := [] |}.

(** The bounds [Query(gt=0)] that the route layer enforces. *)
Definition valid_params (params : CommonQueryParams) : Prop :=
  (1 <= page_number params)%Z ∧ (1 <= page_size params)%Z.

(** ** [services/search/base.py] *)

Record NestedObjectQuery : Type := {
  name : string;
  filter_field : string;
  term_value : string;
}.

(** ** The request that [ElasticSearchService._search] builds *)

(** The text predicates built by [text_search]:
    [{"match": {field: {"query": q, "fuzziness": f}}}] and
    [{"multi_match": {"query": q, "fields": fields}}]. *)
Inductive text_query : Type :=
  | Match (field : string) (query : string) (fuzziness : string)
  | MultiMatch (query : string) (fields : list string).

(** [{"nested": {"path": p, "query": {"bool": {"filter": {"term": {f: v}}}}}}] *)
Record nested_query : Type := {
  nested_path : string;
  nested_term_field : string;
  nested_term_value : string;
}.

(** [{"bool": {"must": [...], "should": [...]}}] *)
Record bool_query : Type := {
  must : list text_query;
  should : list nested_query;
}.

(** The keyword arguments of [self.elastic.search(...)]. A sort entry is a
    one-key dict [{field: order}], kept as the pair [(field, order)]. *)
Record search_request : Type := {
  es_index : string;
  es_size : Z;
  es_from : Z;
  es_query : bool_query;
  es_sort : list (string * string);
}.

(** *** Pagination: line 68 of [elastic.py] *)

Definition from_ (params : CommonQueryParams) : Z :=
  if (page_number params =? 1)%Z then 0%Z
  else (page_size params * page_number params - page_size params)%Z.

(** *** Sorting: lines 70-71 of [elastic.py] *)

(** [s[0]] raises [IndexError] on the empty string. *)
Definition str_head (s : string) : result ascii :=
  match s with
  | EmptyString => Raise IndexError
  | String c _ => Ok c
  end.

(** [s[1:]] never raises. *)
Definition str_tail (s : string) : string :=
  match s with
  | EmptyString => EmptyString
  | String _ rest => rest
  end.

(** [{sort_field[1:]: "desc"} if sort_field[0] == "-" else {sort_field: "asc"}] *)
Definition sort_item (sort_field : string) : result (string * string) :=
  c ← str_head sort_field;
  if Ascii.eqb c "-" then mret (str_tail sort_field, "desc")
  else mret (sort_field, "asc").

Definition sort_clause (params : CommonQueryParams) : result (list (string * string)) :=
  items ← mapM sort_item (sort params);
  mret (items ++ [("_score", "desc")]).

(** *** The boolean query: lines 73-97 of [elastic.py] *)

Definition nested_clause (nested_object : NestedObjectQuery) : nested_query :=
  {| nested_path := name nested_object;
     nested_term_field := name nested_object +:+ "." +:+ filter_field nested_object;
     nested_term_value := term_value nested_object |}.

(** [if search_query:] holds for every predicate [text_search] builds (a
    non-empty dict) and fails for [None]; [if not nested_objects:] replaces
    [None] (and the empty list) by the empty list. *)
Definition build_query (nested_objects : option (list NestedObjectQuery))
    (search_query : option text_query) : bool_query :=
  {| must := match search_query with Some q => [q] | None => [] end;
     should := nested_clause <$> default [] nested_objects |}.

(** Everything [_search] computes before it calls the client. A dataclass
    instance is always truthy, so [if not params:] holds for [None] only. *)
Definition search_request_of (index : string)
    (params : option CommonQueryParams)
    (nested_objects : option (list NestedObjectQuery))
    (search_query : option text_query) : result search_request :=
  let params := default CommonQueryParams_default params in
  let from_ := from_ params in
  sort ← sort_clause params;
  let query := build_query nested_objects search_query in
  mret {| es_index := index; es_size := page_size params; es_from := from_;
          es_query := query; es_sort := sort |}.

(** [text_search], lines 45-50: the predicate handed to [_search]. An empty
    or absent query text gives no predicate. *)
Definition text_predicate (search_query : option string)
    (search_fields : list string) : option text_query :=
  match search_query with
  | None | Some EmptyString => None
  | Some q =>
      match search_fields with
      | [f] => Some (Match f q "auto")
      | _ => Some (MultiMatch q search_fields)
      end
  end.

(** ** Raw documents *)

#[local] Unset Elimination Schemes.
(** What the engine client hands back for a document: parsed JSON. *)
Inductive json : Type :=
  | JNull
  | JBool (b : bool)
  | JInt (n : Z)
  | JFloat (x : float)
  | JStr (s : string)
  | JList (items : list json)
  | JDict (entries : list (string * json)).
#[local] Set Elimination Schemes.

(** [dict[str, Any]]: the entries in order. *)
Definition document : Type := list (string * json).

(** [d.get(key)] *)
Fixpoint dict_get (key : string) (d : list (string * json)) : option json :=
  match d with
  | [] => None
  | (k, v) :: rest => if String.eqb k key then Some v else dict_get key rest
  end.

(** One hit of a response; [_source] is the stored document. *)
Record es_hit : Type := {
  hit_id : string;
  hit_source : document;
}.

(** ** [models/model.py] *)

Record PersonFilm : Type := {
  person_film_id : string;
  roles : list string;
}.

Record Person : Type := {
  person_id : string;
  full_name : string;
  films : list PersonFilm;
}.

Record Genre : Type := {
  genre_id : string;
  genre_name : string;
  genre_description : option string;
}.

Record FilmPerson : Type := {
  film_person_id : string;
  film_person_name : string;
}.

Record Film : Type := {
  film_id : string;
  title : string;
  description : option string;
  imdb_rating : option float;
  actors : list FilmPerson;
  writers : list FilmPerson;
  directors : list FilmPerson;
  genres : list string;
  actors_names : list string;
  writers_names : list string;
  directors_names : list string;
}.

(** [person.films = films] *)
Definition set_films (person : Person) (films : list PersonFilm) : Person :=
  {| person_id := person_id person; full_name := full_name person; films := films |}.

(** [item.id], for the three entity classes. *)
Class HasId (item : Type) : Type := item_id : item → string.
#[global] Instance Film_HasId : HasId Film := film_id.
#[global] Instance Genre_HasId : HasId Genre := genre_id.
#[global] Instance Person_HasId : HasId Person := person_id.

(** What the services use of a pydantic model class (the [model] argument
    of [Service.__init__]) to build an entity from a raw document.
    Validation is pydantic's, not this repository's: it is a parameter,
    [None] standing for a raised [ValidationError]. The one law recorded is
    that each of the three models declares a required string field [id]. *)
Class Model (item : Type) `{HasId item} : Type := {
  model_init : document → option item;      (* the constructor call on the entries of a document *)
  model_validate : document → option item;  (* [model.model_validate(doc)] *)
  model_init_id : ∀ d e, model_init d = Some e → dict_get "id" d = Some (JStr (item_id e));
}.

(** The JSON text of an entity, as written to and read from the cache:
    [item.model_dump_json()] and [model.model_validate_json(data)]. *)
Class JsonCodec (item : Type) : Type := {
  model_dump_json : item → string;
  model_validate_json : string → option item;
}.

(** ** The two remote clients and the state of a request *)

(** The Redis server as the client sees it: reachable or not, and the
    stored values with the expiry in seconds they were written with (the
    passing of time is not part of the state). *)
Record RedisState : Type := {
  redis_up : bool;
  redis_data : gmap string (string * Z);
}.

(** The Elasticsearch client: any state machine answering [get] and
    [search]. The services are written against this interface only. *)
Class ElasticClient (ES : Type) : Type := {
  elastic_get : ES → string → string → result es_hit * ES;
  elastic_search : ES → search_request → result (list es_hit) * ES;
}.

(** The calls that leave the process, in order. *)
Inductive event : Type :=
  | RedisGet (key : string)
  | RedisSet (key value : string) (ttl : Z)
  | ElasticGet (index id : string)
  | ElasticSearch (request : search_request)
  | LogError (message : string) (payload : option document).

Record world (ES : Type) : Type := {
  redis : RedisState;
  elastic : ES;
  trace : list event;
}.
Arguments redis {ES} w.
Arguments elastic {ES} w.
Arguments trace {ES} w.

(** A coroutine of the service layer: it may change the state of the two
    servers, append to the trace, and return or raise. *)
Definition App (ES A : Type) : Type := world ES → result A * world ES.

#[global] Instance App_ret {ES} : MRet (App ES) := fun A a w => (Ok a, w).
#[global] Instance App_bind {ES} : MBind (App ES) := fun A B f m w =>
  match m w with
  | (Ok a, w') => f a w'
  | (Raise e, w') => (Raise e, w')
  end.

#[global] Instance App_fmap {ES} : FMap (App ES) := fun A B f m =>
  a ← m; mret (f a).

Definition raise {ES A} (e : exn) : App ES A := fun w => (Raise e, w).

Definition lift_result {ES A} (r : result A) : App ES A := fun w => (r, w).

(** Validation outcome to coroutine: [None] raises [ValidationError]. *)
Definition validated {ES A} (o : option A) : App ES A :=
  match o with
  | Some a => mret a
  | None => raise ValidationError
  end.

(** [try: body / except E: handler e], for the classes [E] accepted by
    [catches]. *)
Definition try_except {ES A} (body : App ES A) (catches : exn → bool)
    (handler : exn → App ES A) : App ES A := fun w =>
  match body w with
  | (Raise e, w') => if catches e then handler e w' else (Raise e, w')
  | (Ok a, w') => (Ok a, w')
  end.

(** A primitive step given by its effect on the state. *)
Definition effect {ES A} (step : world ES → result A * world ES) : App ES A := step.

Definition emit {ES} (ev : event) : App ES unit := fun w =>
  (Ok tt, {| redis := redis w; elastic := elastic w; trace := trace w ++ [ev] |}).

(** [logging.error(f"Error while validating {doc}")] *)
Definition logging_error {ES} (message : string) (payload : option document) : App ES unit :=
  emit (LogError message payload).

(** [await redis.get(key)] *)
Definition redis_get {ES} (key : string) : App ES (option string) :=
  emit (RedisGet key);;
  effect (fun w =>
    if redis_up (redis w) then (Ok (fst <$> redis_data (redis w) !! key), w)
    else (Raise RedisConnectionError, w)).

(** [await redis.set(key, value, ttl)]: the third positional argument of
    [Redis.set] is the expiry in seconds. *)
Definition redis_set {ES} (key value : string) (ttl : Z) : App ES unit :=
  emit (RedisSet key value ttl);;
  effect (fun w =>
    if redis_up (redis w) then
      (Ok tt, {| redis := {| redis_up := true;
                             redis_data := <[key := (value, ttl)]> (redis_data (redis w)) |};
                 elastic := elastic w; trace := trace w |})
    else (Raise RedisConnectionError, w)).

(** [await elastic.get(index=index, id=id)] *)
Definition call_elastic_get `{ElasticClient ES} (index id : string) : App ES es_hit :=
  emit (ElasticGet index id);;
  effect (fun w =>
    let '(r, es') := elastic_get (elastic w) index id in
    (r, {| redis := redis w; elastic := es'; trace := trace w |})).

(** [await elastic.search(index=..., size=..., from_=..., query=..., sort=...)] *)
Definition call_elastic_search `{ElasticClient ES} (request : search_request) :
    App ES (list es_hit) :=
  emit (ElasticSearch request);;
  effect (fun w =>
    let '(r, es') := elastic_search (elastic w) request in
    (r, {| redis := redis w; elastic := es'; trace := trace w |})).

(** ** [db/cache.py] *)

(** The abstract [Cache]. *)
Record Cache (ES : Type) : Type := {
  cache_get : string → App ES (option string);
  cache_put : string → string → Z → App ES unit;
}.
Arguments cache_get {ES} c key.
Arguments cache_put {ES} c key value ttl.

Module RedisCache.
Section RedisCache.
Context {ES : Type}.

Definition get (key : string) : App ES (option string) :=
  try_except (redis_get key)
    (fun e => bool_decide (e = RedisConnectionError))
    (fun _ => raise ConnectionCacheError).

Definition put (key value : string) (ttl : Z) : App ES unit :=
  redis_set key value ttl.

Definition make : Cache ES := {| cache_get := get; cache_put := put |}.
End RedisCache.
End RedisCache.

(** ** [services/search/base.py]: the abstract search service *)

Module AbstractSearchService.
Record t (ES : Type) : Type := {
  get_by_id : string → App ES (option document);
  get_list : option CommonQueryParams → option (list NestedObjectQuery) →
             App ES (list document);
  text_search : option string → list string → option CommonQueryParams →
                App ES (list document);
}.
Arguments get_by_id {ES} _ _.
Arguments get_list {ES} _ _ _.
Arguments text_search {ES} _ _ _ _.
End AbstractSearchService.

(** ** [services/search/elastic.py] *)

Module ElasticSearchService.
Section ElasticSearchService.
Context `{ElasticClient ES}.
Variable index : string.

Definition get_by_id (id : string) : App ES (option document) :=
  doc ← try_except (Some <$> call_elastic_get index id)
           (fun e => bool_decide (e = NotFoundError))
           (fun _ => mret None);
  match doc with
  | None => mret None
  | Some doc => mret (Some (hit_source doc))
  end.

Definition _search (params : option CommonQueryParams)
    (nested_objects : option (list NestedObjectQuery))
    (search_query : option text_query) : App ES (list document) :=
  request ← lift_result (search_request_of index params nested_objects search_query);
  response ← call_elastic_search request;
  mret (hit_source <$> response).

Definition get_list (params : option CommonQueryParams)
    (nested_objects : option (list NestedObjectQuery)) : App ES (list document) :=
  _search params nested_objects None.

Definition text_search (search_query : option string) (search_fields : list string)
    (params : option CommonQueryParams) : App ES (list document) :=
  let query := text_predicate search_query search_fields in
  _search params None query.

Definition make : AbstractSearchService.t ES :=
  {| AbstractSearchService.get_by_id := get_by_id;
     AbstractSearchService.get_list := get_list;
     AbstractSearchService.text_search := text_search |}.
End ElasticSearchService.
End ElasticSearchService.

(** ** [services/service.py] *)

Definition CACHE_EXPIRE_IN_SECONDS : Z := 60 * 5.

Module Service.
Section Service.
Context {ES item : Type} `{Model item} `{!JsonCodec item}.
Variable cache : Cache ES.
Variable search_service : AbstractSearchService.t ES.
Variable entity_name : string.

(** [if not data:] holds for [None] and for the empty string. *)
Definition _get_from_cache (item_id : string) : App ES (option item) :=
  data ← cache_get cache (entity_name +:+ "_" +:+ item_id);
  match data with
  | None | Some EmptyString => mret None
  | Some data => Some <$> validated (model_validate_json data)
  end.

Definition _put_to_cache (it : item) : App ES unit :=
  cache_put cache (entity_name +:+ "_" +:+ item_id it) (model_dump_json it)
    CACHE_EXPIRE_IN_SECONDS.

(** A model instance is truthy, so [if not item:] holds exactly when the
    cache gave nothing; [if item_dict := ...] holds for a non-empty dict. *)
Definition get_by_id (item_id : string) : App ES (option item) :=
  it ← _get_from_cache item_id;
  match it with
  | Some it => mret (Some it)
  | None =>
      item_dict ← AbstractSearchService.get_by_id search_service item_id;
      match item_dict with
      | None | Some [] => mret None
      | Some item_dict =>
          it ← validated (model_init item_dict);
          _put_to_cache it;;
          mret (Some it)
      end
  end.

Definition get_by_text_field (search_field search_text : string) : App ES (option item) :=
  items ← AbstractSearchService.text_search search_service
             (Some search_text) [search_field] None;
  items ← AbstractSearchService.text_search search_service
             (Some search_text) [search_field] None;
  match items with
  | [] => mret None
  | first :: _ => Some <$> validated (model_validate first)
  end.
End Service.
End Service.

(** ** [services/film.py] *)

Definition PERSON_ROLES : list string := ["actor"; "director"; "writer"].

Module FilmService.
Section FilmService.
Context {ES : Type} `{!Model Film} `{!JsonCodec Film}.
Variable cache : Cache ES.
Variable search_service : AbstractSearchService.t ES.

Definition entity_name : string := "movies".

(** Inherited from [Service]. *)
Definition get_by_id : string → App ES (option Film) :=
  Service.get_by_id cache search_service entity_name.

Definition search (text : string) (query_params : CommonQueryParams) : App ES (list Film) :=
  let fields := ["title^3"; "description"; "actors_names"; "writers_names";
                 "directors_names"] in
  raw_films ← AbstractSearchService.text_search search_service
                 (Some text) fields (Some query_params);
  mapM (fun film => validated (model_init film)) raw_films.

(** [genre.name if genre else None]: a [Genre] instance is truthy. *)
Definition get_films (query_params : CommonQueryParams) (genre : option Genre) :
    App ES (list Film) :=
  let search_query := genre_name <$> genre in
  films_raw ← AbstractSearchService.text_search search_service
                 search_query ["genres"] (Some query_params);
  mapM (fun raw_film => validated (model_init raw_film)) films_raw.

Definition person_nested_objects (person_id : string) : list NestedObjectQuery :=
  (fun role => {| name := role +:+ "s"; filter_field := "id"; term_value := person_id |})
    <$> PERSON_ROLES.

Definition get_person_films (person_id : string) (params : CommonQueryParams) :
    App ES (list Film) :=
  let nested_objects := person_nested_objects person_id in
  person_films ← AbstractSearchService.get_list search_service
                    (Some params) (Some nested_objects);
  mapM (fun raw_film => validated (model_init raw_film)) person_films.
End FilmService.
End FilmService.

(** ** [services/genre.py] *)

Module GenreService.
Section GenreService.
Context {ES : Type} `{!Model Genre} `{!JsonCodec Genre}.
Variable cache : Cache ES.
Variable search_service : AbstractSearchService.t ES.

Definition entity_name : string := "genres".

(** The [try] block spans the engine lookup, the validation and the cache
    write; only [ValidationError] is caught. The handler formats
    [genre_dict], which is bound once the lookup has returned: were the
    lookup itself to raise [ValidationError], the handler would fail on
    the unbound local. *)
Definition get_by_id (genre_id : string) : App ES (option Genre) :=
  genre ← Service._get_from_cache cache entity_name genre_id;
  match genre with
  | Some genre => mret (Some genre)
  | None =>
      genre_dict ← try_except
                      (AbstractSearchService.get_by_id search_service genre_id)
                      (fun e => bool_decide (e = ValidationError))
                      (fun _ => raise UnboundLocalError);
      try_except
        (match genre_dict with
         | None | Some [] => mret None
         | Some d =>
             genre ← validated (model_init d);
             Service._put_to_cache cache entity_name genre;;
             mret (Some genre)
         end)
        (fun e => bool_decide (e = ValidationError))
        (fun _ => logging_error "Error while validating " genre_dict;; mret None)
  end.

Definition get_list (params : CommonQueryParams) : App ES (list Genre) :=
  raw_genres ← AbstractSearchService.get_list search_service (Some params) None;
  mapM (fun raw_genre => validated (model_init raw_genre)) raw_genres.
End GenreService.
End GenreService.

(** ** [services/person.py] *)

(** A [for] loop over [l] threading an accumulator through a body that may
    raise. *)
Fixpoint foldlM `{MBind M, MRet M} {A B} (body : A → B → M A) (acc : A)
    (l : list B) : M A :=
  match l with
  | [] => mret acc
  | x :: rest => acc' ← body acc x; foldlM body acc' rest
  end.

(** [getattr(filmwork, attr)] for the attributes that hold name lists; any
    other name is reported as missing. *)
Definition getattr_names (filmwork : Film) (attr : string) : result (list string) :=
  if String.eqb attr "actors_names" then Ok (actors_names filmwork)
  else if String.eqb attr "writers_names" then Ok (writers_names filmwork)
  else if String.eqb attr "directors_names" then Ok (directors_names filmwork)
  else Raise AttributeError.

(** [x in names] on a list of strings. *)
Definition str_in (x : string) (names : list string) : bool :=
  existsb (String.eqb x) names.

Module PersonService.
(** The inner loop of [_get_roles_from_filmworks]: one role. *)
Definition add_role (person : Person) (filmwork : Film) (person_film : PersonFilm)
    (role : string) : result PersonFilm :=
  names ← getattr_names filmwork (role +:+ "s_names");
  if str_in (full_name person) names then
    mret {| person_film_id := person_film_id person_film;
            roles := roles person_film ++ [role] |}
  else mret person_film.

(** The outer loop: one film. *)
Definition add_filmwork (person : Person) (result_ : list PersonFilm)
    (filmwork : Film) : result (list PersonFilm) :=
  let person_film := {| person_film_id := film_id filmwork; roles := [] |} in
  person_film ← foldlM (add_role person filmwork) person_film PERSON_ROLES;
  mret (result_ ++ [person_film]).

Definition _get_roles_from_filmworks (person : Person)
    (person_filmworks : list Film) : result (list PersonFilm) :=
  foldlM (add_filmwork person) [] person_filmworks.

Section PersonService.
Context {ES : Type} `{!Model Person} `{!JsonCodec Person} `{!Model Film}.
Variable cache : Cache ES.
Variable search_service : AbstractSearchService.t ES.
(** The search service of the [film_service] collaborator. *)
Variable film_search_service : AbstractSearchService.t ES.

Definition entity_name : string := "persons".

(** [CommonQueryParams(page_size=10000)] *)
Definition all_films_params : CommonQueryParams :=
  {| page_number := 1; page_size := 10000; sort := [] |}.

Definition get_by_id (person_id' : string) : App ES (option Person) :=
  person ← Service._get_from_cache cache entity_name person_id';
  match person with
  | Some person => mret (Some person)
  | None =>
      person_dict ← AbstractSearchService.get_by_id search_service person_id';
      match person_dict with
      | None | Some [] => mret None
      | Some d =>
          person ← validated (model_init d);
          related_filmworks ← FilmService.get_person_films film_search_service
                                 (person_id person) all_films_params;
          films ← try_except
                     (Some <$> lift_result (_get_roles_from_filmworks person related_filmworks))
                     (fun e => bool_decide (e = ValidationError))
                     (fun _ => logging_error "Error while validating " (Some d);; mret None);
          match films with
          | Some films =>
              let person := set_films person films in
              Service._put_to_cache cache entity_name person;;
              mret (Some person)
          | None => mret (Some person)
          end
      end
  end.

Definition get_person_films (person_id' : string) (params : CommonQueryParams) :
    App ES (list Film) :=
  FilmService.get_person_films film_search_service person_id' params.

Definition search (query : string) (params : CommonQueryParams) : App ES (list Person) :=
  raw_persons ← AbstractSearchService.text_search search_service
                   (Some query) ["full_name"] (Some params);
  persons ← mapM (fun raw_person => validated (model_init raw_person)) raw_persons;
  mapM (fun person =>
          related_filmworks ← FilmService.get_person_films film_search_service
                                 (person_id person) all_films_params;
          films ← lift_result (_get_roles_from_filmworks person related_filmworks);
          mret (set_films person films))
       persons.
End PersonService.
End PersonService.

(** ** [api/v1]: the request handlers *)

(** What a handler hands to the framework: the response body it returned,
    or the [HTTPException] it raised; no handler catches one, so raising
    it ends the handler. Exceptions of the services pass through the
    handlers as they are. *)
Inductive http_response (A : Type) : Type :=
  | Respond (body : A)
  | HTTPException (status_code : Z) (detail : string).
Arguments Respond {A} body.
Arguments HTTPException {A} status_code detail.

(** [HTTPStatus.NOT_FOUND] *)
Definition NOT_FOUND : Z := 404.

(** *** [api/v1/films.py] *)

Module FilmsApi.
(** The output schemas [FilmPerson], [FilmGenre], [FilmOut] and
    [FilmShortOut]. *)
Record FilmPersonOut : Type := {
  person_uuid : string;
  person_full_name : string;
}.

Record FilmGenre : Type := {
  genre_uuid : string;
  genre_out_name : string;
}.

Record FilmOut : Type := {
  out_uuid : string;
  out_title : string;
  out_description : option string;
  out_imdb_rating : option float;
  out_genre : list FilmGenre;
  out_actors : list FilmPersonOut;
  out_writers : list FilmPersonOut;
  out_directors : list FilmPersonOut;
}.

Record FilmShortOut : Type := {
  short_uuid : string;
  short_title : string;
  short_imdb_rating : option float;
}.

Definition person_out (p : FilmPerson) : FilmPersonOut :=
  {| person_uuid := film_person_id p; person_full_name := film_person_name p |}.

Definition genre_out (g : Genre) : FilmGenre :=
  {| genre_uuid := genre_id g; genre_out_name := genre_name g |}.

Definition short_out (film : Film) : FilmShortOut :=
  {| short_uuid := film_id film; short_title := title film;
     short_imdb_rating := imdb_rating film |}.

Section FilmsApi.
Context {ES : Type} `{!Model Film} `{!JsonCodec Film} `{!Model Genre} `{!JsonCodec Genre}.
(** The two services share the cache; each has the search service of its
    own index. *)
Variable cache : Cache ES.
Variable film_search_service : AbstractSearchService.t ES.
Variable genre_search_service : AbstractSearchService.t ES.

(** The genres are looked up one by one, by name, with the inherited
    [get_by_text_field]; those that are not found are left out. *)
Definition film_details (film_id' : string) : App ES (http_response FilmOut) :=
  film ← FilmService.get_by_id cache film_search_service film_id';
  match film with
  | None => mret (HTTPException NOT_FOUND "film not found")
  | Some film =>
      found ← mapM (fun name =>
                      Service.get_by_text_field (item := Genre) genre_search_service
                        "name" name)
                   (genres film);
      mret (Respond
              {| out_uuid := film_id film;
                 out_title := title film;
                 out_description := description film;
                 out_imdb_rating := imdb_rating film;
                 out_genre := genre_out <$> omap id found;
                 out_actors := person_out <$> actors film;
                 out_writers := person_out <$> writers film;
                 out_directors := person_out <$> directors film |})
  end.

(** [if genre_uuid:] fails for an absent and for an empty parameter. *)
Definition films (query_params : CommonQueryParams) (genre_uuid' : option string) :
    App ES (http_response (list FilmShortOut)) :=
  match genre_uuid' with
  | None | Some EmptyString =>
      films ← FilmService.get_films film_search_service query_params None;
      mret (Respond (short_out <$> films))
  | Some genre_uuid' =>
      genre ← GenreService.get_by_id cache genre_search_service genre_uuid';
      match genre with
      | None => mret (HTTPException NOT_FOUND "genre not found")
      | Some genre =>
          films ← FilmService.get_films film_search_service query_params (Some genre);
          mret (Respond (short_out <$> films))
      end
  end.

Definition search (query_params : CommonQueryParams) (query : string) :
    App ES (http_response (list FilmShortOut)) :=
  films ← FilmService.search film_search_service query query_params;
  mret (Respond (short_out <$> films)).
End FilmsApi.
End FilmsApi.

(** *** [api/v1/genres.py] *)

Module GenresApi.
Section GenresApi.
Context {ES : Type} `{!Model Genre} `{!JsonCodec Genre}.
Variable cache : Cache ES.
Variable search_service : AbstractSearchService.t ES.

Definition genre_list (params : CommonQueryParams) : App ES (http_response (list Genre)) :=
  Respond <$> GenreService.get_list search_service params.

Definition genre_details (genre_id' : string) : App ES (http_response Genre) :=
  genre ← GenreService.get_by_id cache search_service genre_id';
  match genre with
  | Some genre => mret (Respond genre)
  | None => mret (HTTPException NOT_FOUND "genre not found")
  end.
End GenresApi.
End GenresApi.

(** *** [api/v1/persons.py] *)

Module PersonsApi.
Section PersonsApi.
Context {ES : Type} `{!Model Person} `{!JsonCodec Person} `{!Model Film}.
Variable cache : Cache ES.
Variable search_service : AbstractSearchService.t ES.
Variable film_search_service : AbstractSearchService.t ES.

Definition person_search (query : string) (params : CommonQueryParams) :
    App ES (http_response (list Person)) :=
  Respond <$> PersonService.search search_service film_search_service query params.

Definition person_filmworks (person_id' : string) (params : CommonQueryParams) :
    App ES (http_response (list Film)) :=
  Respond <$> PersonService.get_person_films film_search_service person_id' params.

Definition person_details (person_id' : string) : App ES (http_response Person) :=
  person ← PersonService.get_by_id cache search_service film_search_service person_id';
  match person with
  | None => mret (HTTPException NOT_FOUND "person not found")
  | Some person => mret (Respond person)
  end.
End PersonsApi.
End PersonsApi.

(** * The engine and the models, concretely *)

(** The services above are written against [ElasticClient] and [Model];
    what follows gives executable instances of both: a reference engine
    (result sets and paging), a scripted engine (canned answers), and
    models for [Genre], [Film] and [Person] reading the documents of a
    small catalogue, with their JSON texts. *)

Module ReferenceEngine.
(** A cluster: reachable or not, and the documents of each index. *)
Record state : Type := {
  cluster_up : bool;
  indices : gmap string (list es_hit);
}.

Fixpoint strip_prefix (prefix s : string) : option string :=
  match prefix, s with
  | EmptyString, _ => Some s
  | String c prefix', String c' s' =>
      if Ascii.eqb c c' then strip_prefix prefix' s' else None
  | String _ _, EmptyString => None
  end.

(** Whether an object of a nested list holds [value] in [field]. *)
Definition holds_term (field value : string) (item : json) : bool :=
  match item with
  | JDict entries =>
      match dict_get field entries with
      | Some (JStr v) => String.eqb v value
      | _ => false
      end
  | _ => false
  end.

(** A term filter inside a nested path: some object of the list stored
    under the path holds the value in the field named after the path. *)
Definition nested_matches (q : nested_query) (d : document) : bool :=
  match strip_prefix (nested_path q +:+ ".") (nested_term_field q),
        dict_get (nested_path q) d with
  | Some field, Some (JList items) =>
      existsb (holds_term field (nested_term_value q)) items
  | _, _ => false
  end.

Section Semantics.
(** Text analysis and scoring are left open. *)
Variable text_matches : text_query → document → bool.
Variable rank : search_request → list es_hit → list es_hit.

(** The engine's boolean query: every [must] clause has to match; when
    there is no [must] clause and at least one [should] clause, one
    [should] clause has to match (the engine's default
    [minimum_should_match] of 1); next to a [must] clause the [should]
    clauses only contribute to the score. *)
Definition bool_matches (q : bool_query) (d : document) : bool :=
  forallb (λ t, text_matches t d) (must q)
  && match must q, should q with
     | [], _ :: _ => existsb (λ n, nested_matches n d) (should q)
     | _, _ => true
     end.

Definition matching (q : bool_query) (docs : list es_hit) : list es_hit :=
  filter (λ h, bool_matches q (hit_source h) = true) docs.

(** [size] hits starting at offset [from]. *)
Definition page (request : search_request) (hits : list es_hit) : list es_hit :=
  take (Z.to_nat (es_size request)) (drop (Z.to_nat (es_from request)) hits).

Definition get (st : state) (index id : string) : result es_hit * state :=
  if cluster_up st then
    match indices st !! index with
    | Some docs =>
        match List.find (λ h, String.eqb (hit_id h) id) docs with
        | Some h => (Ok h, st)
        | None => (Raise NotFoundError, st)
        end
    | None => (Raise NotFoundError, st)
    end
  else (Raise ElasticConnectionError, st).

Definition search (st : state) (request : search_request) :
    result (list es_hit) * state :=
  if cluster_up st then
    match indices st !! es_index request with
    | Some docs =>
        (Ok (page request (rank request (matching (es_query request) docs))), st)
    | None => (Raise NotFoundError, st)
    end
  else (Raise ElasticConnectionError, st).

Definition client : ElasticClient state :=
  {| elastic_get := get; elastic_search := search |}.
End Semantics.
End ReferenceEngine.

Module ScriptedEngine.
(** An engine whose successive answers are given in advance. *)
Record state : Type := {
  get_answers : list (result es_hit);
  search_answers : list (result (list es_hit));
}.

Definition get (st : state) (index id : string) : result es_hit * state :=
  match get_answers st with
  | [] => (Raise ElasticConnectionError, st)
  | answer :: rest =>
      (answer, {| get_answers := rest; search_answers := search_answers st |})
  end.

Definition search (st : state) (request : search_request) :
    result (list es_hit) * state :=
  match search_answers st with
  | [] => (Raise ElasticConnectionError, st)
  | answer :: rest =>
      (answer, {| get_answers := get_answers st; search_answers := rest |})
  end.

#[export] Instance client : ElasticClient state :=
  {| elastic_get := get; elastic_search := search |}.
End ScriptedEngine.

Module Catalogue.
(** *** Numbers *)

(** The float nearest to [n / d], for a positive [d]. *)
Definition float_of_ratio (n d : Z) : float :=
  match n, d with
  | Z0, _ => 0%float
  | Zpos p, Zpos q =>
      SF2Prim (SFdiv prec emax (S754_finite false p 0) (S754_finite false q 0))
  | Zneg p, Zpos q =>
      SF2Prim (SFdiv prec emax (S754_finite true p 0) (S754_finite false q 0))
  | _, _ => nan
  end.

(** The float nearest to [digits * 10 ^ scale]. *)
Definition float_of_decimal (digits scale : Z) : float :=
  if (0 <=? scale)%Z then float_of_ratio (digits * 10 ^ scale) 1
  else float_of_ratio digits (10 ^ (- scale)).

Definition digit_value (c : ascii) : option Z :=
  let n := (Z.of_N (N_of_ascii c) - 48)%Z in
  if ((0 <=? n) && (n <=? 9))%Z then Some n else None.

(** Decimal digits, most significant first: their value after [acc], how
    many there are, and what follows them. *)
Fixpoint read_digits (s : string) (acc : Z) (count : nat) : Z * nat * string :=
  match s with
  | String c rest =>
      match digit_value c with
      | Some d => read_digits rest (10 * acc + d)%Z (S count)
      | None => (acc, count, s)
      end
  | EmptyString => (acc, count, s)
  end.

(** An unsigned decimal numeral: digits, an optional fraction and an
    optional exponent. It gives the digits as an integer, the power of ten
    that scales them, whether a fraction or an exponent was written, and
    what follows. JSON wants digits on both sides of the point; the
    lenient reading, for numerals inside strings, wants them on one side. *)
Definition read_decimal (lenient : bool) (s : string) : option (Z * Z * bool * string) :=
  let '(whole, n, rest) := read_digits s 0 0 in
  let '(digits, k, pointed, rest) :=
    match rest with
    | String "." rest' =>
        let '(all, k, tail) := read_digits rest' whole 0 in (all, k, true, tail)
    | _ => (whole, O, false, rest)
    end in
  let well_formed :=
    if lenient then negb ((n =? 0) && (k =? 0))%nat
    else (negb (n =? 0) && (negb pointed || negb (k =? 0)))%nat in
  if negb well_formed then None
  else
    let scale := (- Z.of_nat k)%Z in
    match rest with
    | String c rest' =>
        if Ascii.eqb c "e" || Ascii.eqb c "E" then
          let '(negative, rest'') :=
            match rest' with
            | String "-" r => (true, r)
            | String "+" r => (false, r)
            | _ => (false, rest')
            end in
          let '(e, count, tail) := read_digits rest'' 0 0 in
          match count with
          | O => None
          | _ => Some (digits, (scale + if negative : bool then - e else e)%Z, true, tail)
          end
        else Some (digits, scale, pointed, rest)
    | EmptyString => Some (digits, scale, pointed, rest)
    end.

(** JSON whitespace. *)
Definition is_space (c : ascii) : bool :=
  let n := N_of_ascii c in ((n =? 32) || (n =? 9) || (n =? 10) || (n =? 13))%N.

Fixpoint skip_ws (s : string) : string :=
  match s with
  | String c rest => if is_space c then skip_ws rest else s
  | EmptyString => EmptyString
  end.

Definition lower (c : ascii) : ascii :=
  let n := N_of_ascii c in
  if ((65 <=? n) && (n <=? 90))%N then ascii_of_N (n + 32) else c.

(** A word without its case and without the blanks that follow it. *)
Fixpoint word (s : string) : string :=
  match s with
  | EmptyString => EmptyString
  | String c rest =>
      match word rest with
      | EmptyString => if is_space c then EmptyString else String (lower c) EmptyString
      | rest' => String (lower c) rest'
      end
  end.

(** A float written in a string, as the lax validation of a [float] field
    reads it: blanks around it are dropped, a sign may lead, and the
    numeral is a decimal or one of [inf], [infinity] and [nan] in any case.
    (Digit separators are not read.) *)
Definition float_of_str (s : string) : option float :=
  let s := skip_ws s in
  let '(negative, s) :=
    match s with
    | String "-" r => (true, r)
    | String "+" r => (false, r)
    | _ => (false, s)
    end in
  let signed (x : float) := if negative : bool then PrimFloat.opp x else x in
  match read_decimal true s with
  | Some (digits, scale, _, tail) =>
      match skip_ws tail with
      | EmptyString => Some (signed (float_of_decimal digits scale))
      | _ => None
      end
  | None =>
      let w := word s in
      if String.eqb w "inf" || String.eqb w "infinity" then Some (signed infinity)
      else if String.eqb w "nan" then Some nan
      else None
  end.

(** *** Reading entities from documents *)

Definition str_of_json (j : json) : option string :=
  match j with JStr s => Some s | _ => None end.

(** A required [str] field. *)
Definition str_field (key : string) (d : document) : option string :=
  dict_get key d ≫= str_of_json.

(** A required [Optional[str]] field. *)
Definition optional_str_field (key : string) (d : document) : option (option string) :=
  match dict_get key d with
  | Some JNull => Some None
  | Some (JStr s) => Some (Some s)
  | _ => None
  end.

(** The lax validation of a [float]: a float as it is, an integer as the
    nearest float (one too large for a float is refused), a boolean as 0 or
    1, a string as the float written in it. *)
Definition float_of_json (j : json) : option float :=
  match j with
  | JFloat x => Some x
  | JInt n =>
      let x := float_of_ratio n 1 in
      if PrimFloat.is_infinity x then None else Some x
  | JBool b => Some (if b then 1%float else 0%float)
  | JStr s => float_of_str s
  | _ => None
  end.

(** A required [Optional[float]] field. *)
Definition optional_float_field (key : string) (d : document) : option (option float) :=
  match dict_get key d with
  | Some JNull => Some None
  | Some j => Some <$> float_of_json j
  | None => None
  end.

(** A list field with [default_factory=list]. *)
Definition list_field {A} (read : json → option A) (key : string) (d : document) :
    option (list A) :=
  match dict_get key d with
  | None => Some []
  | Some (JList items) => mapM read items
  | Some _ => None
  end.

Definition film_person_of_json (j : json) : option FilmPerson :=
  match j with
  | JDict entries =>
      id ← str_field "id" entries;
      name ← str_field "name" entries;
      Some {| film_person_id := id; film_person_name := name |}
  | _ => None
  end.

Definition genre_of_document (d : document) : option Genre :=
  id ← str_field "id" d;
  name ← str_field "name" d;
  description ← optional_str_field "description" d;
  Some {| genre_id := id; genre_name := name; genre_description := description |}.

Definition film_of_document (d : document) : option Film :=
  id ← str_field "id" d;
  title ← str_field "title" d;
  description ← optional_str_field "description" d;
  imdb_rating ← optional_float_field "imdb_rating" d;
  actors ← list_field film_person_of_json "actors" d;
  writers ← list_field film_person_of_json "writers" d;
  directors ← list_field film_person_of_json "directors" d;
  genres ← list_field str_of_json "genres" d;
  actors_names ← list_field str_of_json "actors_names" d;
  writers_names ← list_field str_of_json "writers_names" d;
  directors_names ← list_field str_of_json "directors_names" d;
  Some {| film_id := id; title := title; description := description;
          imdb_rating := imdb_rating; actors := actors; writers := writers;
          directors := directors; genres := genres; actors_names := actors_names;
          writers_names := writers_names; directors_names := directors_names |}.

#[export, refine] Instance Genre_Model : Model Genre :=
  {| model_init := genre_of_document; model_validate := genre_of_document |}.
Proof.
  intros d e. unfold genre_of_document, str_field.
  destruct (dict_get "id" d) as [[| | | |id| |]|]; try done. simpl.
  intros He. do 2 f_equal.
  repeat match type of He with
         | (?m ≫= _) = Some _ => destruct m; simpl in He; [|done]
         end.
  by injection He as <-.
Defined.

#[export, refine] Instance Film_Model : Model Film :=
  {| model_init := film_of_document; model_validate := film_of_document |}.
Proof.
  intros d e. unfold film_of_document, str_field.
  destruct (dict_get "id" d) as [[| | | |id| |]|]; try done. simpl.
  intros He. do 2 f_equal.
  repeat match type of He with
         | (?m ≫= _) = Some _ => destruct m; simpl in He; [|done]
         end.
  by injection He as <-.
Defined.

(** *** JSON texts: writing *)

Definition quote : ascii := ascii_of_nat 34.
Definition backslash : ascii := ascii_of_nat 92.

(** A hexadecimal digit, in lower case. *)
Definition hex_digit (n : N) : ascii :=
  ascii_of_N (if (n <? 10)%N then 48 + n else 87 + n)%N.

(** A character inside a JSON string: the quote, the backslash and the
    control characters are escaped, any other byte is written as it is. *)
Definition escape_char (c : ascii) : string :=
  let n := N_of_ascii c in
  if Ascii.eqb c quote then String backslash (String quote EmptyString)
  else if Ascii.eqb c backslash then String backslash (String backslash EmptyString)
  else if (n =? 8)%N then String backslash "b"
  else if (n =? 12)%N then String backslash "f"
  else if (n =? 10)%N then String backslash "n"
  else if (n =? 13)%N then String backslash "r"
  else if (n =? 9)%N then String backslash "t"
  else if (n <? 32)%N then
    String backslash
      (String "u" (String "0" (String "0"
         (String (hex_digit (n / 16)) (String (hex_digit (n mod 16)) EmptyString)))))
  else String c EmptyString.

Fixpoint escape (s : string) : string :=
  match s with
  | EmptyString => EmptyString
  | String c rest => escape_char c +:+ escape rest
  end.

Definition json_str (s : string) : string :=
  String quote (escape s) +:+ String quote EmptyString.

Definition json_optional_str (o : option string) : string :=
  match o with
  | None => "null"
  | Some s => json_str s
  end.

Definition json_list (items : list string) : string :=
  "[" +:+ String.concat "," items +:+ "]".

(** The shortest decimal [digits * 10 ^ scale] that reads back as the
    positive float [x = n / d]: the scale goes down from [scale] until one
    of the two decimals around [x] at that scale reads back as [x], the
    nearer one first. *)
Fixpoint shortest_decimal (fuel : nat) (x : float) (n d scale : Z) : Z * Z :=
  match fuel with
  | O => (0, 0)%Z
  | S fuel =>
      let '(num, den) := if (0 <=? scale)%Z then (n, d * 10 ^ scale)%Z
                         else (n * 10 ^ (- scale), d)%Z in
      let low := (num / den)%Z in
      let '(near, far) := if (2 * (num mod den) <=? den)%Z then (low, low + 1)%Z
                          else (low + 1, low)%Z in
      if PrimFloat.eqb (float_of_decimal near scale) x then (near, scale)
      else if PrimFloat.eqb (float_of_decimal far scale) x then (far, scale)
      else shortest_decimal fuel x n d (scale - 1)
  end.

Definition zeros (n : nat) : string := String.concat "" (replicate n "0").

(** The layout of a positive decimal: plain notation when the decimal
    point falls within the 16 places after the first digit or the 5 before
    it, scientific notation otherwise. *)
Definition layout (digits scale : Z) : string :=
  let ds : string := pretty digits in
  let len := Z.of_nat (String.length ds) in
  let point := (len + scale)%Z in
  if ((0 <=? scale) && (point <=? 16))%Z then ds +:+ zeros (Z.to_nat scale) +:+ ".0"
  else if ((0 <? point) && (point <=? 16))%Z then
    substring 0 (Z.to_nat point) ds +:+ "." +:+
    substring (Z.to_nat point) (Z.to_nat (len - point)) ds
  else if ((-5 <? point) && (point <=? 0))%Z then
    "0." +:+ zeros (Z.to_nat (- point)) +:+ ds
  else if (len =? 1)%Z then ds +:+ "e" +:+ pretty (point - 1)%Z
  else substring 0 1 ds +:+ "." +:+ substring 1 (Z.to_nat (len - 1)) ds
       +:+ "e" +:+ pretty (point - 1)%Z.

(** A float in a JSON text: the shortest decimal that reads back as the
    float; an infinite float and a NaN are written [null]. *)
Definition json_float (x : float) : string :=
  match Prim2SF x with
  | S754_zero negative => if negative then "-0.0" else "0.0"
  | S754_finite negative m e =>
      let '(n, d) := if (0 <=? e)%Z then (Z.pos m * 2 ^ e, 1)%Z
                     else (Z.pos m, 2 ^ (- e))%Z in
      let start := if (n <? d)%Z then 0%Z
                   else Z.of_nat (String.length (pretty (n / d)%Z)) in
      let '(digits, scale) := shortest_decimal 400 (PrimFloat.abs x) n d start in
      (if negative then "-" else "") +:+ layout digits scale
  | _ => "null"
  end.

Definition json_optional_float (o : option float) : string :=
  match o with
  | None => "null"
  | Some x => json_float x
  end.

(** *** JSON texts: reading *)

Definition hex_value (c : ascii) : option N :=
  let n := N_of_ascii c in
  if ((48 <=? n) && (n <=? 57))%N then Some (n - 48)%N
  else if ((97 <=? n) && (n <=? 102))%N then Some (n - 87)%N
  else if ((65 <=? n) && (n <=? 70))%N then Some (n - 55)%N
  else None.

(** The bytes of a code point of the basic plane; the halves of a
    surrogate pair are not read. *)
Definition utf8 (cp : N) : option string :=
  if (cp <? 128)%N then Some (String (ascii_of_N cp) EmptyString)
  else if (cp <? 2048)%N then
    Some (String (ascii_of_N (192 + cp / 64))
            (String (ascii_of_N (128 + cp mod 64)) EmptyString))
  else if ((55296 <=? cp) && (cp <? 57344))%N then None
  else
    Some (String (ascii_of_N (224 + cp / 4096))
            (String (ascii_of_N (128 + (cp / 64) mod 64))
               (String (ascii_of_N (128 + cp mod 64)) EmptyString))).

(** The character that follows a backslash. *)
Definition unescape (c : ascii) : option ascii :=
  if Ascii.eqb c quote then Some quote
  else if Ascii.eqb c backslash then Some backslash
  else if Ascii.eqb c "/" then Some "/"%char
  else if Ascii.eqb c "b" then Some (ascii_of_nat 8)
  else if Ascii.eqb c "f" then Some (ascii_of_nat 12)
  else if Ascii.eqb c "n" then Some (ascii_of_nat 10)
  else if Ascii.eqb c "r" then Some (ascii_of_nat 13)
  else if Ascii.eqb c "t" then Some (ascii_of_nat 9)
  else None.

(** Reads a string body up to its closing quote. *)
Fixpoint read_str (s : string) : option (string * string) :=
  match s with
  | EmptyString => None
  | String c rest =>
      if Ascii.eqb c quote then Some (EmptyString, rest)
      else if Ascii.eqb c backslash then
        match rest with
        | String "u" (String h1 (String h2 (String h3 (String h4 rest')))) =>
            n1 ← hex_value h1; n2 ← hex_value h2;
            n3 ← hex_value h3; n4 ← hex_value h4;
            bytes ← utf8 (((n1 * 16 + n2) * 16 + n3) * 16 + n4)%N;
            '(body, tail) ← read_str rest'; Some (bytes +:+ body, tail)
        | String c' rest' =>
            c'' ← unescape c';
            '(body, tail) ← read_str rest'; Some (String c'' body, tail)
        | EmptyString => None
        end
      else if (N_of_ascii c <? 32)%N then None
      else '(body, tail) ← read_str rest; Some (String c body, tail)
  end.

(** A JSON number: an integer, or a float when it has a fraction or an
    exponent. *)
Definition read_number (s : string) : option (json * string) :=
  let '(negative, s) := match s with
                        | String "-" rest => (true, rest)
                        | _ => (false, s)
                        end in
  match s with
  | String "0" (String c _) =>
      match digit_value c with Some _ => None | None => Some tt end
  | _ => Some tt
  end ;;
  '(digits, scale, real, tail) ← read_decimal false s;
  if real : bool then
    let x := float_of_decimal digits scale in
    Some (JFloat (if negative : bool then PrimFloat.opp x else x), tail)
  else Some (JInt (if negative : bool then - digits else digits)%Z, tail).

(** Reads one JSON value and gives what follows it. *)
Fixpoint read_json (fuel : nat) (s : string) : option (json * string) :=
  match fuel with
  | O => None
  | S fuel =>
      match skip_ws s with
      | String "n" (String "u" (String "l" (String "l" tail))) => Some (JNull, tail)
      | String "t" (String "r" (String "u" (String "e" tail))) => Some (JBool true, tail)
      | String "f" (String "a" (String "l" (String "s" (String "e" tail)))) =>
          Some (JBool false, tail)
      | String "[" rest =>
          match skip_ws rest with
          | String "]" tail => Some (JList [], tail)
          | rest => '(items, tail) ← read_items fuel rest; Some (JList items, tail)
          end
      | String "{" rest =>
          match skip_ws rest with
          | String "}" tail => Some (JDict [], tail)
          | rest => '(members, tail) ← read_fields fuel rest; Some (JDict members, tail)
          end
      | String c rest =>
          if Ascii.eqb c quote then '(v, tail) ← read_str rest; Some (JStr v, tail)
          else read_number (String c rest)
      | EmptyString => None
      end
  end
with read_items (fuel : nat) (s : string) : option (list json * string) :=
  match fuel with
  | O => None
  | S fuel =>
      '(item, tail) ← read_json fuel s;
      match skip_ws tail with
      | String "," more =>
          '(items, tail) ← read_items fuel more; Some (item :: items, tail)
      | String "]" tail => Some ([item], tail)
      | _ => None
      end
  end
with read_fields (fuel : nat) (s : string) : option (list (string * json) * string) :=
  match fuel with
  | O => None
  | S fuel =>
      match skip_ws s with
      | String c rest =>
          if Ascii.eqb c quote then
            '(key, tail) ← read_str rest;
            match skip_ws tail with
            | String ":" tail =>
                '(v, tail) ← read_json fuel tail;
                match skip_ws tail with
                | String "," more =>
                    '(members, tail) ← read_fields fuel more;
                    Some ((key, v) :: members, tail)
                | String "}" tail => Some ([(key, v)], tail)
                | _ => None
                end
            | _ => None
            end
          else None
      | EmptyString => None
      end
  end.

(** A whole text holding one JSON object. *)
Definition read_object (s : string) : option document :=
  match read_json (S (String.length s)) s with
  | Some (JDict members, tail) =>
      match skip_ws tail with
      | EmptyString => Some members
      | _ => None
      end
  | _ => None
  end.

(** *** The JSON text of a genre *)

Definition genre_dump_json (g : Genre) : string :=
  "{" +:+ json_str "id" +:+ ":" +:+ json_str (genre_id g) +:+ ","
      +:+ json_str "name" +:+ ":" +:+ json_str (genre_name g) +:+ ","
      +:+ json_str "description" +:+ ":" +:+ json_optional_str (genre_description g)
      +:+ "}".

#[export] Instance Genre_JsonCodec : JsonCodec Genre :=
  {| model_dump_json := genre_dump_json;
     model_validate_json := λ data, read_object data ≫= genre_of_document |}.

(** *** A small catalogue *)

Definition drama : document :=
  [("id", JStr "g1"); ("name", JStr "Drama"); ("description", JNull)].

Definition drama_genre : Genre :=
  {| genre_id := "g1"; genre_name := "Drama"; genre_description := None |}.

(** A genre document without its [name]. *)
Definition broken_genre : document :=
  [("id", JStr "g2"); ("description", JStr "no name")].

(** The nested objects and the flattened names of the same people. *)
Definition credits (people : list (string * string)) : json :=
  JList ((λ person, JDict [("id", JStr person.1); ("name", JStr person.2)]) <$> people).

Definition names (people : list (string * string)) : json :=
  JList ((λ person, JStr person.2) <$> people).

Definition film_document (id title : string)
    (actors writers directors : list (string * string)) : document :=
  [("id", JStr id); ("title", JStr title); ("description", JNull);
   ("imdb_rating", JFloat 8.5); ("genres", JList [JStr "Drama"]);
   ("actors", credits actors); ("writers", credits writers);
   ("directors", credits directors);
   ("actors_names", names actors); ("writers_names", names writers);
   ("directors_names", names directors)].

(** Alice acts in the first film, writes and directs the second; Bob
    directs the first and acts in the third. *)
Definition film1 : es_hit :=
  {| hit_id := "f1";
     hit_source := film_document "f1" "First" [("p1", "Alice")] [] [("p2", "Bob")] |}.
Definition film2 : es_hit :=
  {| hit_id := "f2";
     hit_source := film_document "f2" "Second" [] [("p1", "Alice")] [("p1", "Alice")] |}.
Definition film3 : es_hit :=
  {| hit_id := "f3";
     hit_source := film_document "f3" "Third" [("p2", "Bob")] [] [] |}.

Definition alice : Person := {| person_id := "p1"; full_name := "Alice"; films := [] |}.

(** A film document without its [title]. *)
Definition broken_film : es_hit :=
  {| hit_id := "f4";
     hit_source := [("id", JStr "f4"); ("description", JStr "lost reel")] |}.

(** Exact matching on string fields and on lists of strings. *)
Definition mentions (query : string) (value : option json) : bool :=
  match value with
  | Some (JStr s) => String.eqb s query
  | Some (JList items) =>
      existsb (λ j, match j with JStr s => String.eqb s query | _ => false end) items
  | _ => false
  end.

(** A field of a multi-field query without its boost: [title^3] is [title]. *)
Fixpoint unboosted (field : string) : string :=
  match field with
  | EmptyString => EmptyString
  | String c rest => if Ascii.eqb c "^" then EmptyString else String c (unboosted rest)
  end.

Definition text_matches (q : text_query) (d : document) : bool :=
  match q with
  | Match field query _ => mentions query (dict_get field d)
  | MultiMatch query fields =>
      existsb (λ field, mentions query (dict_get (unboosted field) d)) fields
  end.

(** Hits in the order of the index. *)
Definition rank (request : search_request) (hits : list es_hit) : list es_hit := hits.

#[export] Instance engine : ElasticClient ReferenceEngine.state :=
  ReferenceEngine.client text_matches rank.

Definition cluster : ReferenceEngine.state :=
  {| ReferenceEngine.cluster_up := true;
     ReferenceEngine.indices :=
       <["movies" := [film1; film2; film3; broken_film]]>
         (<["genres" := [{| hit_id := "g1"; hit_source := drama |};
                         {| hit_id := "g2"; hit_source := broken_genre |}]]> ∅) |}.

Definition empty_redis : RedisState := {| redis_up := true; redis_data := ∅ |}.

Definition start : world ReferenceEngine.state :=
  {| redis := empty_redis; elastic := cluster; trace := [] |}.

(** The same cluster once the Drama genre has been cached. *)
Definition warm : world ReferenceEngine.state :=
  {| redis := {| redis_up := true;
                 redis_data := <["genres_g1" := (genre_dump_json drama_genre, 300%Z)]> ∅ |};
     elastic := cluster; trace := [] |}.

(** A scripted engine about to answer two searches differently. *)
Definition scripted : world ScriptedEngine.state :=
  {| redis := empty_redis;
     elastic := {| ScriptedEngine.get_answers := [];
                   ScriptedEngine.search_answers :=
                     [Ok [{| hit_id := "g2"; hit_source := broken_genre |}];
                      Ok [{| hit_id := "g1"; hit_source := drama |}]] |};
     trace := [] |}.
(** *** People *)

Definition person_film_of_json (j : json) : option PersonFilm :=
  match j with
  | JDict entries =>
      id ← str_field "id" entries;
      roles ← list_field str_of_json "roles" entries;
      Some {| person_film_id := id; roles := roles |}
  | _ => None
  end.

Definition person_of_document (d : document) : option Person :=
  id ← str_field "id" d;
  full_name ← str_field "full_name" d;
  films ← list_field person_film_of_json "films" d;
  Some {| person_id := id; full_name := full_name; films := films |}.

#[export, refine] Instance Person_Model : Model Person :=
  {| model_init := person_of_document; model_validate := person_of_document |}.
Proof.
  intros d e. unfold person_of_document, str_field.
  destruct (dict_get "id" d) as [[| | | |id| |]|]; try done. simpl.
  intros He. do 2 f_equal.
  repeat match type of He with
         | (?m ≫= _) = Some _ => destruct m; simpl in He; [|done]
         end.
  by injection He as <-.
Defined.

(** *** The JSON text of a person *)

Definition person_film_dump_json (f : PersonFilm) : string :=
  "{" +:+ json_str "id" +:+ ":" +:+ json_str (person_film_id f) +:+ ","
      +:+ json_str "roles" +:+ ":" +:+ json_list (json_str <$> roles f)
      +:+ "}".

Definition person_dump_json (p : Person) : string :=
  "{" +:+ json_str "id" +:+ ":" +:+ json_str (person_id p) +:+ ","
      +:+ json_str "full_name" +:+ ":" +:+ json_str (full_name p) +:+ ","
      +:+ json_str "films" +:+ ":" +:+ json_list (person_film_dump_json <$> films p)
      +:+ "}".

#[export] Instance Person_JsonCodec : JsonCodec Person :=
  {| model_dump_json := person_dump_json;
     model_validate_json := λ data, read_object data ≫= person_of_document |}.

(** *** The JSON text of a film *)

Definition film_person_dump_json (p : FilmPerson) : string :=
  "{" +:+ json_str "id" +:+ ":" +:+ json_str (film_person_id p) +:+ ","
      +:+ json_str "name" +:+ ":" +:+ json_str (film_person_name p)
      +:+ "}".

Definition film_dump_json (film : Film) : string :=
  "{" +:+ json_str "id" +:+ ":" +:+ json_str (film_id film) +:+ ","
      +:+ json_str "title" +:+ ":" +:+ json_str (title film) +:+ ","
      +:+ json_str "description" +:+ ":" +:+ json_optional_str (description film) +:+ ","
      +:+ json_str "imdb_rating" +:+ ":" +:+ json_optional_float (imdb_rating film) +:+ ","
      +:+ json_str "actors" +:+ ":"
      +:+ json_list (film_person_dump_json <$> actors film) +:+ ","
      +:+ json_str "writers" +:+ ":"
      +:+ json_list (film_person_dump_json <$> writers film) +:+ ","
      +:+ json_str "directors" +:+ ":"
      +:+ json_list (film_person_dump_json <$> directors film) +:+ ","
      +:+ json_str "genres" +:+ ":" +:+ json_list (json_str <$> genres film) +:+ ","
      +:+ json_str "actors_names" +:+ ":"
      +:+ json_list (json_str <$> actors_names film) +:+ ","
      +:+ json_str "writers_names" +:+ ":"
      +:+ json_list (json_str <$> writers_names film) +:+ ","
      +:+ json_str "directors_names" +:+ ":"
      +:+ json_list (json_str <$> directors_names film)
      +:+ "}".

#[export] Instance Film_JsonCodec : JsonCodec Film :=
  {| model_dump_json := film_dump_json;
     model_validate_json := λ data, read_object data ≫= film_of_document |}.

(** A film document whose rating is the text [Infinity], and the film it
    validates to. *)
Definition endless_document : document :=
  [("id", JStr "f9"); ("title", JStr "Endless"); ("description", JNull);
   ("imdb_rating", JStr "Infinity")].

Definition endless : Film :=
  {| film_id := "f9"; title := "Endless"; description := None;
     imdb_rating := Some infinity; actors := []; writers := []; directors := [];
     genres := []; actors_names := []; writers_names := []; directors_names := [] |}.

(** The first film of the catalogue as an entity. *)
Definition first_film : Film :=
  {| film_id := "f1"; title := "First"; description := None;
     imdb_rating := Some 8.5%float;
     actors := [{| film_person_id := "p1"; film_person_name := "Alice" |}];
     writers := [];
     directors := [{| film_person_id := "p2"; film_person_name := "Bob" |}];
     genres := ["Drama"]; actors_names := ["Alice"]; writers_names := [];
     directors_names := ["Bob"] |}.

Definition person_document (id full_name : string) : document :=
  [("id", JStr id); ("full_name", JStr full_name)].

(** The cluster with an index of people next to the films and genres; the
    third person document has no name. *)
Definition studio : ReferenceEngine.state :=
  {| ReferenceEngine.cluster_up := true;
     ReferenceEngine.indices :=
       <["persons" := [{| hit_id := "p1"; hit_source := person_document "p1" "Alice" |};
                       {| hit_id := "p2"; hit_source := person_document "p2" "Bob" |};
                       {| hit_id := "p3"; hit_source := [("id", JStr "p3")] |}]]>
         (<["movies" := [film1; film2; film3]]> (ReferenceEngine.indices cluster)) |}.

Definition opening : world ReferenceEngine.state :=
  {| redis := empty_redis; elastic := studio; trace := [] |}.

(** The cache backend cannot be reached. *)
Definition outage : world ReferenceEngine.state :=
  {| redis := {| redis_up := false; redis_data := ∅ |}; elastic := studio; trace := [] |}.

(** A text that is no JSON object sits under the key of the Drama genre, an
    empty text under the key of the first person. *)
Definition spoiled : world ReferenceEngine.state :=
  {| redis := {| redis_up := true;
                 redis_data := <["genres_g1" := ("Drama", 300%Z)]>
                                 (<["persons_p1" := ("", 300%Z)]> ∅) |};
     elastic := studio; trace := [] |}.
End Catalogue.

(** * Specification-side definitions *)

(** A sort directive as the specification reads it: a leading [-] asks for
    descending order on the rest, anything else for ascending order. *)
Definition directive_field_order (directive : string) : string * string :=
  match directive with
  | String "-"%char field => (field, "desc")
  | _ => (directive, "asc")
  end.

(** The roles under which a person's full name is listed in a film. *)
Definition listed_as (person : Person) (filmwork : Film) (role : string) : Prop :=
  (role = "actor" ∧ full_name person ∈ actors_names filmwork)
  ∨ (role = "writer" ∧ full_name person ∈ writers_names filmwork)
  ∨ (role = "director" ∧ full_name person ∈ directors_names filmwork).

(** The name list consulted for a role of [PERSON_ROLES]. *)
Definition names_of_role (filmwork : Film) (role : string) : list string :=
  if String.eqb role "actor" then actors_names filmwork
  else if String.eqb role "director" then directors_names filmwork
  else writers_names filmwork.

(** The roles of [PERSON_ROLES], in that order, whose name list holds the
    person's full name. *)
Definition derived_roles (person : Person) (filmwork : Film) : list string :=
  filter (λ role, str_in (full_name person) (names_of_role filmwork role) = true)
    PERSON_ROLES.
Arguments derived_roles : simpl never.

(** The state after a step that appended [events] and left the servers in
    the given states. *)
Definition after {ES} (w : world ES) (redis' : RedisState) (elastic' : ES)
    (events : list event) : world ES :=
  {| redis := redis'; elastic := elastic'; trace := trace w ++ events |}.

(** A cache miss as [_get_from_cache] sees it: nothing stored under the
    key, or the empty text. *)
Definition cache_miss {ES} (w : world ES) (key : string) : Prop :=
  match redis_data (redis w) !! key with
  | None => True
  | Some (data, _) => data = ""
  end.

(** The ids of the people stored under a nested path of a film document
    (actors, writers or directors). *)
Definition person_ids (path : string) (d : document) : list string :=
  match dict_get path d with
  | Some (JList items) =>
      omap (λ item, match item with
                    | JDict entries =>
                        match dict_get "id" entries with
                        | Some (JStr id) => Some id
                        | _ => None
                        end
                    | _ => None
                    end) items
  | _ => []
  end.

(** The person appears in the actors, writers or directors nested path. *)
Definition credited (person_id : string) (d : document) : Prop :=
  person_id ∈ person_ids "actors" d
  ∨ person_id ∈ person_ids "writers" d
  ∨ person_id ∈ person_ids "directors" d.

#[global] Instance credited_dec person_id d : Decision (credited person_id d).
Proof. unfold credited. apply _. Defined.

(** The query that [get_person_films] makes [_search] build. *)
Definition person_films_query (person_id : string) : bool_query :=
  {| must := [];
     should :=
       [ {| nested_path := "actors"; nested_term_field := "actors.id";
            nested_term_value := person_id |};
         {| nested_path := "directors"; nested_term_field := "directors.id";
            nested_term_value := person_id |};
         {| nested_path := "writers"; nested_term_field := "writers.id";
            nested_term_value := person_id |} ] |}.

(** The same state with another cache behind the client. *)
Definition with_redis {ES} (r : RedisState) (w : world ES) : world ES :=
  {| redis := r; elastic := elastic w; trace := trace w |}.

(** A coroutine that talks to the engine only, and only by searches: the
    calls it appends are searches, and it runs the same way whatever the
    cache holds and whether or not the cache can be reached, leaving it as
    it found it. *)
Definition searches_only {ES A} (m : App ES A) : Prop :=
  ∀ w, (∃ requests, trace (m w).2 = trace w ++ (ElasticSearch <$> requests))
       ∧ ∀ r, m (with_redis r w) = ((m w).1, with_redis r (m w).2).

(** The request [get_person_films] sends for all the films of a person:
    [CommonQueryParams(page_size=10000)]. *)
Definition all_films_request (index person_id : string) : search_request :=
  {| es_index := index; es_size := 10000; es_from := 0;
     es_query := person_films_query person_id;
     es_sort := [("_score", "desc")] |}.

(** The request [get_by_text_field] sends, twice. *)
Definition text_field_request (index search_field search_text : string) : search_request :=
  {| es_index := index; es_size := 10; es_from := 0;
     es_query := {| must := match search_text with
                            | EmptyString => []
                            | _ => [Match search_field search_text "auto"]
                            end;
                    should := [] |};
     es_sort := [("_score", "desc")] |}.

(** One [PersonFilm] per film, with the roles under which the person is
    listed in it. *)
Definition filmwork_roles (person : Person) (filmworks : list Film) : list PersonFilm :=
  (λ filmwork, {| person_film_id := film_id filmwork;
                  roles := derived_roles person filmwork |}) <$> filmworks.

Definition is_log (ev : event) : bool :=
  match ev with
  | LogError _ _ => true
  | _ => false
  end.

(** What a lookup of the service [entity_name] may have done to the cache
    between two states: nothing, or one write under a key of that service,
    for 300 seconds. *)
Definition wrote_at_most {ES} (entity_name : string) (w w' : world ES) : Prop :=
  redis w' = redis w
  ∨ ∃ id text,
      redis w' = {| redis_up := true;
                    redis_data := <[entity_name +:+ "_" +:+ id := (text, 300%Z)]>
                                    (redis_data (redis w)) |}.

(** The answers of the engine to a sequence of searches, made one after
    the other, and the state they leave it in. *)
Fixpoint search_chain `{ElasticClient ES} (requests : list search_request) (es : ES) :
    list (result (list es_hit)) * ES :=
  match requests with
  | [] => ([], es)
  | request :: rest =>
      let answer := elastic_search es request in
      let answers := search_chain rest answer.2 in
      (answer.1 :: answers.1, answers.2)
  end.

(** The second, fourth, ... element of a list. *)
Fixpoint seconds {A} (l : list A) : list A :=
  match l with
  | _ :: x :: rest => x :: seconds rest
  | _ => []
  end.

(** The entity of the first hit, if there is a hit. *)
Definition first_hit {item} `{Model item} (hits : list es_hit) : result (option item) :=
  match hits with
  | [] => Ok None
  | hit :: _ =>
      match model_validate (hit_source hit) with
      | Some it => Ok (Some it)
      | None => Raise ValidationError
      end
  end.

(** The cache round trip of an entity: the cache-write stores the entity's
    JSON text under the key [entity_name_id], and the cache-read of that id
    gives back the entity itself. *)
Definition round_trips {ES item} `{HasId item} `{!JsonCodec item}
    (entity_name : string) (E : item) (w : world ES) : Prop :=
  let key := entity_name +:+ "_" +:+ item_id E in
  ∃ w1 w2,
    Service._put_to_cache RedisCache.make entity_name E w = (Ok tt, w1)
    ∧ redis_data (redis w1) !! key = Some (model_dump_json E, 300%Z)
    ∧ trace w1 = trace w ++ [RedisSet key (model_dump_json E) 300]
    ∧ Service._get_from_cache RedisCache.make entity_name (item_id E) w1
      = (Ok (Some E), w2)
    ∧ trace w2 = trace w1 ++ [RedisGet key].

(** A text that the reader of JSON values reads as [v], whatever follows
    it, with any fuel that is at least the length of the text. *)
Definition reads_as (text : string) (v : json) : Prop :=
  ∀ fuel rest, String.length text ≤ fuel →
    Catalogue.read_json fuel (text +:+ rest) = Some (v, rest).

(** The same for the members of an object up to its closing brace. *)
Definition reads_fields_as (text : string) (members : list (string * json)) : Prop :=
  ∀ fuel rest, String.length text ≤ fuel →
    Catalogue.read_fields fuel (text +:+ rest) = Some (members, rest).

(** Closes [x ∉ [a; b; ...]] for distinct literals. *)
Ltac not_among :=
  let H := fresh in
  intros H;
  repeat (apply elem_of_cons in H as [H|H]; [discriminate H|]);
  by apply elem_of_nil in H.

(** * Properties *)

(** ** Outcomes *)

Lemma result_bind_Ok {A B} (f : A → result B) (m : result A) (b : B) :
  m ≫= f = Ok b ↔ ∃ a, m = Ok a ∧ f a = Ok b.
Proof.
  destruct m as [a|e]; simpl.
  - split; [eauto | intros (a' & [= <-] & ?); done].
  - split; [done | intros (? & [=] & _)].
Qed.

(** ** Sorting and pagination *)

Lemma sort_item_nonempty (directive : string) :
  directive ≠ "" → sort_item directive = Ok (directive_field_order directive).
Proof.
  destruct directive as [|c rest]; [done|]. intros _.
  unfold sort_item; simpl.
  destruct (Ascii.eqb c "-") eqn:Hc.
  - apply Ascii.eqb_eq in Hc as ->. done.
  - destruct c as [[] [] [] [] [] [] [] []]; try done.
Qed.

Lemma sort_item_empty : sort_item "" = Raise IndexError.
Proof. done. Qed.

Lemma sort_item_Ok (directive : string) (entry : string * string) :
  sort_item directive = Ok entry →
  directive ≠ "" ∧ entry = directive_field_order directive.
Proof.
  destruct directive as [|c rest]; [done|]. intros Hs.
  split; [done|]. rewrite sort_item_nonempty in Hs by done. by injection Hs.
Qed.

Lemma mapM_sort_item_Ok (directives : list string) (items : list (string * string)) :
  mapM sort_item directives = Ok items ↔
  Forall (λ d, d ≠ "") directives ∧ items = directive_field_order <$> directives.
Proof.
  revert items. induction directives as [|d ds IH]; intros items; simpl.
  - split; [intros [= <-]; by split | intros [_ ->]; done].
  - split.
    + intros (entry & Hd & Hrest)%result_bind_Ok.
      apply result_bind_Ok in Hrest as (rest & Hds & [= <-]).
      apply sort_item_Ok in Hd as [Hne ->]. apply IH in Hds as [Hall ->].
      split; [by constructor | done].
    + intros [Hall ->]. apply Forall_cons in Hall as [Hne Hall].
      rewrite sort_item_nonempty by done. simpl.
      pose proof (proj2 (IH _) (conj Hall eq_refl)) as ->. done.
Qed.

Lemma sort_clause_Ok (params : CommonQueryParams) (clause : list (string * string)) :
  sort_clause params = Ok clause ↔
  Forall (λ d, d ≠ "") (sort params)
  ∧ clause = (directive_field_order <$> sort params) ++ [("_score", "desc")].
Proof.
  unfold sort_clause. rewrite result_bind_Ok. split.
  - intros (items & [Hall ->]%mapM_sort_item_Ok & [= <-]). done.
  - intros [Hall ->]. eexists. split; [by apply mapM_sort_item_Ok | done].
Qed.

Lemma search_request_of_Ok index params nested_objects search_query request :
  search_request_of index params nested_objects search_query = Ok request ↔
  let params := default CommonQueryParams_default params in
  Forall (λ d, d ≠ "") (sort params)
  ∧ request = {| es_index := index; es_size := page_size params;
                 es_from := from_ params;
                 es_query := build_query nested_objects search_query;
                 es_sort := (directive_field_order <$> sort params) ++ [("_score", "desc")] |}.
Proof.
  unfold search_request_of. cbv zeta. rewrite result_bind_Ok. split.
  - intros (clause & [Hall ->]%sort_clause_Ok & [= <-]). done.
  - intros [Hall ->]. eexists. split; [by apply sort_clause_Ok | done].
Qed.

Lemma from_formula (params : CommonQueryParams) :
  from_ params = (page_size params * (page_number params - 1))%Z.
Proof. unfold from_. destruct (Z.eqb_spec (page_number params) 1); lia. Qed.

(** What a call of [_search] does: nothing when building the request
    raises, and otherwise exactly one [search] call, with that request. *)
Lemma _search_run `{ElasticClient ES} index params nested_objects search_query
    (w : world ES) :
  ElasticSearchService._search index params nested_objects search_query w =
  match search_request_of index params nested_objects search_query with
  | Raise e => (Raise e, w)
  | Ok request =>
      let w' := {| redis := redis w; elastic := (elastic_search (elastic w) request).2;
                   trace := trace w ++ [ElasticSearch request] |} in
      match (elastic_search (elastic w) request).1 with
      | Ok response => (Ok (hit_source <$> response), w')
      | Raise e => (Raise e, w')
      end
  end.
Proof.
  unfold ElasticSearchService._search, lift_result, call_elastic_search, emit, effect.
  unfold mbind, App_bind, mret, App_ret. simpl.
  destruct (search_request_of _ _ _ _) as [request|e]; [|done]. simpl.
  destruct (elastic_search (elastic w) request) as [[response|e] es']; done.
Qed.

Lemma _search_sent `{ElasticClient ES} index params nested_objects search_query
    (w w' : world ES) out request :
  ElasticSearchService._search index params nested_objects search_query w = (out, w') →
  trace w' = trace w ++ [ElasticSearch request] →
  search_request_of index params nested_objects search_query = Ok request.
Proof.
  rewrite _search_run.
  destruct (search_request_of _ _ _ _) as [request'|e].
  - cbv zeta. destruct (elastic_search (elastic w) request').1;
      intros [= _ <-]; simpl; intros [= ->]%(inj (app (trace w))); done.
  - intros [= _ <-] Htr. symmetry in Htr.
    rewrite <-(app_nil_r (trace w)) in Htr at 2.
    by apply (inj (app (trace w))) in Htr.
Qed.

(** C1: for valid pagination parameters the offset handed to the engine as
    [from] is [page_size * (page_number - 1)]: the conditional expression of
    the code equals the formula; the request built from the parameters
    carries it (and is built whenever the sort directives are non-empty);
    [_search] then calls the client's search with that very request, once,
    and returns the documents of the hits it answers, or raises what it
    raises; any request [_search] sends carries the offset; and pages 1 and
    2 of size 10 start at 0 and 10. *)
Theorem offset_is_page_size_times_preceding_pages (params : CommonQueryParams) :
  valid_params params →
  from_ params = (page_size params * (page_number params - 1))%Z
  ∧ (∀ index nested_objects search_query,
       Forall (λ d, d ≠ "") (sort params) →
       ∃ request,
         search_request_of index (Some params) nested_objects search_query = Ok request
         ∧ es_from request = (page_size params * (page_number params - 1))%Z)
  ∧ (∀ ES (client : ElasticClient ES) index nested_objects search_query (w : world ES),
       Forall (λ d, d ≠ "") (sort params) →
       ∃ request,
         es_from request = (page_size params * (page_number params - 1))%Z
         ∧ es_size request = page_size params
         ∧ es_index request = index
         ∧ ElasticSearchService._search index (Some params) nested_objects search_query w
           = (match (elastic_search (elastic w) request).1 with
              | Ok response => Ok (hit_source <$> response)
              | Raise e => Raise e
              end,
              after w (redis w) (elastic_search (elastic w) request).2
                [ElasticSearch request]))
  ∧ (∀ ES (client : ElasticClient ES) index nested_objects search_query
       (w w' : world ES) out request,
       ElasticSearchService._search index (Some params) nested_objects search_query w
         = (out, w') →
       trace w' = trace w ++ [ElasticSearch request] →
       es_from request = (page_size params * (page_number params - 1))%Z)
  ∧ (∀ directives,
       from_ {| page_number := 1; page_size := 10; sort := directives |} = 0%Z
       ∧ from_ {| page_number := 2; page_size := 10; sort := directives |} = 10%Z).
Proof.
  intros _. split_and!; [apply from_formula | | | | done].
  - intros index nested_objects search_query Hall. eexists. split.
    + apply search_request_of_Ok. cbv zeta. simpl. split; [done|reflexivity].
    + simpl. apply from_formula.
  - intros ES client index nested_objects search_query w Hall.
    set (request := {| es_index := index; es_size := page_size params;
                       es_from := from_ params;
                       es_query := build_query nested_objects search_query;
                       es_sort := (directive_field_order <$> sort params)
                                  ++ [("_score", "desc")] |}).
    assert (search_request_of index (Some params) nested_objects search_query
            = Ok request) as Hrequest by (by apply search_request_of_Ok).
    exists request. split_and!; [apply from_formula | done | done |].
    rewrite _search_run, Hrequest. cbv zeta.
    by destruct (elastic_search (elastic w) request).1.
  - intros ES client index nested_objects search_query w w' out request Hrun Htr.
    apply (_search_sent _ _ _ _ _ _ _ _ Hrun) in Htr.
    apply search_request_of_Ok in Htr as [_ ->]. simpl. apply from_formula.
Qed.

(** Page 3 of size 10 starts at offset 20, and that is the offset of the
    search the client receives. *)
Lemma offset_is_page_size_times_preceding_pages_witness :
  from_ {| page_number := 3; page_size := 10; sort := ["-imdb_rating"] |} = 20%Z
  ∧ (∃ request,
       search_request_of "movies"
         (Some {| page_number := 3; page_size := 10; sort := ["-imdb_rating"] |})
         None None = Ok request
       ∧ es_from request = 20%Z)
  ∧ ∃ request,
      es_from request = 20%Z
      ∧ es_size request = 10%Z
      ∧ es_index request = "movies"
      ∧ ElasticSearchService._search (H := Catalogue.engine) "movies"
          (Some {| page_number := 3; page_size := 10; sort := ["-imdb_rating"] |})
          None None Catalogue.start
        = (match (Catalogue.engine.(elastic_search) (elastic Catalogue.start) request).1 with
           | Ok response => Ok (hit_source <$> response)
           | Raise e => Raise e
           end,
           after Catalogue.start (redis Catalogue.start)
             (Catalogue.engine.(elastic_search) (elastic Catalogue.start) request).2
             [ElasticSearch request]).
Proof.
  pose proof (offset_is_page_size_times_preceding_pages
                {| page_number := 3; page_size := 10; sort := ["-imdb_rating"] |}) as H.
  destruct H as (Hfrom & Hreq & Hrun & _).
  - unfold valid_params; simpl; lia.
  - split; [exact Hfrom|]. split.
    + apply (Hreq "movies" None None). repeat constructor; done.
    + apply (Hrun _ Catalogue.engine "movies" None None Catalogue.start).
      repeat constructor; done.
Defined.

(** C6: the sort clause lists the directives in the order given, a
    directive with a leading [-] as (field without the [-], "desc") and any
    other as (field, "asc"), followed by ("_score", "desc") as the last
    entry; with no directive the clause is ("_score", "desc") alone. This
    holds of every request that is built, and one is built whenever no
    directive is the empty string; [_search] then calls the client's
    search with that very request, once, so this is the sort clause the
    engine receives, with parameters and without. *)
Theorem sort_clause_follows_directives :
  (∀ index params nested_objects search_query request,
     search_request_of index (Some params) nested_objects search_query = Ok request →
     es_sort request = (directive_field_order <$> sort params) ++ [("_score", "desc")])
  ∧ (∀ index params nested_objects search_query,
       Forall (λ d, d ≠ "") (sort params) →
       ∃ request,
         search_request_of index (Some params) nested_objects search_query = Ok request
         ∧ es_sort request = (directive_field_order <$> sort params) ++ [("_score", "desc")])
  ∧ (∀ ES (client : ElasticClient ES) index params nested_objects search_query
       (w : world ES),
       Forall (λ d, d ≠ "") (sort params) →
       ∃ request,
         es_sort request = (directive_field_order <$> sort params) ++ [("_score", "desc")]
         ∧ es_index request = index
         ∧ ElasticSearchService._search index (Some params) nested_objects search_query w
           = (match (elastic_search (elastic w) request).1 with
              | Ok response => Ok (hit_source <$> response)
              | Raise e => Raise e
              end,
              after w (redis w) (elastic_search (elastic w) request).2
                [ElasticSearch request]))
  ∧ (∀ ES (client : ElasticClient ES) index nested_objects search_query (w : world ES),
       ∃ request,
         es_sort request = [("_score", "desc")]
         ∧ es_index request = index
         ∧ ElasticSearchService._search index None nested_objects search_query w
           = (match (elastic_search (elastic w) request).1 with
              | Ok response => Ok (hit_source <$> response)
              | Raise e => Raise e
              end,
              after w (redis w) (elastic_search (elastic w) request).2
                [ElasticSearch request]))
  ∧ (∀ ES (client : ElasticClient ES) index params nested_objects search_query
       (w w' : world ES) out request,
       ElasticSearchService._search index (Some params) nested_objects search_query w
         = (out, w') →
       trace w' = trace w ++ [ElasticSearch request] →
       es_sort request = (directive_field_order <$> sort params) ++ [("_score", "desc")])
  ∧ (∀ field, directive_field_order (String "-" field) = (field, "desc"))
  ∧ (∀ directive, (∀ field, directive ≠ String "-" field) →
       directive_field_order directive = (directive, "asc"))
  ∧ (∀ index page_number page_size nested_objects search_query,
       (search_request_of index
          (Some {| page_number := page_number; page_size := page_size; sort := [] |})
          nested_objects search_query
        ≫= λ request, mret (es_sort request)) = Ok [("_score", "desc")])
  ∧ (∀ index nested_objects search_query,
       (search_request_of index None nested_objects search_query
        ≫= λ request, mret (es_sort request)) = Ok [("_score", "desc")]).
Proof.
  split_and!.
  - intros ????? [_ ->]%search_request_of_Ok. done.
  - intros index params nested_objects search_query Hall. eexists. split.
    + apply search_request_of_Ok. cbv zeta. simpl. split; [done|reflexivity].
    + done.
  - intros ES client index params nested_objects search_query w Hall.
    set (request := {| es_index := index; es_size := page_size params;
                       es_from := from_ params;
                       es_query := build_query nested_objects search_query;
                       es_sort := (directive_field_order <$> sort params)
                                  ++ [("_score", "desc")] |}).
    assert (search_request_of index (Some params) nested_objects search_query
            = Ok request) as Hrequest by (by apply search_request_of_Ok).
    exists request. split_and!; [done | done |].
    rewrite _search_run, Hrequest. cbv zeta.
    by destruct (elastic_search (elastic w) request).1.
  - intros ES client index nested_objects search_query w.
    set (request := {| es_index := index; es_size := 10; es_from := 0;
                       es_query := build_query nested_objects search_query;
                       es_sort := [("_score", "desc")] |}).
    assert (search_request_of index None nested_objects search_query = Ok request)
      as Hrequest by done.
    exists request. split_and!; [done | done |].
    rewrite _search_run, Hrequest. cbv zeta.
    by destruct (elastic_search (elastic w) request).1.
  - intros ES client index params nested_objects search_query w w' out request Hrun Htr.
    apply (_search_sent _ _ _ _ _ _ _ _ Hrun) in Htr.
    apply search_request_of_Ok in Htr as [_ ->]. done.
  - done.
  - intros directive Hne. destruct directive as [|c rest]; [done|].
    destruct (Ascii.eqb c "-") eqn:Hc.
    + apply Ascii.eqb_eq in Hc as ->. by destruct (Hne rest).
    + destruct c as [[] [] [] [] [] [] [] []]; done.
  - done.
  - done.
Qed.

(** C9: the sort-directive parsing of the query builder succeeds exactly
    when every directive is a non-empty string: a parameter object whose
    sort list holds the empty string makes the character access raise
    [IndexError], and every parameter object whose directives are all
    non-empty yields a request. *)
Theorem sort_parsing_needs_nonempty_directives :
  (∀ index params nested_objects search_query,
     (∃ request,
        search_request_of index (Some params) nested_objects search_query = Ok request)
     ↔ Forall (λ d, d ≠ "") (sort params))
  ∧ (∀ index page_number page_size nested_objects search_query,
       search_request_of index
         (Some {| page_number := page_number; page_size := page_size; sort := [""] |})
         nested_objects search_query = Raise IndexError)
  ∧ (∀ index params nested_objects search_query,
       "" ∈ sort params →
       search_request_of index (Some params) nested_objects search_query
       = Raise IndexError).
Proof.
  split_and!.
  - intros index params nested_objects search_query. split.
    + intros [request [Hall _]%search_request_of_Ok]. done.
    + intros Hall. eexists. apply search_request_of_Ok. cbv zeta. simpl. done.
  - done.
  - intros index params nested_objects search_query Hin.
    unfold search_request_of, sort_clause. cbv zeta. simpl.
    assert (mapM sort_item (sort params) = Raise IndexError) as ->; [|done].
    induction (sort params) as [|d ds IH]; [by apply elem_of_nil in Hin|].
    destruct d as [|c rest]; [done|].
    apply elem_of_cons in Hin as [[=]|Hin].
    simpl. rewrite sort_item_nonempty by done. simpl. by rewrite IH.
Qed.

(** ** Role derivation *)

Lemma str_in_elem_of (x : string) (names : list string) :
  str_in x names = true ↔ x ∈ names.
Proof.
  unfold str_in. rewrite existsb_exists, list_elem_of_In. split.
  - intros (y & Hin & ->%String.eqb_eq). done.
  - intros Hin. exists x. by rewrite String.eqb_refl.
Qed.

(** The role list that the inner loop leaves in a [PersonFilm]. *)
Lemma add_role_loop (person : Person) (filmwork : Film) :
  foldlM (PersonService.add_role person filmwork)
    {| person_film_id := film_id filmwork; roles := [] |} PERSON_ROLES
  = Ok {| person_film_id := film_id filmwork; roles := derived_roles person filmwork |}.
Proof.
  unfold derived_roles, PERSON_ROLES, PersonService.add_role.
  rewrite !filter_cons, filter_nil. simpl.
  unfold getattr_names, names_of_role; simpl.
  destruct (str_in (full_name person) (actors_names filmwork)); simpl;
    destruct (str_in (full_name person) (directors_names filmwork)); simpl;
    destruct (str_in (full_name person) (writers_names filmwork)); done.
Qed.

Lemma add_role_loop_roles (person : Person) (filmwork : Film) (person_film : PersonFilm) :
  foldlM (PersonService.add_role person filmwork)
    {| person_film_id := film_id filmwork; roles := [] |} PERSON_ROLES = Ok person_film →
  person_film_id person_film = film_id filmwork
  ∧ NoDup (roles person_film)
  ∧ ∀ role, role ∈ roles person_film ↔ listed_as person filmwork role.
Proof.
  rewrite add_role_loop. intros [= <-]. simpl. split_and!; [done| |].
  - unfold derived_roles. apply NoDup_filter.
    unfold PERSON_ROLES.
    repeat (apply NoDup_cons; split; [not_among|]). apply NoDup_nil_2.
  - intros role. unfold derived_roles. rewrite list_elem_of_filter.
    unfold listed_as, PERSON_ROLES. rewrite !elem_of_cons, elem_of_nil.
    rewrite str_in_elem_of. split.
    + intros [Hin [->|[->|[->|[]]]]]; simpl in Hin; auto.
    + intros [[-> Hin]|[[-> Hin]|[-> Hin]]]; simpl; auto.
Qed.

Lemma add_filmwork_step (person : Person) (filmwork : Film) (acc : list PersonFilm) :
  PersonService.add_filmwork person acc filmwork
  = Ok (acc ++ [{| person_film_id := film_id filmwork;
                   roles := derived_roles person filmwork |}]).
Proof. unfold PersonService.add_filmwork. by rewrite add_role_loop. Qed.

Lemma add_filmwork_loop (person : Person) (filmworks : list Film) (acc : list PersonFilm) :
  ∃ derived,
    foldlM (PersonService.add_filmwork person) acc filmworks = Ok (acc ++ derived)
    ∧ Forall2 (λ filmwork person_film,
                 person_film_id person_film = film_id filmwork
                 ∧ NoDup (roles person_film)
                 ∧ ∀ role, role ∈ roles person_film ↔ listed_as person filmwork role)
        filmworks derived.
Proof.
  revert acc. induction filmworks as [|filmwork rest IH]; intros acc.
  - exists []. simpl. rewrite app_nil_r. split; [done | constructor].
  - pose proof (add_role_loop person filmwork) as Hloop.
    pose proof (add_role_loop_roles person filmwork _ Hloop) as Hroles.
    change (foldlM (PersonService.add_filmwork person) acc (filmwork :: rest))
      with (PersonService.add_filmwork person acc filmwork
            ≫= λ acc', foldlM (PersonService.add_filmwork person) acc' rest).
    rewrite add_filmwork_step. simpl.
    destruct (IH (acc ++ [{| person_film_id := film_id filmwork;
                              roles := derived_roles person filmwork |}]))
      as (derived & -> & Hall).
    eexists (_ :: derived). split; [by rewrite <-app_assoc|].
    constructor; done.
Qed.

(** C3: for every person and every list of related films, role derivation
    returns one [PersonFilm] per film, in order and carrying the film's id,
    whose roles are exactly the roles among actor, writer and director under
    which the person's full name is listed in that film (each once); for a
    film with actors_names ["Alice"], no writers and directors_names
    ["Alice"], a person named "Alice" gets the roles actor and director, and
    not writer. *)
Theorem roles_are_name_memberships :
  (∀ (person : Person) (person_filmworks : list Film),
     ∃ person_films,
       PersonService._get_roles_from_filmworks person person_filmworks = Ok person_films
       ∧ Forall2 (λ filmwork person_film,
                    person_film_id person_film = film_id filmwork
                    ∧ NoDup (roles person_film)
                    ∧ ∀ role, role ∈ roles person_film ↔ listed_as person filmwork role)
           person_filmworks person_films)
  ∧ (∀ (person : Person) (filmwork : Film),
       full_name person = "Alice" →
       actors_names filmwork = ["Alice"] →
       writers_names filmwork = [] →
       directors_names filmwork = ["Alice"] →
       ∃ person_film,
         PersonService._get_roles_from_filmworks person [filmwork] = Ok [person_film]
         ∧ person_film_id person_film = film_id filmwork
         ∧ "actor" ∈ roles person_film
         ∧ "director" ∈ roles person_film
         ∧ ("writer" ∉ roles person_film)
         ∧ (∀ role, role ∈ roles person_film ↔ role = "actor" ∨ role = "director")).
Proof.
  split.
  - intros person person_filmworks.
    destruct (add_filmwork_loop person person_filmworks []) as (derived & Hrun & Hall).
    exists derived. done.
  - intros person filmwork Hname Hactors Hwriters Hdirectors.
    unfold PersonService._get_roles_from_filmworks. simpl.
    rewrite add_filmwork_step. simpl.
    eexists. split; [done|]. unfold derived_roles, names_of_role. simpl.
    rewrite Hname, Hactors, Hwriters, Hdirectors.
    match goal with
    | |- context [filter ?P ?l] => change (filter P l) with ["actor"; "director"]
    end.
    split_and!; [done|by left|by right; left|not_among|].
    intros role. rewrite !elem_of_cons, elem_of_nil. intuition.
Qed.

(** ** The cache *)

Lemma RedisCache_get_run {ES} (key : string) (w : world ES) :
  RedisCache.get key w =
  (if redis_up (redis w) then Ok (fst <$> redis_data (redis w) !! key)
   else Raise ConnectionCacheError,
   after w (redis w) (elastic w) [RedisGet key]).
Proof.
  unfold RedisCache.get, try_except, redis_get, emit, effect, raise, after.
  unfold mbind, App_bind. simpl.
  destruct (redis_up (redis w)); done.
Qed.

Lemma RedisCache_put_run {ES} (key value : string) (ttl : Z) (w : world ES) :
  RedisCache.put key value ttl w =
  if redis_up (redis w) then
    (Ok tt, after w {| redis_up := true;
                       redis_data := <[key := (value, ttl)]> (redis_data (redis w)) |}
              (elastic w) [RedisSet key value ttl])
  else (Raise RedisConnectionError, after w (redis w) (elastic w) [RedisSet key value ttl]).
Proof.
  unfold RedisCache.put, redis_set, emit, effect, after.
  unfold mbind, App_bind. simpl.
  destruct (redis_up (redis w)); done.
Qed.

Lemma ElasticSearchService_get_by_id_run `{ElasticClient ES} (index id : string)
    (w : world ES) :
  ElasticSearchService.get_by_id index id w =
  (match (elastic_get (elastic w) index id).1 with
   | Ok hit => Ok (Some (hit_source hit))
   | Raise NotFoundError => Ok None
   | Raise e => Raise e
   end,
   after w (redis w) (elastic_get (elastic w) index id).2 [ElasticGet index id]).
Proof.
  unfold ElasticSearchService.get_by_id, try_except, call_elastic_get, emit, effect, after.
  unfold fmap, App_fmap, mbind, App_bind, mret, App_ret. simpl.
  destruct (elastic_get (elastic w) index id) as [[hit|[]] es']; done.
Qed.

(** C8: what the Redis-backed cache does when the backend cannot be
    reached. [get] raises [ConnectionCacheError] and so never answers
    "absent"; [put] has no handler and lets the client's own
    [redis.exceptions.ConnectionError] through, which is not
    [ConnectionCacheError]. *)
Theorem cache_outage_wrapped_by_get_only {ES} (key value : string) (ttl : Z)
    (w : world ES) :
  redis_up (redis w) = false →
  (RedisCache.get key w).1 = Raise ConnectionCacheError
  ∧ (RedisCache.get key w).1 ≠ Ok None
  ∧ (RedisCache.put key value ttl w).1 = Raise RedisConnectionError
  ∧ (RedisCache.put key value ttl w).1 ≠ Raise ConnectionCacheError.
Proof.
  intros Hdown. rewrite RedisCache_get_run, RedisCache_put_run, Hdown. done.
Qed.

(** An unreachable backend with nothing stored. *)
Lemma cache_outage_wrapped_by_get_only_witness :
  let w : world unit :=
    {| redis := {| redis_up := false; redis_data := ∅ |}; elastic := tt; trace := [] |} in
  (RedisCache.get "movies_f1" w).1 = Raise ConnectionCacheError
  ∧ (RedisCache.get "movies_f1" w).1 ≠ Ok None
  ∧ (RedisCache.put "movies_f1" "{}" 300 w).1 = Raise RedisConnectionError
  ∧ (RedisCache.put "movies_f1" "{}" 300 w).1 ≠ Raise ConnectionCacheError.
Proof.
  intros w. apply (cache_outage_wrapped_by_get_only "movies_f1" "{}" 300 w). reflexivity.
Defined.

(** ** The generic service *)

Section ServiceProperties.
Context {ES item : Type} `{Model item} `{!JsonCodec item}.
Variable entity_name : string.

Lemma _put_to_cache_run (it : item) (w : world ES) :
  redis_up (redis w) = true →
  Service._put_to_cache RedisCache.make entity_name it w =
  (Ok tt,
   after w {| redis_up := true;
              redis_data := <[entity_name +:+ "_" +:+ item_id it
                              := (model_dump_json it, 300%Z)]> (redis_data (redis w)) |}
     (elastic w)
     [RedisSet (entity_name +:+ "_" +:+ item_id it) (model_dump_json it) 300]).
Proof.
  intros Hup. unfold Service._put_to_cache. simpl.
  rewrite RedisCache_put_run, Hup. done.
Qed.

Lemma _get_from_cache_run (requested : string) (w : world ES) :
  redis_up (redis w) = true →
  Service._get_from_cache RedisCache.make entity_name requested w =
  (match redis_data (redis w) !! (entity_name +:+ "_" +:+ requested) with
   | None | Some (EmptyString, _) => Ok None
   | Some (data, _) =>
       match model_validate_json data with
       | Some it => Ok (Some it)
       | None => Raise ValidationError
       end
   end,
   after w (redis w) (elastic w) [RedisGet (entity_name +:+ "_" +:+ requested)]).
Proof.
  intros Hup. unfold Service._get_from_cache. simpl.
  unfold mbind, App_bind. rewrite RedisCache_get_run, Hup.
  destruct (redis_data (redis w) !! _) as [[[|c data] ttl]|]; simpl; try done.
  unfold fmap, App_fmap, validated, mbind, App_bind, raise.
  destruct (model_validate_json _); done.
Qed.

(** The cache-write followed by the cache-read of the same entity: the
    text is stored under the key [entity_name_id], and the read gives what
    the model makes of that text, nothing when the text is empty. *)
Lemma _put_then_get_run (E : item) (w : world ES) :
  redis_up (redis w) = true →
  let key := entity_name +:+ "_" +:+ item_id E in
  let text := model_dump_json E in
  ∃ w1 w2,
    Service._put_to_cache RedisCache.make entity_name E w = (Ok tt, w1)
    ∧ redis_data (redis w1) !! key = Some (text, 300%Z)
    ∧ trace w1 = trace w ++ [RedisSet key text 300]
    ∧ Service._get_from_cache RedisCache.make entity_name (item_id E) w1
      = (match text with
         | EmptyString => Ok None
         | _ =>
             match model_validate_json text with
             | Some E' => Ok (Some E')
             | None => Raise ValidationError
             end
         end, w2)
    ∧ trace w2 = trace w1 ++ [RedisGet key].
Proof.
  intros Hup key text.
  rewrite _put_to_cache_run by done. fold key text.
  set (w1 := after w _ _ _).
  exists w1, (after w1 (redis w1) (elastic w1) [RedisGet key]).
  split; [reflexivity|]. split; [apply lookup_insert_eq|].
  split; [reflexivity|]. split; [|reflexivity].
  rewrite _get_from_cache_run by done. fold key. f_equal.
  change (redis_data (redis w1)) with (<[key := (text, 300%Z)]> (redis_data (redis w))).
  rewrite lookup_insert_eq. unfold text. by destruct (model_dump_json E).
Qed.

Lemma round_trips_when_text_reads_back (E : item) (w : world ES) :
  redis_up (redis w) = true →
  model_dump_json E ≠ "" →
  model_validate_json (model_dump_json E) = Some E →
  round_trips entity_name E w.
Proof.
  intros Hup Htext Hread.
  destruct (_put_then_get_run E w Hup) as (w1 & w2 & Hput & Hstored & Hset & Hget & Hgot).
  exists w1, w2. split_and!; try done.
  rewrite Hget, Hread. by destruct (model_dump_json E).
Qed.

Lemma after_after (w : world ES) r1 e1 evs1 r2 e2 evs2 :
  after (after w r1 e1 evs1) r2 e2 evs2 = after w r2 e2 (evs1 ++ evs2).
Proof. unfold after. simpl. by rewrite app_assoc. Qed.

Lemma hydrated_nonempty (d : document) (e : item) : model_init d = Some e → d ≠ [].
Proof. intros Hd%model_init_id ->. done. Qed.

Context `{!ElasticClient ES}.
Variable index : string.

(** C5: [get_by_id] is a cache-aside read-through. With the cache backend
    reachable: on a hit it returns the entity read from the cached text and
    makes no engine call; on a miss it asks the engine for the id, and when
    a document is found and hydrates it writes the entity's JSON text under
    the entity's key with a TTL of 300 seconds and returns the entity; when
    the engine reports not-found it returns absent, raises nothing and
    writes nothing to the cache. *)
Theorem get_by_id_is_cache_aside (requested : string) (w : world ES) :
  redis_up (redis w) = true →
  let key := entity_name +:+ "_" +:+ requested in
  let get_by_id :=
    Service.get_by_id RedisCache.make (ElasticSearchService.make index) entity_name in
  let answer := elastic_get (elastic w) index requested in
  CACHE_EXPIRE_IN_SECONDS = 300%Z
  ∧ (∀ data ttl e,
       redis_data (redis w) !! key = Some (data, ttl) →
       data ≠ "" →
       model_validate_json data = Some e →
       get_by_id requested w
       = (Ok (Some e), after w (redis w) (elastic w) [RedisGet key]))
  ∧ (∀ hit e,
       cache_miss w key →
       answer.1 = Ok hit →
       model_init (hit_source hit) = Some e →
       let key' := entity_name +:+ "_" +:+ item_id e in
       get_by_id requested w
       = (Ok (Some e),
          after w {| redis_up := true;
                     redis_data := <[key' := (model_dump_json e, 300%Z)]>
                                     (redis_data (redis w)) |}
            answer.2
            [RedisGet key; ElasticGet index requested;
             RedisSet key' (model_dump_json e) 300]))
  ∧ (cache_miss w key →
     answer.1 = Raise NotFoundError →
     get_by_id requested w
     = (Ok None, after w (redis w) answer.2 [RedisGet key; ElasticGet index requested])).
Proof.
  intros Hup key get_by_id answer. subst get_by_id.
  assert (∀ data ttl, redis_data (redis w) !! key = Some (data, ttl) → data ≠ "" →
          cache_miss w key → False) as Hhit_not_miss.
  { intros data ttl Hkey Hne. unfold cache_miss. by rewrite Hkey. }
  assert (cache_miss w key →
          Service._get_from_cache RedisCache.make entity_name requested w
          = (Ok None, after w (redis w) (elastic w) [RedisGet key])) as Hmiss.
  { intros Hm. rewrite _get_from_cache_run by done. unfold cache_miss in Hm.
    fold key. destruct (redis_data (redis w) !! key) as [[data ttl]|]; [|done].
    by rewrite Hm. }
  split_and!; [done| | |].
  - intros data ttl e Hkey Hne Hread.
    unfold Service.get_by_id, mbind, App_bind.
    rewrite _get_from_cache_run by done. fold key. rewrite Hkey.
    destruct data as [|c data]; [done|]. by rewrite Hread.
  - intros hit e Hm Hfound Hhydrate key'.
    unfold Service.get_by_id, mbind, App_bind. rewrite (Hmiss Hm). simpl.
    rewrite ElasticSearchService_get_by_id_run. simpl. fold answer. rewrite Hfound.
    pose proof (hydrated_nonempty _ _ Hhydrate) as Hne.
    destruct (hit_source hit) as [|entry d] eqn:Hsource; [done|].
    rewrite Hhydrate. simpl. rewrite after_after.
    rewrite RedisCache_put_run. simpl. rewrite Hup. by rewrite after_after.
  - intros Hm Habsent.
    unfold Service.get_by_id, mbind, App_bind. rewrite (Hmiss Hm). simpl.
    rewrite ElasticSearchService_get_by_id_run. simpl. fold answer. rewrite Habsent.
    by rewrite after_after.
Qed.
(** C10: [get_by_text_field] sends the engine the same search twice (one
    search field, the query text, default paging and sorting), ignores the
    first response, and returns the entity validated from the first
    document of the second response, or absent when that response is
    empty. *)
Theorem get_by_text_field_searches_twice (search_field search_text : string)
    (w : world ES) (first_response second_response : list es_hit) :
  let request :=
    {| es_index := index; es_size := 10; es_from := 0;
       es_query := {| must := match search_text with
                              | EmptyString => []
                              | _ => [Match search_field search_text "auto"]
                              end;
                      should := [] |};
       es_sort := [("_score", "desc")] |} in
  let first_answer := elastic_search (elastic w) request in
  let second_answer := elastic_search first_answer.2 request in
  first_answer.1 = Ok first_response →
  second_answer.1 = Ok second_response →
  Service.get_by_text_field (ElasticSearchService.make index) search_field search_text w
  = (match second_response with
     | [] => Ok None
     | hit :: _ =>
         match model_validate (hit_source hit) with
         | Some e => Ok (Some e)
         | None => Raise ValidationError
         end
     end,
     after w (redis w) second_answer.2 [ElasticSearch request; ElasticSearch request]).
Proof.
  intros request first_answer second_answer Hfirst Hsecond.
  assert (search_request_of index None None (text_predicate (Some search_text) [search_field])
          = Ok request) as Hrequest.
  { subst request. by destruct search_text. }
  unfold Service.get_by_text_field, mbind, App_bind. simpl.
  unfold ElasticSearchService.text_search. cbv zeta.
  rewrite _search_run, Hrequest. cbv zeta. fold first_answer. rewrite Hfirst.
  rewrite _search_run, Hrequest. cbv zeta. simpl. fold first_answer second_answer.
  rewrite Hsecond. unfold after. simpl. rewrite <-app_assoc. simpl.
  destruct second_response as [|hit rest]; [done|]. simpl.
  unfold fmap, App_fmap, validated, mbind, App_bind, raise.
  destruct (model_validate (hit_source hit)); done.
Qed.

(** The base [get_by_id] has no handler around the constructor call: a
    document that does not validate makes it raise, with nothing logged and
    nothing cached. *)
Lemma get_by_id_lets_validation_error_through (requested : string) (w : world ES)
    (hit : es_hit) :
  redis_up (redis w) = true →
  cache_miss w (entity_name +:+ "_" +:+ requested) →
  (elastic_get (elastic w) index requested).1 = Ok hit →
  hit_source hit ≠ [] →
  model_init (hit_source hit) = None →
  Service.get_by_id RedisCache.make (ElasticSearchService.make index) entity_name
    requested w
  = (Raise ValidationError,
     after w (redis w) (elastic_get (elastic w) index requested).2
       [RedisGet (entity_name +:+ "_" +:+ requested); ElasticGet index requested]).
Proof.
  intros Hup Hmiss Hfound Hne Hinvalid.
  unfold Service.get_by_id, mbind, App_bind.
  rewrite _get_from_cache_run by done. unfold cache_miss in Hmiss.
  assert (match redis_data (redis w) !! (entity_name +:+ "_" +:+ requested) with
          | None | Some (EmptyString, _) => Ok None
          | Some (data, _) =>
              match model_validate_json data with
              | Some it => Ok (Some it)
              | None => Raise ValidationError
              end
          end = Ok None) as ->.
  { destruct (redis_data (redis w) !! _) as [[data ttl]|]; [by rewrite Hmiss|done]. }
  simpl. rewrite ElasticSearchService_get_by_id_run. simpl. rewrite Hfound.
  destruct (hit_source hit) as [|entry d] eqn:Hsource; [done|].
  rewrite Hinvalid. simpl. by rewrite after_after.
Qed.
End ServiceProperties.

(** ** The entity services *)

Lemma App_bind_run {ES A B} (m : App ES A) (f : A → App ES B) (w : world ES) :
  (m ≫= f) w
  = match m w with
    | (Ok a, w') => f a w'
    | (Raise e, w') => (Raise e, w')
    end.
Proof. done. Qed.

Lemma App_ret_run {ES A} (a : A) (w : world ES) : (mret a : App ES A) w = (Ok a, w).
Proof. done. Qed.

(** A list comprehension of constructor calls: it changes nothing, and
    raises as soon as one document does not validate. *)
Lemma hydrate_all_run {ES A B} (f : A → option B) (l : list A) (w : world ES) :
  mapM (λ x, validated (f x)) l w
  = (match mapM f l with
     | Some k => Ok k
     | None => Raise ValidationError
     end, w).
Proof.
  induction l as [|x l IH]; [done|].
  cbn [mapM]. rewrite App_bind_run.
  destruct (f x) as [y|] eqn:Hx; simpl; [|done].
  rewrite App_bind_run, IH. destruct (mapM f l); done.
Qed.

Section EntityServiceProperties.
Context `{ElasticClient ES}.
Variable index : string.

Lemma FilmService_search_run `{!Model Film} (text : string)
    (query_params : CommonQueryParams) (w : world ES) (request : search_request)
    (response : list es_hit) :
  search_request_of index (Some query_params) None
    (text_predicate (Some text)
       ["title^3"; "description"; "actors_names"; "writers_names"; "directors_names"])
  = Ok request →
  (elastic_search (elastic w) request).1 = Ok response →
  FilmService.search (ElasticSearchService.make index) text query_params w
  = (match mapM model_init (hit_source <$> response) with
     | Some films => Ok films
     | None => Raise ValidationError
     end,
     after w (redis w) (elastic_search (elastic w) request).2 [ElasticSearch request]).
Proof.
  intros Hrequest Hresponse.
  unfold FilmService.search. cbv zeta. rewrite App_bind_run.
  cbn [AbstractSearchService.text_search ElasticSearchService.make].
  unfold ElasticSearchService.text_search. cbv zeta.
  rewrite _search_run, Hrequest. cbv zeta. rewrite Hresponse.
  by rewrite hydrate_all_run.
Qed.

Lemma GenreService_get_by_id_logs_validation_error `{!Model Genre} `{!JsonCodec Genre}
    (requested : string) (w : world ES) (hit : es_hit) :
  redis_up (redis w) = true →
  cache_miss w ("genres_" +:+ requested) →
  (elastic_get (elastic w) index requested).1 = Ok hit →
  hit_source hit ≠ [] →
  model_init (hit_source hit) = None →
  GenreService.get_by_id RedisCache.make (ElasticSearchService.make index) requested w
  = (Ok None,
     after w (redis w) (elastic_get (elastic w) index requested).2
       [RedisGet ("genres_" +:+ requested); ElasticGet index requested;
        LogError "Error while validating " (Some (hit_source hit))]).
Proof.
  intros Hup Hmiss Hfound Hne Hinvalid.
  unfold GenreService.get_by_id, mbind, App_bind.
  rewrite (_get_from_cache_run "genres") by done. unfold cache_miss in Hmiss.
  change ("genres" +:+ "_" +:+ requested) with ("genres_" +:+ requested).
  assert (match redis_data (redis w) !! ("genres_" +:+ requested) with
          | None | Some (EmptyString, _) => Ok None
          | Some (data, _) =>
              match model_validate_json data with
              | Some it => Ok (Some it)
              | None => Raise ValidationError
              end
          end = Ok None) as ->.
  { destruct (redis_data (redis w) !! _) as [[data ttl]|]; [by rewrite Hmiss|done]. }
  unfold try_except at 1. simpl. rewrite ElasticSearchService_get_by_id_run. simpl.
  rewrite Hfound. unfold try_except.
  destruct (hit_source hit) as [|entry d] eqn:Hsource; [done|].
  unfold mbind, App_bind. rewrite Hinvalid. simpl.
  unfold after. simpl. by rewrite <-!app_assoc.
Qed.

Lemma PersonService_get_by_id_lets_validation_error_through
    `{!Model Person} `{!JsonCodec Person} `{!Model Film}
    (film_search_service : AbstractSearchService.t ES)
    (requested : string) (w : world ES) (hit : es_hit) :
  redis_up (redis w) = true →
  cache_miss w ("persons_" +:+ requested) →
  (elastic_get (elastic w) index requested).1 = Ok hit →
  hit_source hit ≠ [] →
  model_init (hit_source hit) = None →
  PersonService.get_by_id RedisCache.make (ElasticSearchService.make index)
    film_search_service requested w
  = (Raise ValidationError,
     after w (redis w) (elastic_get (elastic w) index requested).2
       [RedisGet ("persons_" +:+ requested); ElasticGet index requested]).
Proof.
  intros Hup Hmiss Hfound Hne Hinvalid.
  unfold PersonService.get_by_id, mbind, App_bind.
  rewrite (_get_from_cache_run "persons") by done. unfold cache_miss in Hmiss.
  change ("persons" +:+ "_" +:+ requested) with ("persons_" +:+ requested).
  assert (match redis_data (redis w) !! ("persons_" +:+ requested) with
          | None | Some (EmptyString, _) => Ok None
          | Some (data, _) =>
              match model_validate_json data with
              | Some it => Ok (Some it)
              | None => Raise ValidationError
              end
          end = Ok None) as ->.
  { destruct (redis_data (redis w) !! _) as [[data ttl]|]; [by rewrite Hmiss|done]. }
  simpl. rewrite ElasticSearchService_get_by_id_run. simpl. rewrite Hfound.
  destruct (hit_source hit) as [|entry d] eqn:Hsource; [done|].
  rewrite Hinvalid. simpl. unfold after. simpl. by rewrite <-!app_assoc.
Qed.
End EntityServiceProperties.

(** ** Nested filters against the reference engine *)

Lemma strip_prefix_dotted (path field : string) :
  ReferenceEngine.strip_prefix (path +:+ ".") (path +:+ "." +:+ field) = Some field.
Proof.
  induction path as [|c path IH]; simpl; [done|].
  by rewrite Ascii.eqb_refl.
Qed.

Lemma nested_matches_clause (nested_object : NestedObjectQuery) (d : document) :
  ReferenceEngine.nested_matches (nested_clause nested_object) d
  = match dict_get (name nested_object) d with
    | Some (JList items) =>
        existsb (ReferenceEngine.holds_term (filter_field nested_object)
                   (term_value nested_object)) items
    | _ => false
    end.
Proof.
  unfold ReferenceEngine.nested_matches, nested_clause.
  cbn [nested_path nested_term_field nested_term_value name filter_field term_value].
  by rewrite strip_prefix_dotted.
Qed.

Lemma holds_id_person_ids (path person_id : string) (d : document) :
  ReferenceEngine.nested_matches
    (nested_clause {| name := path; filter_field := "id"; term_value := person_id |}) d
  = true
  ↔ person_id ∈ person_ids path d.
Proof.
  rewrite nested_matches_clause. unfold person_ids. simpl.
  destruct (dict_get path d) as [[| | | | |items|]|];
    try (split; [done | by intros ?%elem_of_nil]).
  rewrite existsb_exists, list_elem_of_omap. split.
  - intros (item & Hin%list_elem_of_In & Hholds). exists item. split; [done|].
    destruct item as [| | | | | |entries]; try done. simpl in Hholds.
    destruct (dict_get "id" entries) as [[]|]; try done.
    by apply String.eqb_eq in Hholds as ->.
  - intros (item & Hin%list_elem_of_In & Hid). exists item. split; [done|].
    destruct item as [| | | | | |entries]; try done. simpl.
    destruct (dict_get "id" entries) as [[]|]; try done.
    injection Hid as ->. apply String.eqb_refl.
Qed.

Lemma person_nested_objects_query (person_id : string) :
  build_query (Some (FilmService.person_nested_objects person_id)) None
  = person_films_query person_id.
Proof. done. Qed.

Lemma existsb_fmap {A B} (f : B → bool) (g : A → B) (l : list A) :
  existsb f (g <$> l) = existsb (λ x, f (g x)) l.
Proof.
  induction l as [|x l IH]; [done|].
  change (g <$> x :: l) with (g x :: (g <$> l)). cbn [existsb]. by rewrite IH.
Qed.

Section ReferenceEngineProperties.
Variable text_matches : text_query → document → bool.
Variable rank : search_request → list es_hit → list es_hit.

#[local] Instance reference_client : ElasticClient ReferenceEngine.state :=
  ReferenceEngine.client text_matches rank.

(** Without a text predicate, a document matches the built query exactly
    when it satisfies one of the nested filters. *)
Lemma nested_filters_are_or_combined (nested_objects : list NestedObjectQuery)
    (d : document) :
  nested_objects ≠ [] →
  ReferenceEngine.bool_matches text_matches (build_query (Some nested_objects) None) d
  = existsb (λ n, ReferenceEngine.nested_matches (nested_clause n) d) nested_objects.
Proof.
  intros Hne. unfold ReferenceEngine.bool_matches, build_query.
  cbn [must should default forallb andb].
  destruct nested_objects as [|n rest]; [done|].
  change (nested_clause <$> n :: rest)
    with (nested_clause n :: (nested_clause <$> rest)).
  cbn [existsb]. by rewrite existsb_fmap.
Qed.

(** Next to a text predicate the engine takes the should clauses as
    optional: they no longer restrict the result. Neither [get_list] nor
    [text_search] hands [_search] both. *)
Lemma nested_filters_optional_next_to_text_predicate
    (nested_objects : list NestedObjectQuery) (q : text_query) (d : document) :
  ReferenceEngine.bool_matches text_matches
    (build_query (Some nested_objects) (Some q)) d
  = text_matches q d.
Proof.
  unfold ReferenceEngine.bool_matches, build_query. simpl.
  by rewrite !andb_true_r.
Qed.

Lemma person_films_query_matches (person_id : string) (d : document) :
  ReferenceEngine.bool_matches text_matches (person_films_query person_id) d = true
  ↔ credited person_id d.
Proof.
  rewrite <-person_nested_objects_query.
  rewrite nested_filters_are_or_combined by done.
  unfold FilmService.person_nested_objects, PERSON_ROLES, credited. simpl.
  rewrite orb_false_r, !orb_true_iff, !holds_id_person_ids. intuition.
Qed.

Lemma matching_person_films (person_id : string) (docs : list es_hit) :
  ReferenceEngine.matching text_matches (person_films_query person_id) docs
  = filter (λ h, credited person_id (hit_source h)) docs.
Proof.
  unfold ReferenceEngine.matching. apply list_filter_iff.
  intros h. apply person_films_query_matches.
Qed.

Lemma get_list_run (index : string) (params : CommonQueryParams)
    (nested_objects : list NestedObjectQuery) (w : world ReferenceEngine.state)
    (docs : list es_hit) :
  ReferenceEngine.cluster_up (elastic w) = true →
  ReferenceEngine.indices (elastic w) !! index = Some docs →
  Forall (λ directive, directive ≠ "") (sort params) →
  let request :=
    {| es_index := index; es_size := page_size params; es_from := from_ params;
       es_query := build_query (Some nested_objects) None;
       es_sort := (directive_field_order <$> sort params) ++ [("_score", "desc")] |} in
  ElasticSearchService.get_list index (Some params) (Some nested_objects) w
  = (Ok (hit_source <$>
           ReferenceEngine.page request
             (rank request
                (ReferenceEngine.matching text_matches (es_query request) docs))),
     after w (redis w) (elastic w) [ElasticSearch request]).
Proof.
  intros Hup Hindex Hsort request.
  unfold ElasticSearchService.get_list. rewrite _search_run.
  assert (search_request_of index (Some params) (Some nested_objects) None = Ok request)
    as -> by (by apply search_request_of_Ok).
  cbv zeta. simpl. unfold ReferenceEngine.search. simpl. rewrite Hup, Hindex. done.
Qed.
Lemma page_sublist (request : search_request) (hits : list es_hit) :
  ReferenceEngine.page request hits `sublist_of` hits.
Proof.
  unfold ReferenceEngine.page.
  etrans; [apply sublist_take | apply sublist_drop].
Qed.

(** C2 (as amended): the list operation builds a query whose should list
    holds one nested term filter per nested object and whose must list is
    empty (it passes no text predicate), so a document matches exactly when
    it satisfies every text predicate and at least one nested filter. For
    [get_person_films] the filters are those on actors.id, directors.id and
    writers.id, and the films returned are the page that the parameters
    select (at most [page_size] hits from the offset) of the films in which
    the person appears under one of the three paths, each film at most
    once; the whole union, each film exactly once, is returned when it fits
    in the first page. *)
Theorem list_by_person_returns_page_of_union `{!Model Film} (index person_id' : string)
    (params : CommonQueryParams) (w : world ReferenceEngine.state) (docs : list es_hit) :
  (∀ request hits, rank request hits ≡ₚ hits) →
  ReferenceEngine.cluster_up (elastic w) = true →
  ReferenceEngine.indices (elastic w) !! index = Some docs →
  NoDup docs →
  Forall (λ directive, directive ≠ "") (sort params) →
  let nested_objects := FilmService.person_nested_objects person_id' in
  let request :=
    {| es_index := index; es_size := page_size params; es_from := from_ params;
       es_query := person_films_query person_id';
       es_sort := (directive_field_order <$> sort params) ++ [("_score", "desc")] |} in
  let union := filter (λ h, credited person_id' (hit_source h)) docs in
  let hits := ReferenceEngine.page request (rank request union) in
  (∀ nested_objects' d,
     nested_objects' ≠ [] →
     let query := build_query (Some nested_objects') None in
     must query = []
     ∧ should query = nested_clause <$> nested_objects'
     ∧ ReferenceEngine.bool_matches text_matches query d
       = forallb (λ t, text_matches t d) (must query)
         && existsb (λ n, ReferenceEngine.nested_matches (nested_clause n) d)
              nested_objects')
  ∧ search_request_of index (Some params) (Some nested_objects) None = Ok request
  ∧ (∀ d, ReferenceEngine.bool_matches text_matches (es_query request) d = true
          ↔ credited person_id' d)
  ∧ ElasticSearchService.get_list index (Some params) (Some nested_objects) w
    = (Ok (hit_source <$> hits), after w (redis w) (elastic w) [ElasticSearch request])
  ∧ FilmService.get_person_films (ElasticSearchService.make index) person_id' params w
    = (match mapM model_init (hit_source <$> hits) with
       | Some films => Ok films
       | None => Raise ValidationError
       end,
       after w (redis w) (elastic w) [ElasticSearch request])
  ∧ NoDup hits
  ∧ (∀ h, h ∈ hits → h ∈ docs ∧ credited person_id' (hit_source h))
  ∧ length hits ≤ Z.to_nat (page_size params)
  ∧ (from_ params = 0%Z → length union ≤ Z.to_nat (page_size params) → hits ≡ₚ union).
Proof.
  intros Hrank Hup Hindex Hdocs Hsort nested_objects request union hits.
  assert (ElasticSearchService.get_list index (Some params) (Some nested_objects) w
          = (Ok (hit_source <$> hits),
             after w (redis w) (elastic w) [ElasticSearch request])) as Hlist.
  { rewrite (get_list_run index params nested_objects w docs) by done.
    subst hits union request nested_objects. cbv zeta.
    rewrite person_nested_objects_query. cbn [es_query].
    by rewrite matching_person_films. }
  split_and!.
  - intros nested_objects' d Hne query. split_and!; [done..|].
    by apply nested_filters_are_or_combined.
  - by apply search_request_of_Ok.
  - intros d. apply person_films_query_matches.
  - done.
  - unfold FilmService.get_person_films. cbv zeta. rewrite App_bind_run.
    cbn [AbstractSearchService.get_list ElasticSearchService.make].
    fold nested_objects. rewrite Hlist. by rewrite hydrate_all_run.
  - apply (sublist_NoDup _ (rank request union)); [|apply page_sublist].
    rewrite Hrank. by apply NoDup_filter.
  - intros h Hh. eapply elem_of_sublist in Hh; [|apply page_sublist].
    rewrite Hrank in Hh. apply list_elem_of_filter in Hh as [? ?]. done.
  - unfold hits, ReferenceEngine.page. rewrite length_take. simpl. lia.
  - intros Hfrom Hfit. unfold hits, ReferenceEngine.page. simpl.
    rewrite Hfrom. simpl. rewrite drop_0, take_ge; [apply Hrank|].
    by rewrite Hrank.
Qed.
End ReferenceEngineProperties.

(** ** Documents that do not validate *)

(** C4: what the services do with an engine document that does not
    validate. The base [get_by_id] (used for films) and the film search
    have no handler: [ValidationError] reaches the caller, nothing is
    logged, no item is returned. [GenreService.get_by_id] does catch it:
    it logs the document and answers absent. [PersonService.get_by_id] has
    a handler with the same log message, but the constructor call stands
    before its [try], so the error gets through as well. *)
Theorem validation_error_is_handled_by_genre_lookup_only :
  (∀ ES (client : ElasticClient ES) item (has_id : HasId item) (model : Model item)
     (codec : JsonCodec item) entity_name index requested (w : world ES) hit,
     redis_up (redis w) = true →
     cache_miss w (entity_name +:+ "_" +:+ requested) →
     (elastic_get (elastic w) index requested).1 = Ok hit →
     hit_source hit ≠ [] →
     model_init (hit_source hit) = None →
     Service.get_by_id RedisCache.make (ElasticSearchService.make index) entity_name
       requested w
     = (Raise ValidationError,
        after w (redis w) (elastic_get (elastic w) index requested).2
          [RedisGet (entity_name +:+ "_" +:+ requested); ElasticGet index requested]))
  ∧ (∀ ES (client : ElasticClient ES) (model : Model Film) index text query_params
       (w : world ES) request response hit,
       search_request_of index (Some query_params) None
         (text_predicate (Some text)
            ["title^3"; "description"; "actors_names"; "writers_names";
             "directors_names"])
       = Ok request →
       (elastic_search (elastic w) request).1 = Ok response →
       hit ∈ response →
       model_init (hit_source hit) = None →
       FilmService.search (ElasticSearchService.make index) text query_params w
       = (Raise ValidationError,
          after w (redis w) (elastic_search (elastic w) request).2
            [ElasticSearch request]))
  ∧ (∀ ES (client : ElasticClient ES) (model : Model Genre) (codec : JsonCodec Genre)
       index requested (w : world ES) hit,
       redis_up (redis w) = true →
       cache_miss w ("genres_" +:+ requested) →
       (elastic_get (elastic w) index requested).1 = Ok hit →
       hit_source hit ≠ [] →
       model_init (hit_source hit) = None →
       GenreService.get_by_id RedisCache.make (ElasticSearchService.make index)
         requested w
       = (Ok None,
          after w (redis w) (elastic_get (elastic w) index requested).2
            [RedisGet ("genres_" +:+ requested); ElasticGet index requested;
             LogError "Error while validating " (Some (hit_source hit))]))
  ∧ (∀ ES (client : ElasticClient ES) (person_model : Model Person)
       (codec : JsonCodec Person) (film_model : Model Film) index film_search_service
       requested (w : world ES) hit,
       redis_up (redis w) = true →
       cache_miss w ("persons_" +:+ requested) →
       (elastic_get (elastic w) index requested).1 = Ok hit →
       hit_source hit ≠ [] →
       model_init (hit_source hit) = None →
       PersonService.get_by_id RedisCache.make (ElasticSearchService.make index)
         film_search_service requested w
       = (Raise ValidationError,
          after w (redis w) (elastic_get (elastic w) index requested).2
            [RedisGet ("persons_" +:+ requested); ElasticGet index requested])).
Proof.
  split_and!.
  - intros. by eapply get_by_id_lets_validation_error_through.
  - intros ES client model index text query_params w request response hit
      Hrequest Hresponse Hin Hinvalid.
    rewrite (FilmService_search_run index text query_params w request response)
      by done.
    rewrite (mapM_None_2 model_init (hit_source <$> response)); [done|].
    apply Exists_exists. exists (hit_source hit).
    split; [by apply list_elem_of_fmap_2 | done].
  - intros. by eapply GenreService_get_by_id_logs_validation_error.
  - intros. by eapply PersonService_get_by_id_lets_validation_error_through.
Qed.

(** ** The JSON texts of the entities read back *)

Section TextsReadBack.
Import Catalogue.

Lemma string_append_assoc (a b c : string) : (a +:+ b) +:+ c = a +:+ (b +:+ c).
Proof.
  induction a as [|x a IH]; [done|].
  change (String x ((a +:+ b) +:+ c) = String x (a +:+ (b +:+ c))). by rewrite IH.
Qed.

Lemma string_append_empty (a : string) : a +:+ "" = a.
Proof.
  induction a as [|x a IH]; [done|].
  change (String x (a +:+ "") = String x a). by rewrite IH.
Qed.

Lemma string_length_append (a b : string) :
  String.length (a +:+ b) = String.length a + String.length b.
Proof.
  induction a as [|x a IH]; [done|].
  change (S (String.length (a +:+ b)) = S (String.length a + String.length b)).
  by rewrite IH.
Qed.

Lemma json_str_app (s rest : string) :
  json_str s +:+ rest = String quote (escape s +:+ String quote rest).
Proof.
  unfold json_str.
  change (String quote ((escape s +:+ String quote EmptyString) +:+ rest)
          = String quote (escape s +:+ String quote rest)).
  by rewrite string_append_assoc.
Qed.

Lemma read_str_escape_char (c : ascii) (rest : string) :
  read_str (escape_char c +:+ rest)
  = '(body, tail) ← read_str rest; Some (String c body, tail).
Proof. destruct c as [[] [] [] [] [] [] [] []]; reflexivity. Qed.

Lemma read_str_escape (s rest : string) :
  read_str (escape s +:+ String quote rest) = Some (s, rest).
Proof.
  induction s as [|c s IH]; [done|].
  cbn [escape]. rewrite string_append_assoc, read_str_escape_char, IH. done.
Qed.

Lemma reads_as_str (s : string) : reads_as (json_str s) (JStr s).
Proof.
  intros [|fuel] rest Hfuel; [by apply Nat.nle_succ_0 in Hfuel|].
  rewrite json_str_app. cbn [read_json skip_ws].
  change (is_space quote) with false. cbv beta iota.
  change (Ascii.eqb quote quote) with true. cbv beta iota.
  rewrite read_str_escape. done.
Qed.

Lemma reads_as_null : reads_as "null" JNull.
Proof. intros [|fuel] rest Hfuel; [by apply Nat.nle_succ_0 in Hfuel | done]. Qed.

Lemma reads_as_optional_str (o : option string) :
  reads_as (json_optional_str o) (match o with Some s => JStr s | None => JNull end).
Proof. destruct o as [s|]; [apply reads_as_str | apply reads_as_null]. Qed.

Lemma reads_fields_as_last (key value : string) (v : json) :
  reads_as value v →
  reads_fields_as (json_str key +:+ ":" +:+ value +:+ "}") [(key, v)].
Proof.
  intros Hvalue [|fuel] rest Hfuel; [by apply Nat.nle_succ_0 in Hfuel|].
  rewrite !string_length_append in Hfuel. change (String.length ":") with 1 in Hfuel.
  rewrite !string_append_assoc, json_str_app.
  cbn [read_fields skip_ws].
  change (is_space quote) with false. cbv beta iota.
  change (Ascii.eqb quote quote) with true. cbv beta iota.
  rewrite read_str_escape. cbn [mbind option_bind].
  change (skip_ws (":" +:+ value +:+ "}" +:+ rest)) with (String ":" (value +:+ "}" +:+ rest)).
  cbv beta iota.
  rewrite Hvalue by lia.
  done.
Qed.

Lemma reads_fields_as_member (key value more : string) (v : json)
    (members : list (string * json)) :
  reads_as value v →
  reads_fields_as more members →
  reads_fields_as (json_str key +:+ ":" +:+ value +:+ "," +:+ more) ((key, v) :: members).
Proof.
  intros Hvalue Hmore [|fuel] rest Hfuel; [by apply Nat.nle_succ_0 in Hfuel|].
  rewrite !string_length_append in Hfuel.
  change (String.length ":") with 1 in Hfuel. change (String.length ",") with 1 in Hfuel.
  rewrite !string_append_assoc, json_str_app.
  cbn [read_fields skip_ws].
  change (is_space quote) with false. cbv beta iota.
  change (Ascii.eqb quote quote) with true. cbv beta iota.
  rewrite read_str_escape. cbn [mbind option_bind].
  change (skip_ws (":" +:+ value +:+ "," +:+ more +:+ rest))
    with (String ":" (value +:+ "," +:+ more +:+ rest)).
  cbv beta iota.
  rewrite Hvalue by lia.
  cbn [mbind option_bind].
  change (skip_ws ("," +:+ more +:+ rest)) with (String "," (more +:+ rest)).
  cbv beta iota.
  rewrite Hmore by lia.
  done.
Qed.

Lemma reads_as_object (key more : string) (members : list (string * json)) :
  reads_fields_as (json_str key +:+ more) members →
  reads_as ("{" +:+ json_str key +:+ more) (JDict members).
Proof.
  intros Hmembers [|fuel] rest Hfuel; [by apply Nat.nle_succ_0 in Hfuel|].
  change (String.length ("{" +:+ json_str key +:+ more))
    with (S (String.length (json_str key +:+ more))) in Hfuel.
  specialize (Hmembers fuel rest ltac:(lia)).
  rewrite string_append_assoc, json_str_app in Hmembers.
  change (("{" +:+ json_str key +:+ more) +:+ rest)
    with (String "{" ((json_str key +:+ more) +:+ rest)).
  rewrite string_append_assoc, json_str_app.
  change (read_json (S fuel) (String "{" (String quote ?s)))
    with ('(members, tail) ← read_fields fuel (String quote s); Some (JDict members, tail)).
  by rewrite Hmembers.
Qed.

Lemma string_concat_cons (sep a b : string) (l : list string) :
  String.concat sep (a :: b :: l) = a +:+ sep +:+ String.concat sep (b :: l).
Proof. done. Qed.

Lemma read_items_texts {A} (dump : A → string) (value : A → json) (l : list A) :
  (∀ x, reads_as (dump x) (value x)) →
  l ≠ [] →
  ∀ fuel rest,
    String.length (String.concat "," (dump <$> l)) < fuel →
    read_items fuel (String.concat "," (dump <$> l) +:+ "]" +:+ rest)
    = Some (value <$> l, rest).
Proof.
  intros Hreads. induction l as [|x [|y l] IH]; [done| |]; intros _ [|fuel] rest Hfuel;
    try (by apply Nat.nlt_0_r in Hfuel).
  - change (String.concat "," (dump <$> [x])) with (dump x) in *.
    cbn [read_items]. rewrite Hreads by lia. cbn [mbind option_bind].
    done.
  - rewrite !fmap_cons, string_concat_cons in Hfuel. rewrite !fmap_cons, string_concat_cons.
    rewrite !string_length_append in Hfuel. change (String.length ",") with 1 in Hfuel.
    rewrite !string_append_assoc. cbn [read_items]. rewrite Hreads by lia.
    cbn [mbind option_bind].
    change (skip_ws ("," +:+ ?s)) with (String "," s). cbv beta iota.
    rewrite <-!fmap_cons. rewrite IH by (try done; rewrite !fmap_cons; lia).
    done.
Qed.

Lemma reads_as_list {A} (dump : A → string) (value : A → json) (l : list A) :
  (∀ x, reads_as (dump x) (value x)) →
  (∀ x, ∃ body, dump x = String quote body ∨ dump x = String "{" body) →
  reads_as (json_list (dump <$> l)) (JList (value <$> l)).
Proof.
  intros Hreads Hopens [|fuel] rest Hfuel; [by apply Nat.nle_succ_0 in Hfuel|].
  destruct l as [|x l]; [done|].
  unfold json_list in *.
  change (String.length ("[" +:+ ?s)) with (S (String.length s)) in Hfuel.
  rewrite string_length_append in Hfuel. change (String.length "]") with 1 in Hfuel.
  pose proof (read_items_texts dump value (x :: l) Hreads ltac:(done) fuel rest ltac:(lia))
    as Hitems.
  change (("[" +:+ ?s +:+ "]") +:+ rest) with (String "[" ((s +:+ "]") +:+ rest)).
  rewrite string_append_assoc.
  assert (∃ c s, (c = quote ∨ c = "{"%char)
                 ∧ String.concat "," (dump <$> x :: l) +:+ "]" +:+ rest = String c s)
    as (c & s & Hc & Htext).
  { rewrite fmap_cons. destruct (Hopens x) as [body [Hbody|Hbody]];
      rewrite Hbody; destruct (dump <$> l); eexists _, _; (split; [|reflexivity]); auto. }
  rewrite Htext in *.
  destruct Hc as [-> | ->].
  - change (read_json (S fuel) (String "[" (String quote s)))
      with ('(items, tail) ← read_items fuel (String quote s); Some (JList items, tail)).
    by rewrite Hitems.
  - change (read_json (S fuel) (String "[" (String "{" s)))
      with ('(items, tail) ← read_items fuel (String "{" s); Some (JList items, tail)).
    by rewrite Hitems.
Qed.

Lemma reads_as_whole (text : string) (members : document) :
  reads_as text (JDict members) → read_object text = Some members.
Proof.
  intros Htext. unfold read_object.
  specialize (Htext (S (String.length text)) "" ltac:(lia)).
  rewrite string_append_empty in Htext. by rewrite Htext.
Qed.

Lemma genre_text_reads_back (g : Genre) :
  model_validate_json (model_dump_json g) = Some g.
Proof.
  cbn [model_validate_json model_dump_json Genre_JsonCodec].
  rewrite (reads_as_whole _
             [("id", JStr (genre_id g)); ("name", JStr (genre_name g));
              ("description", match genre_description g with
                              | Some s => JStr s | None => JNull end)]).
  - by destruct g as [id name [description|]].
  - apply reads_as_object.
    apply reads_fields_as_member; [apply reads_as_str|].
    apply reads_fields_as_member; [apply reads_as_str|].
    apply reads_fields_as_last, reads_as_optional_str.
Qed.

Lemma reads_as_person_film (f : PersonFilm) :
  reads_as (person_film_dump_json f)
    (JDict [("id", JStr (person_film_id f)); ("roles", JList (JStr <$> roles f))]).
Proof.
  apply reads_as_object.
  apply reads_fields_as_member; [apply reads_as_str|].
  apply reads_fields_as_last, reads_as_list; [apply reads_as_str|].
  intros s. eexists. left. unfold json_str. reflexivity.
Qed.

Lemma person_text_reads_back (p : Person) :
  model_validate_json (model_dump_json p) = Some p.
Proof.
  cbn [model_validate_json model_dump_json Person_JsonCodec].
  rewrite (reads_as_whole _
             [("id", JStr (person_id p)); ("full_name", JStr (full_name p));
              ("films", JList ((λ f, JDict [("id", JStr (person_film_id f));
                                            ("roles", JList (JStr <$> roles f))])
                               <$> films p))]).
  - unfold person_of_document, str_field, list_field. cbn [mbind option_bind dict_get String.eqb Ascii.eqb Bool.eqb str_of_json].
    rewrite mapM_fmap_Some; [by destruct p|].
    intros [id credits]. unfold person_film_of_json, str_field, list_field.
    cbn [mbind option_bind dict_get String.eqb Ascii.eqb Bool.eqb str_of_json person_film_id roles].
    by rewrite mapM_fmap_Some.
  - apply reads_as_object.
    apply reads_fields_as_member; [apply reads_as_str|].
    apply reads_fields_as_member; [apply reads_as_str|].
    apply reads_fields_as_last, reads_as_list; [apply reads_as_person_film|].
    intros f. eexists. right. reflexivity.
Qed.

Lemma reads_as_film_person (p : FilmPerson) :
  reads_as (film_person_dump_json p)
    (JDict [("id", JStr (film_person_id p)); ("name", JStr (film_person_name p))]).
Proof.
  apply reads_as_object.
  apply reads_fields_as_member; [apply reads_as_str|].
  apply reads_fields_as_last, reads_as_str.
Qed.

Lemma reads_as_strs (l : list string) :
  reads_as (json_list (json_str <$> l)) (JList (JStr <$> l)).
Proof.
  apply reads_as_list; [apply reads_as_str|].
  intros s. eexists. left. unfold json_str. reflexivity.
Qed.

Lemma reads_as_film_people (l : list FilmPerson) :
  reads_as (json_list (film_person_dump_json <$> l))
    (JList ((λ p, JDict [("id", JStr (film_person_id p));
                         ("name", JStr (film_person_name p))]) <$> l)).
Proof.
  apply reads_as_list; [apply reads_as_film_person|].
  intros p. eexists. right. reflexivity.
Qed.

Lemma film_text_reads_back (film : Film) :
  imdb_rating film = None →
  model_validate_json (model_dump_json film) = Some film.
Proof.
  intros Hrating.
  cbn [model_validate_json model_dump_json Film_JsonCodec].
  rewrite (reads_as_whole _
             [("id", JStr (film_id film)); ("title", JStr (title film));
              ("description", match description film with
                              | Some s => JStr s | None => JNull end);
              ("imdb_rating", JNull);
              ("actors", JList ((λ p, JDict [("id", JStr (film_person_id p));
                                             ("name", JStr (film_person_name p))])
                                <$> actors film));
              ("writers", JList ((λ p, JDict [("id", JStr (film_person_id p));
                                              ("name", JStr (film_person_name p))])
                                 <$> writers film));
              ("directors", JList ((λ p, JDict [("id", JStr (film_person_id p));
                                                ("name", JStr (film_person_name p))])
                                   <$> directors film));
              ("genres", JList (JStr <$> genres film));
              ("actors_names", JList (JStr <$> actors_names film));
              ("writers_names", JList (JStr <$> writers_names film));
              ("directors_names", JList (JStr <$> directors_names film))]).
  - unfold film_of_document, str_field, optional_str_field, optional_float_field, list_field.
    cbn [mbind option_bind dict_get String.eqb Ascii.eqb Bool.eqb str_of_json].
    assert (∀ l, mapM film_person_of_json
                   ((λ p, JDict [("id", JStr (film_person_id p));
                                 ("name", JStr (film_person_name p))]) <$> l) = Some l)
      as Hpeople.
    { intros l. apply mapM_fmap_Some. by intros [id name]. }
    rewrite !Hpeople. rewrite !(mapM_fmap_Some str_of_json JStr) by done.
    destruct film as [id title [description|] rating]; simpl in *; by subst.
  - unfold film_dump_json. rewrite Hrating.
    apply reads_as_object.
    apply reads_fields_as_member; [apply reads_as_str|].
    apply reads_fields_as_member; [apply reads_as_str|].
    apply reads_fields_as_member; [apply reads_as_optional_str|].
    apply reads_fields_as_member; [apply reads_as_null|].
    apply reads_fields_as_member; [apply reads_as_film_people|].
    apply reads_fields_as_member; [apply reads_as_film_people|].
    apply reads_fields_as_member; [apply reads_as_film_people|].
    apply reads_fields_as_member; [apply reads_as_strs|].
    apply reads_fields_as_member; [apply reads_as_strs|].
    apply reads_fields_as_member; [apply reads_as_strs|].
    apply reads_fields_as_last, reads_as_strs.
Qed.


End TextsReadBack.

(** ** The properties on the catalogue *)

Section OnTheCatalogue.
Import Catalogue.
#[local] Existing Instance ScriptedEngine.client.

(** The films of the catalogue are pairwise distinct. *)
Lemma catalogue_films_distinct : NoDup [film1; film2; film3; broken_film].
Proof.
  unfold film1, film2, film3, broken_film.
  repeat (apply NoDup_cons; split; [not_among|]). apply NoDup_nil_2.
Qed.

(** The genre without a name and the film without a title: the base
    lookup and the film search raise, the genre lookup logs and answers
    absent. *)
Lemma validation_error_is_handled_by_genre_lookup_only_witness :
  (Service.get_by_id (item := Genre) RedisCache.make (ElasticSearchService.make "genres")
     "genres" "g2" start).1 = Raise ValidationError
  ∧ (FilmService.search (ElasticSearchService.make "movies") "lost reel"
       CommonQueryParams_default start).1 = Raise ValidationError
  ∧ GenreService.get_by_id RedisCache.make (ElasticSearchService.make "genres") "g2" start
    = (Ok None,
       after start empty_redis cluster
         [RedisGet "genres_g2"; ElasticGet "genres" "g2";
          LogError "Error while validating " (Some broken_genre)]).
Proof.
  destruct validation_error_is_handled_by_genre_lookup_only
    as (Hbase & Hsearch & Hgenre & _).
  split_and!.
  - by rewrite (Hbase _ _ Genre _ _ _ "genres" "genres" "g2" start
                  {| hit_id := "g2"; hit_source := broken_genre |}).
  - rewrite (Hsearch _ _ _ "movies" "lost reel" CommonQueryParams_default start
                  {| es_index := "movies"; es_size := 10; es_from := 0;
                     es_query :=
                       {| must := [MultiMatch "lost reel"
                                     ["title^3"; "description"; "actors_names";
                                      "writers_names"; "directors_names"]];
                          should := [] |};
                     es_sort := [("_score", "desc")] |}
                  [broken_film] broken_film);
      [done | done | done | apply list_elem_of_here | done].
  - by rewrite (Hgenre _ _ _ _ "genres" "g2" start
                  {| hit_id := "g2"; hit_source := broken_genre |}).
Defined.



(** The first film of the catalogue, rated 8.5, is the film of its
    document; its JSON text has the rating as [8.5] and reads back as the
    film. *)
Lemma rated_film_text_reads_back :
  model_init (hit_source film1) = Some first_film
  ∧ json_optional_float (imdb_rating first_film) = "8.5"
  ∧ model_validate_json (model_dump_json first_film) = Some first_film.
Proof. split_and!; by vm_compute. Qed.

(** The three outcomes of [get_by_id]: Drama from the warm cache, Drama
    from the engine with the cache write, and an unknown id. *)
Lemma get_by_id_is_cache_aside_witness :
  (Service.get_by_id RedisCache.make (ElasticSearchService.make "genres") "genres" "g1"
     warm).1 = Ok (Some drama_genre)
  ∧ trace (Service.get_by_id (item := Genre) RedisCache.make
             (ElasticSearchService.make "genres") "genres" "g1" warm).2
    = [RedisGet "genres_g1"]
  ∧ Service.get_by_id RedisCache.make (ElasticSearchService.make "genres") "genres" "g1"
      start
    = (Ok (Some drama_genre),
       after start
         {| redis_up := true;
            redis_data := <["genres_g1" := (model_dump_json drama_genre, 300%Z)]> ∅ |}
         cluster
         [RedisGet "genres_g1"; ElasticGet "genres" "g1";
          RedisSet "genres_g1" (model_dump_json drama_genre) 300])
  ∧ Service.get_by_id (item := Genre) RedisCache.make (ElasticSearchService.make "genres")
      "genres" "g9" start
    = (Ok None, after start empty_redis cluster [RedisGet "genres_g9"; ElasticGet "genres" "g9"]).
Proof.
  destruct (get_by_id_is_cache_aside (item := Genre) "genres" "genres" "g1" warm)
    as (_ & Hhit & _); [done|].
  destruct (get_by_id_is_cache_aside (item := Genre) "genres" "genres" "g1" start)
    as (_ & _ & Hfound & _); [done|].
  destruct (get_by_id_is_cache_aside (item := Genre) "genres" "genres" "g9" start)
    as (_ & _ & _ & Habsent); [done|].
  split_and!.
  - by rewrite (Hhit (model_dump_json drama_genre) 300%Z drama_genre).
  - by rewrite (Hhit (model_dump_json drama_genre) 300%Z drama_genre).
  - by rewrite (Hfound {| hit_id := "g1"; hit_source := drama |} drama_genre).
  - by rewrite Habsent.
Defined.

(** Two different answers to the two searches: the second one is used. *)
Lemma get_by_text_field_searches_twice_witness :
  let request :=
    {| es_index := "genres"; es_size := 10; es_from := 0;
       es_query := {| must := [Match "name" "Drama" "auto"]; should := [] |};
       es_sort := [("_score", "desc")] |} in
  (Service.get_by_text_field (item := Genre) (ElasticSearchService.make "genres")
     "name" "Drama" scripted).1 = Ok (Some drama_genre)
  ∧ trace (Service.get_by_text_field (item := Genre) (ElasticSearchService.make "genres")
             "name" "Drama" scripted).2
    = [ElasticSearch request; ElasticSearch request].
Proof.
  intros request.
  by rewrite (get_by_text_field_searches_twice (item := Genre) "genres" "name" "Drama"
                scripted
                [{| hit_id := "g2"; hit_source := broken_genre |}]
                [{| hit_id := "g1"; hit_source := drama |}]).
Defined.
(** C2 as stated does not hold under paging: Alice (p1) acts in the first
    film and writes and directs the second, yet with a page size of 1 only
    the first film is returned. *)
Lemma list_by_person_page_misses_credited_film :
  let params := {| page_number := 1; page_size := 1; sort := [] |} in
  ∃ films,
    (FilmService.get_person_films (ElasticSearchService.make "movies") "p1" params
       start).1 = Ok films
    ∧ film_id <$> films = ["f1"]
    ∧ ReferenceEngine.indices (elastic start) !! "movies"
      = Some [film1; film2; film3; broken_film]
    ∧ credited "p1" (hit_source film2)
    ∧ hit_id film2 ∉ film_id <$> films.
Proof.
  intros params. eexists. split; [by vm_compute|].
  split_and!; [done | done | | not_among].
  right. left. apply list_elem_of_here.
Qed.

(** With the default page size both of Alice's films come back, the second
    one once although it matches two nested filters. *)
Lemma list_by_person_returns_page_of_union_witness :
  ∃ films,
    (FilmService.get_person_films (ElasticSearchService.make "movies") "p1"
       CommonQueryParams_default start).1 = Ok films
    ∧ film_id <$> films = ["f1"; "f2"]
    ∧ ReferenceEngine.page
        {| es_index := "movies"; es_size := 10; es_from := 0;
           es_query := person_films_query "p1"; es_sort := [("_score", "desc")] |}
        (filter (λ h, credited "p1" (hit_source h)) [film1; film2; film3; broken_film])
      ≡ₚ filter (λ h, credited "p1" (hit_source h)) [film1; film2; film3; broken_film].
Proof.
  destruct (list_by_person_returns_page_of_union text_matches rank "movies" "p1"
              CommonQueryParams_default start [film1; film2; film3; broken_film])
    as (_ & _ & _ & _ & Hfilms & _ & _ & _ & Hall).
  - done.
  - done.
  - done.
  - apply catalogue_films_distinct.
  - constructor.
  - unfold reference_client in Hfilms. unfold engine.
    eexists. split; [by rewrite Hfilms|]. split; [done|].
    apply Hall; [done|]. vm_compute. lia.
Defined.
(** The two services of a person's detail page composed on the catalogue:
    Alice's films and her roles in them. *)
Example alice_roles_on_the_catalogue :
  (related_filmworks ← (FilmService.get_person_films (ElasticSearchService.make "movies")
                          "p1" PersonService.all_films_params start).1;
   PersonService._get_roles_from_filmworks alice related_filmworks)
  = Ok [ {| person_film_id := "f1"; roles := ["actor"] |};
         {| person_film_id := "f2"; roles := ["director"; "writer"] |} ].
Proof. by vm_compute. Qed.
End OnTheCatalogue.

(** * Further properties of the code *)

(** ** Page windows *)

(** X1: the hits of a page are those from [from_] up to [from_ + page_size].
    With a positive page size the offset is non-negative exactly when the
    page number is at least 1 (page 0 would start at [- page_size]); the
    next page starts where the page ends; and the windows of two different
    pages do not overlap. *)
Theorem page_windows_are_adjacent_and_disjoint :
  (∀ params,
     (1 <= page_size params)%Z →
     (0 <= from_ params)%Z ↔ (1 <= page_number params)%Z)
  ∧ (∀ size directives,
       from_ {| page_number := 0; page_size := size; sort := directives |} = (- size)%Z)
  ∧ (∀ page size directives,
       from_ {| page_number := page + 1; page_size := size; sort := directives |}
       = (from_ {| page_number := page; page_size := size; sort := directives |} + size)%Z)
  ∧ (∀ page page' size directives,
       (0 <= size)%Z →
       (page < page')%Z →
       (from_ {| page_number := page; page_size := size; sort := directives |} + size
        <= from_ {| page_number := page'; page_size := size; sort := directives |})%Z).
Proof.
  split_and!.
  - intros params Hsize. rewrite from_formula. nia.
  - intros size directives. rewrite from_formula. simpl. lia.
  - intros page size directives. rewrite !from_formula. simpl. lia.
  - intros page page' size directives Hsize Hlt. rewrite !from_formula. simpl. nia.
Qed.

(** ** Role derivation as a map *)

Lemma _get_roles_from_filmworks_from (person : Person) (filmworks : list Film)
    (acc : list PersonFilm) :
  foldlM (PersonService.add_filmwork person) acc filmworks
  = Ok (acc ++ ((λ filmwork, {| person_film_id := film_id filmwork;
                                roles := derived_roles person filmwork |})
                 <$> filmworks)).
Proof.
  revert acc. induction filmworks as [|filmwork rest IH]; intros acc.
  - simpl. by rewrite app_nil_r.
  - change (foldlM (PersonService.add_filmwork person) acc (filmwork :: rest))
      with (PersonService.add_filmwork person acc filmwork
            ≫= λ acc', foldlM (PersonService.add_filmwork person) acc' rest).
    rewrite add_filmwork_step. simpl. rewrite IH. by rewrite <-app_assoc.
Qed.

(** X2: the two nested loops of [_get_roles_from_filmworks] compute a map:
    it never raises (every role of [PERSON_ROLES] names an attribute of a
    film), and gives, film by film and independently of the other films,
    the film's id with the roles of [PERSON_ROLES], in that order, whose
    name list holds the person's full name. It therefore distributes over
    concatenation of film lists, and it depends on the person through the
    full name only: two people with the same full name get the same
    roles, whatever their ids. *)
Theorem role_derivation_is_a_map :
  (∀ person person_filmworks,
     PersonService._get_roles_from_filmworks person person_filmworks
     = Ok ((λ filmwork, {| person_film_id := film_id filmwork;
                           roles := derived_roles person filmwork |})
             <$> person_filmworks))
  ∧ (∀ person filmwork, derived_roles person filmwork `sublist_of` PERSON_ROLES)
  ∧ (∀ person filmworks filmworks',
       PersonService._get_roles_from_filmworks person (filmworks ++ filmworks')
       = (first ← PersonService._get_roles_from_filmworks person filmworks;
          second ← PersonService._get_roles_from_filmworks person filmworks';
          mret (first ++ second)))
  ∧ (∀ person person' person_filmworks,
       full_name person = full_name person' →
       PersonService._get_roles_from_filmworks person person_filmworks
       = PersonService._get_roles_from_filmworks person' person_filmworks).
Proof.
  assert (∀ person person_filmworks,
            PersonService._get_roles_from_filmworks person person_filmworks
            = Ok ((λ filmwork, {| person_film_id := film_id filmwork;
                                  roles := derived_roles person filmwork |})
                    <$> person_filmworks)) as Hmap.
  { intros. unfold PersonService._get_roles_from_filmworks.
    by rewrite _get_roles_from_filmworks_from. }
  split_and!.
  - done.
  - intros person filmwork. unfold derived_roles. apply sublist_filter.
  - intros person filmworks filmworks'. rewrite !Hmap. simpl. by rewrite fmap_app.
  - intros person person' person_filmworks Hname. rewrite !Hmap. do 2 f_equal.
    unfold derived_roles. by rewrite Hname.
Qed.

(** ** Queries without a text *)

(** X3: an absent or empty query text makes [text_search] a plain listing,
    whatever the search fields: it behaves as [get_list] without nested
    objects (and an empty list of nested objects is the same as none). So
    [get_films] with a genre whose name is empty filters nothing and
    behaves as [get_films] without a genre. With a non-empty genre name,
    and sort directives that parse, [get_films] makes exactly one engine
    call: a search whose only predicate is a fuzzy match of the name on the
    field genres, for [page_size] hits from the page's offset. *)
Theorem empty_query_text_is_a_plain_listing :
  (∀ ES (client : ElasticClient ES) index search_fields params (w : world ES),
     ElasticSearchService.text_search index None search_fields params w
     = ElasticSearchService.get_list index params None w
     ∧ ElasticSearchService.text_search index (Some "") search_fields params w
       = ElasticSearchService.get_list index params None w
     ∧ ElasticSearchService.get_list index params (Some []) w
       = ElasticSearchService.get_list index params None w)
  ∧ (∀ ES (client : ElasticClient ES) (model : Model Film) index query_params genre
       (w : world ES),
       genre_name genre = "" →
       FilmService.get_films (ElasticSearchService.make index) query_params (Some genre) w
       = FilmService.get_films (ElasticSearchService.make index) query_params None w)
  ∧ (∀ ES (client : ElasticClient ES) (model : Model Film) index query_params genre
       (w : world ES),
       genre_name genre ≠ "" →
       Forall (λ directive, directive ≠ "") (sort query_params) →
       trace (FilmService.get_films (ElasticSearchService.make index) query_params
                (Some genre) w).2
       = trace w ++
         [ElasticSearch
            {| es_index := index; es_size := page_size query_params;
               es_from := from_ query_params;
               es_query := {| must := [Match "genres" (genre_name genre) "auto"];
                              should := [] |};
               es_sort := (directive_field_order <$> sort query_params)
                          ++ [("_score", "desc")] |}]).
Proof.
  split_and!.
  - done.
  - intros ES client model index query_params genre w Hname.
    unfold FilmService.get_films. cbv zeta. rewrite !App_bind_run.
    cbn [AbstractSearchService.text_search ElasticSearchService.make].
    simpl. by rewrite Hname.
  - intros ES client model index query_params genre w Hname Hsort.
    unfold FilmService.get_films. cbv zeta. rewrite App_bind_run.
    cbn [AbstractSearchService.text_search ElasticSearchService.make].
    unfold ElasticSearchService.text_search. cbv zeta. rewrite _search_run.
    set (request := {| es_index := index; es_size := page_size query_params;
                       es_from := from_ query_params;
                       es_query := {| must := [Match "genres" (genre_name genre) "auto"];
                                      should := [] |};
                       es_sort := (directive_field_order <$> sort query_params)
                                  ++ [("_score", "desc")] |}).
    assert (search_request_of index (Some query_params) None
              (text_predicate (genre_name <$> Some genre) ["genres"]) = Ok request) as ->.
    { apply search_request_of_Ok. cbv zeta. split; [done|].
      subst request. simpl. by destruct (genre_name genre). }
    cbv zeta. destruct (elastic_search (elastic w) request).1; [|done].
    by rewrite hydrate_all_run.
Qed.

(** ** Every path through [get_by_id] *)

Section GetByIdPaths.
Context {ES item : Type} `{Model item} `{!JsonCodec item} `{!ElasticClient ES}.
Variables entity_name index : string.

(** The outcome of the base [get_by_id] in every state, path by path. *)
Lemma Service_get_by_id_run (requested : string) (w : world ES) :
  let key := entity_name +:+ "_" +:+ requested in
  let answer := elastic_get (elastic w) index requested in
  let asked := after w (redis w) (elastic w) [RedisGet key] in
  let looked_up := after w (redis w) answer.2 [RedisGet key; ElasticGet index requested] in
  Service.get_by_id RedisCache.make (ElasticSearchService.make index) entity_name
    requested w
  = if redis_up (redis w) then
      match redis_data (redis w) !! key with
      | Some (String c data, _) =>
          match model_validate_json (String c data) with
          | Some it => (Ok (Some it), asked)
          | None => (Raise ValidationError, asked)
          end
      | _ =>
          match answer.1 with
          | Raise NotFoundError => (Ok None, looked_up)
          | Raise e => (Raise e, looked_up)
          | Ok hit =>
              match hit_source hit with
              | [] => (Ok None, looked_up)
              | _ :: _ =>
                  match model_init (hit_source hit) with
                  | None => (Raise ValidationError, looked_up)
                  | Some it =>
                      let key' := entity_name +:+ "_" +:+ item_id it in
                      (Ok (Some it),
                       after w {| redis_up := true;
                                  redis_data := <[key' := (model_dump_json it, 300%Z)]>
                                                  (redis_data (redis w)) |}
                         answer.2
                         [RedisGet key; ElasticGet index requested;
                          RedisSet key' (model_dump_json it) 300])
                  end
              end
          end
      end
    else (Raise ConnectionCacheError, asked).
Proof.
  intros key answer asked looked_up.
  unfold Service.get_by_id. rewrite App_bind_run.
  destruct (redis_up (redis w)) eqn:Hup.
  - rewrite _get_from_cache_run by done. fold key asked.
    assert ((AbstractSearchService.get_by_id (ElasticSearchService.make index)
                 requested ≫= λ item_dict,
                   match item_dict with
                   | Some ((_ :: _) as item_dict) =>
                       it ← validated (model_init item_dict);
                       Service._put_to_cache RedisCache.make entity_name it;;
                       mret (Some it)
                   | _ => mret None
                   end) asked
              = match answer.1 with
                | Raise NotFoundError => (Ok None, looked_up)
                | Raise e => (Raise e, looked_up)
                | Ok hit =>
                    match hit_source hit with
                    | [] => (Ok None, looked_up)
                    | _ :: _ =>
                        match model_init (hit_source hit) with
                        | None => (Raise ValidationError, looked_up)
                        | Some it =>
                            (Ok (Some it),
                             after w {| redis_up := true;
                                        redis_data :=
                                          <[entity_name +:+ "_" +:+ item_id it
                                            := (model_dump_json it, 300%Z)]>
                                            (redis_data (redis w)) |}
                               answer.2
                               [RedisGet key; ElasticGet index requested;
                                RedisSet (entity_name +:+ "_" +:+ item_id it)
                                  (model_dump_json it) 300])
                        end
                    end
                end) as Hmiss.
    { rewrite App_bind_run.
      cbn [AbstractSearchService.get_by_id ElasticSearchService.make].
      rewrite ElasticSearchService_get_by_id_run. subst asked looked_up.
      rewrite after_after. simpl. fold answer.
      destruct answer.1 as [hit|[]]; try reflexivity.
      destruct (hit_source hit) as [|entry d] eqn:Hsource; [reflexivity|].
      rewrite App_bind_run. unfold validated.
      destruct (model_init (entry :: d)) as [it|]; [|reflexivity].
      simpl. rewrite App_bind_run, RedisCache_put_run. simpl. rewrite Hup.
      by rewrite after_after. }
    destruct (redis_data (redis w) !! key) as [[[|c data] ttl]|].
    + exact Hmiss.
    + destruct (model_validate_json (String c data)); done.
    + exact Hmiss.
  - unfold Service._get_from_cache. rewrite App_bind_run.
    cbn [cache_get RedisCache.make]. rewrite RedisCache_get_run, Hup. done.
Qed.

Lemma Service_get_by_id_miss (requested : string) (w : world ES) :
  redis_up (redis w) = true →
  cache_miss w (entity_name +:+ "_" +:+ requested) →
  let key := entity_name +:+ "_" +:+ requested in
  let answer := elastic_get (elastic w) index requested in
  let looked_up := after w (redis w) answer.2 [RedisGet key; ElasticGet index requested] in
  Service.get_by_id RedisCache.make (ElasticSearchService.make index) entity_name
    requested w
  = match answer.1 with
    | Raise NotFoundError => (Ok None, looked_up)
    | Raise e => (Raise e, looked_up)
    | Ok hit =>
        match hit_source hit with
        | [] => (Ok None, looked_up)
        | _ :: _ =>
            match model_init (hit_source hit) with
            | None => (Raise ValidationError, looked_up)
            | Some it =>
                let key' := entity_name +:+ "_" +:+ item_id it in
                (Ok (Some it),
                 after w {| redis_up := true;
                            redis_data := <[key' := (model_dump_json it, 300%Z)]>
                                            (redis_data (redis w)) |}
                   answer.2
                   [RedisGet key; ElasticGet index requested;
                    RedisSet key' (model_dump_json it) 300])
            end
        end
    end.
Proof.
  intros Hup Hmiss key answer looked_up. rewrite Service_get_by_id_run, Hup.
  fold key answer looked_up. unfold cache_miss in Hmiss. fold key in Hmiss.
  destruct (redis_data (redis w) !! key) as [[[|c data] ttl]|]; done.
Qed.

(** X4: whatever the cache holds and whatever the engine answers, a run of
    the base [get_by_id] has one of three shapes. It stops after the cache
    read, with both servers as they were; or it stops after one engine
    lookup, with the cache as it was; or it returns an entity after
    writing that very entity, under the entity's own key and with a TTL of
    300 seconds, leaving every other cache entry as it was. So it never
    logs, never searches, never reads the cache or asks the engine twice,
    and never removes a cache entry. *)
Theorem get_by_id_follows_the_lookup_protocol (requested : string) (w : world ES) :
  let key := entity_name +:+ "_" +:+ requested in
  let answer := elastic_get (elastic w) index requested in
  let run :=
    Service.get_by_id RedisCache.make (ElasticSearchService.make index) entity_name
      requested w in
  (run.2 = after w (redis w) (elastic w) [RedisGet key])
  ∨ (run.2 = after w (redis w) answer.2 [RedisGet key; ElasticGet index requested]
     ∧ ∀ it, run.1 ≠ Ok (Some it))
  ∨ (∃ it,
       let key' := entity_name +:+ "_" +:+ item_id it in
       run.1 = Ok (Some it)
       ∧ trace run.2
         = trace w ++ [RedisGet key; ElasticGet index requested;
                       RedisSet key' (model_dump_json it) 300]
       ∧ elastic run.2 = answer.2
       ∧ redis_up (redis run.2) = redis_up (redis w)
       ∧ redis_data (redis run.2) !! key' = Some (model_dump_json it, 300%Z)
       ∧ ∀ other, other ≠ key' →
           redis_data (redis run.2) !! other = redis_data (redis w) !! other).
Proof.
  intros key answer run. subst run.
  destruct (redis_up (redis w)) eqn:Hup.
  - destruct (redis_data (redis w) !! key) as [[[|c data] ttl]|] eqn:Hkey.
    2:{ left. rewrite Service_get_by_id_run, Hup. fold key. rewrite Hkey.
        by destruct (model_validate_json (String c data)). }
    all: right.
    all: rewrite Service_get_by_id_miss
           by (try done; unfold cache_miss; fold key; by rewrite Hkey).
    all: cbv zeta; fold key answer.
    all: destruct answer.1 as [hit|e]; [|by left; destruct e].
    all: destruct (hit_source hit) as [|entry d]; [by left|].
    all: destruct (model_init (entry :: d)) as [it|]; [|by left].
    all: right; exists it; simpl; split_and!; try done.
    all: try apply lookup_insert_eq.
    all: intros other Hother; by apply lookup_insert_ne.
  - left. by rewrite Service_get_by_id_run, Hup.
Qed.

End GetByIdPaths.

(** ** The lookups of the three services *)

Lemma _get_roles_from_filmworks_Ok (person : Person) (filmworks : list Film) :
  PersonService._get_roles_from_filmworks person filmworks
  = Ok (filmwork_roles person filmworks).
Proof.
  unfold PersonService._get_roles_from_filmworks.
  by rewrite _get_roles_from_filmworks_from.
Qed.

Lemma filmwork_roles_full_name (person person' : Person) (filmworks : list Film) :
  full_name person' = full_name person →
  filmwork_roles person filmworks = filmwork_roles person' filmworks.
Proof.
  intros Hname. unfold filmwork_roles. apply list_fmap_ext. intros _ filmwork _.
  unfold derived_roles. by rewrite Hname.
Qed.

Lemma cache_key_inj (entity_name id id' : string) :
  entity_name +:+ "_" +:+ id = entity_name +:+ "_" +:+ id' → id = id'.
Proof.
  induction entity_name as [|c entity_name IH]; simpl.
  - by intros [= Heq].
  - intros [= Heq]. by apply IH.
Qed.

Section Lookups.
Context `{ElasticClient ES}.

(** The cache read that opens every lookup, in every state. *)
Lemma _get_from_cache_any {item} `{Model item} `{!JsonCodec item}
    (entity_name requested : string) (w : world ES) :
  Service._get_from_cache RedisCache.make entity_name requested w
  = (if redis_up (redis w) then
       match redis_data (redis w) !! (entity_name +:+ "_" +:+ requested) with
       | None | Some (EmptyString, _) => Ok None
       | Some (data, _) =>
           match model_validate_json data with
           | Some it => Ok (Some it)
           | None => Raise ValidationError
           end
       end
     else Raise ConnectionCacheError,
     after w (redis w) (elastic w) [RedisGet (entity_name +:+ "_" +:+ requested)]).
Proof.
  destruct (redis_up (redis w)) eqn:Hup.
  - by apply _get_from_cache_run.
  - unfold Service._get_from_cache. rewrite App_bind_run.
    cbn [cache_get RedisCache.make]. by rewrite RedisCache_get_run, Hup.
Qed.

Lemma _get_from_cache_miss {item} `{Model item} `{!JsonCodec item}
    (entity_name requested : string) (w : world ES) :
  redis_up (redis w) = true →
  cache_miss w (entity_name +:+ "_" +:+ requested) →
  Service._get_from_cache RedisCache.make entity_name requested w
  = (Ok None,
     after w (redis w) (elastic w) [RedisGet (entity_name +:+ "_" +:+ requested)]).
Proof.
  intros Hup Hmiss. rewrite _get_from_cache_any, Hup. unfold cache_miss in Hmiss.
  destruct (redis_data (redis w) !! _) as [[data ttl]|]; [by rewrite Hmiss|done].
Qed.

Context `{!Model Genre} `{!JsonCodec Genre}.
Context `{!Model Person} `{!JsonCodec Person} `{!Model Film}.
Variables index film_index : string.

(** [GenreService.get_by_id] after a cache miss. *)
Lemma GenreService_get_by_id_miss (requested : string) (w : world ES) :
  redis_up (redis w) = true →
  cache_miss w ("genres_" +:+ requested) →
  let key := "genres_" +:+ requested in
  let answer := elastic_get (elastic w) index requested in
  let looked_up := after w (redis w) answer.2 [RedisGet key; ElasticGet index requested] in
  GenreService.get_by_id RedisCache.make (ElasticSearchService.make index) requested w
  = match answer.1 with
    | Raise NotFoundError => (Ok None, looked_up)
    | Raise ValidationError => (Raise UnboundLocalError, looked_up)
    | Raise e => (Raise e, looked_up)
    | Ok hit =>
        match hit_source hit with
        | [] => (Ok None, looked_up)
        | _ :: _ =>
            match model_init (hit_source hit) with
            | None =>
                (Ok None,
                 after w (redis w) answer.2
                   [RedisGet key; ElasticGet index requested;
                    LogError "Error while validating " (Some (hit_source hit))])
            | Some genre =>
                let key' := "genres_" +:+ genre_id genre in
                (Ok (Some genre),
                 after w {| redis_up := true;
                            redis_data := <[key' := (model_dump_json genre, 300%Z)]>
                                            (redis_data (redis w)) |}
                   answer.2
                   [RedisGet key; ElasticGet index requested;
                    RedisSet key' (model_dump_json genre) 300])
            end
        end
    end.
Proof.
  intros Hup Hmiss key answer looked_up.
  unfold GenreService.get_by_id. rewrite App_bind_run.
  rewrite (_get_from_cache_miss "genres") by done.
  change ("genres" +:+ "_" +:+ requested) with key.
  rewrite App_bind_run. unfold try_except at 1.
  cbn [AbstractSearchService.get_by_id ElasticSearchService.make].
  rewrite ElasticSearchService_get_by_id_run. rewrite after_after. simpl.
  fold answer. subst looked_up.
  destruct answer.1 as [hit|[]]; try reflexivity.
  unfold try_except.
  destruct (hit_source hit) as [|entry d] eqn:Hsource; [reflexivity|].
  rewrite App_bind_run. unfold validated.
  destruct (model_init (entry :: d)) as [genre|].
  - simpl. rewrite App_bind_run. unfold Service._put_to_cache.
    cbn [cache_put RedisCache.make]. rewrite RedisCache_put_run. simpl. rewrite Hup.
    by rewrite after_after.
  - simpl. unfold after. simpl. rewrite App_bind_run.
    unfold logging_error, emit. simpl. by rewrite <-!app_assoc.
Qed.

(** The film search of a person lookup. *)
Lemma get_person_films_all_run (person_id' : string) (w : world ES) :
  let request := all_films_request film_index person_id' in
  let answer := elastic_search (elastic w) request in
  FilmService.get_person_films (ElasticSearchService.make film_index) person_id'
    PersonService.all_films_params w
  = (match answer.1 with
     | Raise e => Raise e
     | Ok response =>
         match mapM model_init (hit_source <$> response) with
         | Some filmworks => Ok filmworks
         | None => Raise ValidationError
         end
     end,
     after w (redis w) answer.2 [ElasticSearch request]).
Proof.
  intros request answer.
  unfold FilmService.get_person_films. cbv zeta. rewrite App_bind_run.
  cbn [AbstractSearchService.get_list ElasticSearchService.make].
  unfold ElasticSearchService.get_list. rewrite _search_run.
  change (search_request_of film_index (Some PersonService.all_films_params)
            (Some (FilmService.person_nested_objects person_id')) None)
    with (Ok request).
  cbv beta iota zeta. subst answer.
  destruct (elastic_search (elastic w) request).1 as [response|e]; [|done].
  by rewrite hydrate_all_run.
Qed.

(** [PersonService.get_by_id] after a cache miss. *)
Lemma PersonService_get_by_id_miss (requested : string) (w : world ES) :
  redis_up (redis w) = true →
  cache_miss w ("persons_" +:+ requested) →
  let key := "persons_" +:+ requested in
  let answer := elastic_get (elastic w) index requested in
  let looked_up := after w (redis w) answer.2 [RedisGet key; ElasticGet index requested] in
  PersonService.get_by_id RedisCache.make (ElasticSearchService.make index)
    (ElasticSearchService.make film_index) requested w
  = match answer.1 with
    | Raise NotFoundError => (Ok None, looked_up)
    | Raise e => (Raise e, looked_up)
    | Ok hit =>
        match hit_source hit with
        | [] => (Ok None, looked_up)
        | _ :: _ =>
            match model_init (hit_source hit) with
            | None => (Raise ValidationError, looked_up)
            | Some person =>
                let request := all_films_request film_index (person_id person) in
                let films_answer := elastic_search answer.2 request in
                let searched :=
                  after w (redis w) films_answer.2
                    [RedisGet key; ElasticGet index requested; ElasticSearch request] in
                match films_answer.1 with
                | Raise e => (Raise e, searched)
                | Ok response =>
                    match mapM model_init (hit_source <$> response) with
                    | None => (Raise ValidationError, searched)
                    | Some filmworks =>
                        let enriched := set_films person (filmwork_roles person filmworks) in
                        let key' := "persons_" +:+ person_id person in
                        (Ok (Some enriched),
                         after w {| redis_up := true;
                                    redis_data :=
                                      <[key' := (model_dump_json enriched, 300%Z)]>
                                        (redis_data (redis w)) |}
                           films_answer.2
                           [RedisGet key; ElasticGet index requested;
                            ElasticSearch request;
                            RedisSet key' (model_dump_json enriched) 300])
                    end
                end
            end
        end
    end.
Proof.
  intros Hup Hmiss key answer looked_up.
  unfold PersonService.get_by_id. rewrite App_bind_run.
  rewrite (_get_from_cache_miss "persons") by done.
  change ("persons" +:+ "_" +:+ requested) with key.
  rewrite App_bind_run.
  cbn [AbstractSearchService.get_by_id ElasticSearchService.make].
  rewrite ElasticSearchService_get_by_id_run. rewrite after_after. simpl.
  fold answer. subst looked_up.
  destruct answer.1 as [hit|[]]; try reflexivity.
  destruct (hit_source hit) as [|entry d] eqn:Hsource; [reflexivity|].
  rewrite App_bind_run. unfold validated.
  destruct (model_init (entry :: d)) as [person|]; [|reflexivity].
  simpl. rewrite App_bind_run, get_person_films_all_run. cbv zeta. simpl.
  rewrite after_after. simpl.
  destruct (elastic_search answer.2 (all_films_request film_index (person_id person))).1
    as [response|e]; [|reflexivity].
  destruct (mapM model_init (hit_source <$> response)) as [filmworks|]; [|reflexivity].
  rewrite App_bind_run. unfold try_except. rewrite _get_roles_from_filmworks_Ok.
  simpl. rewrite App_bind_run. unfold Service._put_to_cache.
  cbn [cache_put RedisCache.make]. rewrite RedisCache_put_run. simpl. rewrite Hup.
  by rewrite after_after.
Qed.
End Lookups.

Section LookupProperties.
Context `{ElasticClient ES}.
Context {item : Type} `{Model item} `{!JsonCodec item}.
Context `{!Model Genre} `{!JsonCodec Genre}.
Context `{!Model Person} `{!JsonCodec Person} `{!Model Film}.

(** X5: while the cache backend cannot be reached, every lookup by id fails
    with [ConnectionCacheError] right after the cache read, whichever
    search services stand behind the three services: the engine is not
    asked instead, so there is no fallback to it. *)
Theorem cache_outage_fails_every_lookup
    (search_service genre_search_service person_search_service film_search_service :
       AbstractSearchService.t ES)
    (entity_name requested : string) (w : world ES) :
  redis_up (redis w) = false →
  Service.get_by_id (item := item) RedisCache.make search_service entity_name requested w
  = (Raise ConnectionCacheError,
     after w (redis w) (elastic w) [RedisGet (entity_name +:+ "_" +:+ requested)])
  ∧ GenreService.get_by_id RedisCache.make genre_search_service requested w
    = (Raise ConnectionCacheError,
       after w (redis w) (elastic w) [RedisGet ("genres_" +:+ requested)])
  ∧ PersonService.get_by_id RedisCache.make person_search_service film_search_service
      requested w
    = (Raise ConnectionCacheError,
       after w (redis w) (elastic w) [RedisGet ("persons_" +:+ requested)]).
Proof.
  intros Hdown. split_and!.
  - unfold Service.get_by_id. by rewrite App_bind_run, _get_from_cache_any, Hdown.
  - unfold GenreService.get_by_id. by rewrite App_bind_run, _get_from_cache_any, Hdown.
  - unfold PersonService.get_by_id. by rewrite App_bind_run, _get_from_cache_any, Hdown.
Qed.

(** X6: a cached text that is not empty and does not read back as an
    entity makes the lookup raise [ValidationError] right after the cache
    read. The engine is not asked, nothing is logged and the entry stays,
    so the next lookup of that id fails in the same way. This holds for
    the lookup of genres as well: its handler for [ValidationError] starts
    after the cache read. *)
Theorem corrupt_cache_entry_fails_the_lookup
    (search_service genre_search_service person_search_service film_search_service :
       AbstractSearchService.t ES)
    (entity_name requested data : string) (w : world ES) :
  redis_up (redis w) = true →
  data ≠ "" →
  (∀ ttl,
     redis_data (redis w) !! (entity_name +:+ "_" +:+ requested) = Some (data, ttl) →
     model_validate_json (item := item) data = None →
     Service.get_by_id (item := item) RedisCache.make search_service entity_name
       requested w
     = (Raise ValidationError,
        after w (redis w) (elastic w) [RedisGet (entity_name +:+ "_" +:+ requested)]))
  ∧ (∀ ttl,
       redis_data (redis w) !! ("genres_" +:+ requested) = Some (data, ttl) →
       model_validate_json (item := Genre) data = None →
       GenreService.get_by_id RedisCache.make genre_search_service requested w
       = (Raise ValidationError,
          after w (redis w) (elastic w) [RedisGet ("genres_" +:+ requested)]))
  ∧ (∀ ttl,
       redis_data (redis w) !! ("persons_" +:+ requested) = Some (data, ttl) →
       model_validate_json (item := Person) data = None →
       PersonService.get_by_id RedisCache.make person_search_service film_search_service
         requested w
       = (Raise ValidationError,
          after w (redis w) (elastic w) [RedisGet ("persons_" +:+ requested)])).
Proof.
  intros Hup Hdata.
  destruct data as [|c data]; [done|].
  split_and!; intros ttl Hkey Hread.
  - unfold Service.get_by_id.
    by rewrite App_bind_run, _get_from_cache_any, Hup, Hkey, Hread.
  - unfold GenreService.get_by_id.
    rewrite App_bind_run, (_get_from_cache_any "genres"), Hup.
    change ("genres" +:+ "_" +:+ requested) with ("genres_" +:+ requested).
    by rewrite Hkey, Hread.
  - unfold PersonService.get_by_id.
    rewrite App_bind_run, (_get_from_cache_any "persons"), Hup.
    change ("persons" +:+ "_" +:+ requested) with ("persons_" +:+ requested).
    by rewrite Hkey, Hread.
Qed.

Variable index : string.

(** X7: what is falsy counts as absent. An empty cached text is a miss:
    the lookup goes on to the engine, with the outcome, the calls and the
    engine state it would have had without the entry. An engine document
    without any field is no document: the lookup returns absent without
    validating or caching it, whereas the same document in the hits of a
    listing is validated and raises [ValidationError]. *)
Theorem empty_text_and_empty_document_count_as_absent
    (entity_name requested : string) (w : world ES) :
  redis_up (redis w) = true →
  let get_by_id :=
    Service.get_by_id (item := item) RedisCache.make (ElasticSearchService.make index)
      entity_name requested in
  let key := entity_name +:+ "_" +:+ requested in
  let answer := elastic_get (elastic w) index requested in
  (∀ ttl,
     redis_data (redis w) !! key = Some ("", ttl) →
     let without :=
       with_redis {| redis_up := true; redis_data := delete key (redis_data (redis w)) |} w in
     (get_by_id w).1 = (get_by_id without).1
     ∧ trace (get_by_id w).2 = trace (get_by_id without).2
     ∧ elastic (get_by_id w).2 = elastic (get_by_id without).2)
  ∧ (∀ hit,
       cache_miss w key →
       answer.1 = Ok hit →
       hit_source hit = [] →
       get_by_id w
       = (Ok None, after w (redis w) answer.2 [RedisGet key; ElasticGet index requested]))
  ∧ (∀ (raw_items : list document) (w' : world ES),
       [] ∈ raw_items →
       mapM (λ raw_item, validated (model_init (item := item) raw_item)) raw_items w'
       = (Raise ValidationError, w')).
Proof.
  intros Hup get_by_id key answer. subst get_by_id. split_and!.
  - intros ttl Hkey without.
    assert (cache_miss w key) as Hmiss by (unfold cache_miss; by rewrite Hkey).
    assert (cache_miss without key) as Hmiss'.
    { unfold cache_miss, without. simpl. by rewrite lookup_delete_eq. }
    rewrite (Service_get_by_id_miss entity_name index requested w) by done.
    rewrite (Service_get_by_id_miss entity_name index requested without) by done.
    cbv zeta. change (elastic without) with (elastic w). fold answer.
    destruct answer.1 as [hit|[]]; try done.
    destruct (hit_source hit) as [|entry d]; [done|].
    by destruct (model_init (entry :: d)).
  - intros hit Hmiss Hfound Hempty.
    rewrite Service_get_by_id_miss by done. cbv zeta. fold answer key.
    by rewrite Hfound, Hempty.
  - intros raw_items w' Hin. rewrite hydrate_all_run.
    assert (mapM (model_init (item := item)) raw_items = None) as ->; [|done].
    apply eq_None_not_Some. intros [items Hitems].
    apply mapM_Some in Hitems.
    apply list_elem_of_lookup in Hin as [i Hi].
    destruct (Forall2_lookup_l _ _ _ _ _ Hitems Hi) as (it & _ & Hit).
    by apply hydrated_nonempty in Hit.
Qed.

(** X8: the entity that a lookup has fetched and cached is served from the
    cache to the next lookup of the entity's id: one cache read, no engine
    call, the same entity. The cache key is made of the [id] field of the
    document, not of the id that was asked for: if the two differ, the id
    that was asked for is still a miss after the lookup. *)
Theorem second_lookup_is_served_from_the_cache
    (entity_name requested : string) (w : world ES) (hit : es_hit) (it : item) :
  redis_up (redis w) = true →
  cache_miss w (entity_name +:+ "_" +:+ requested) →
  (elastic_get (elastic w) index requested).1 = Ok hit →
  model_init (hit_source hit) = Some it →
  model_dump_json it ≠ "" →
  model_validate_json (model_dump_json it) = Some it →
  let get_by_id :=
    Service.get_by_id (item := item) RedisCache.make (ElasticSearchService.make index)
      entity_name in
  let first := get_by_id requested w in
  first.1 = Ok (Some it)
  ∧ get_by_id (item_id it) first.2
    = (Ok (Some it),
       after first.2 (redis first.2) (elastic first.2)
         [RedisGet (entity_name +:+ "_" +:+ item_id it)])
  ∧ (item_id it ≠ requested → cache_miss first.2 (entity_name +:+ "_" +:+ requested)).
Proof.
  intros Hup Hmiss Hfound Hhydrate Htext Hread get_by_id first.
  subst first get_by_id.
  rewrite (Service_get_by_id_miss entity_name index requested w) by done.
  cbv zeta. rewrite Hfound.
  pose proof (hydrated_nonempty _ _ Hhydrate) as Hne.
  destruct (hit_source hit) as [|entry d] eqn:Hsource; [done|].
  rewrite Hhydrate. split_and!.
  - done.
  - rewrite Service_get_by_id_run. simpl. rewrite lookup_insert_eq.
    destruct (model_dump_json it) as [|c text]; [done|]. by rewrite Hread.
  - intros Hid. unfold cache_miss in *. simpl.
    rewrite lookup_insert_ne; [done|].
    intros Hkey. by apply cache_key_inj in Hkey.
Qed.

(** X9: the lookup of genres overrides the inherited one and differs from
    it only where that one raises [ValidationError]: whenever the inherited
    lookup ends otherwise, be it with an entity, with absent or with
    another exception, the override ends the same way, in the same state
    and after the same calls. *)
Theorem genre_lookup_agrees_with_the_inherited_one (requested : string) (w : world ES) :
  (Service.get_by_id (item := Genre) RedisCache.make (ElasticSearchService.make index)
     "genres" requested w).1 ≠ Raise ValidationError →
  GenreService.get_by_id RedisCache.make (ElasticSearchService.make index) requested w
  = Service.get_by_id RedisCache.make (ElasticSearchService.make index)
      "genres" requested w.
Proof.
  destruct (redis_up (redis w)) eqn:Hup.
  - destruct (redis_data (redis w) !! ("genres_" +:+ requested))
      as [[[|c data] ttl]|] eqn:Hkey.
    + assert (cache_miss w ("genres_" +:+ requested)) as Hmiss
        by (unfold cache_miss; by rewrite Hkey).
      rewrite (Service_get_by_id_miss "genres" index requested w) by done.
      rewrite GenreService_get_by_id_miss by done. cbv zeta.
      destruct (elastic_get (elastic w) index requested).1 as [hit|[]]; try done.
      destruct (hit_source hit) as [|entry d]; [done|].
      by destruct (model_init (entry :: d)).
    + intros _. unfold GenreService.get_by_id, Service.get_by_id.
      rewrite !App_bind_run, !(_get_from_cache_any "genres"), Hup.
      change ("genres" +:+ "_" +:+ requested) with ("genres_" +:+ requested).
      rewrite Hkey. by destruct (model_validate_json (String c data)).
    + assert (cache_miss w ("genres_" +:+ requested)) as Hmiss
        by (unfold cache_miss; by rewrite Hkey).
      rewrite (Service_get_by_id_miss "genres" index requested w) by done.
      rewrite GenreService_get_by_id_miss by done. cbv zeta.
      destruct (elastic_get (elastic w) index requested).1 as [hit|[]]; try done.
      destruct (hit_source hit) as [|entry d]; [done|].
      by destruct (model_init (entry :: d)).
  - intros _. unfold GenreService.get_by_id, Service.get_by_id.
    by rewrite !App_bind_run, !_get_from_cache_any, Hup.
Qed.
End LookupProperties.

(** ** The lookup of people *)

Section PersonLookup.
Context `{ElasticClient ES}.
Context `{!Model Person} `{!JsonCodec Person} `{!Model Film}.
Variables index film_index : string.

(** X10: a person that is not cached and that the engine finds is
    completed with the roles derived from one film search: up to 10000
    films, from offset 0, in which the id of the person (the [id] field of
    the document) stands under actors, directors or writers. The films of
    the document are replaced by one entry per film found, in the order of
    the hits, and the completed person is what is cached, under the
    person's key and for 300 seconds, and returned. *)
Theorem person_lookup_derives_roles_from_one_film_search
    (requested : string) (w : world ES) (hit : es_hit) (person : Person)
    (response : list es_hit) (filmworks : list Film) :
  redis_up (redis w) = true →
  cache_miss w ("persons_" +:+ requested) →
  let answer := elastic_get (elastic w) index requested in
  answer.1 = Ok hit →
  model_init (hit_source hit) = Some person →
  let request :=
    {| es_index := film_index; es_size := 10000; es_from := 0;
       es_query := person_films_query (person_id person);
       es_sort := [("_score", "desc")] |} in
  let films_answer := elastic_search answer.2 request in
  films_answer.1 = Ok response →
  mapM model_init (hit_source <$> response) = Some filmworks →
  let enriched :=
    {| person_id := person_id person; full_name := full_name person;
       films := (λ filmwork, {| person_film_id := film_id filmwork;
                                roles := derived_roles person filmwork |})
                <$> filmworks |} in
  let key' := "persons_" +:+ person_id person in
  PersonService.get_by_id RedisCache.make (ElasticSearchService.make index)
    (ElasticSearchService.make film_index) requested w
  = (Ok (Some enriched),
     after w {| redis_up := true;
                redis_data := <[key' := (model_dump_json enriched, 300%Z)]>
                                (redis_data (redis w)) |}
       films_answer.2
       [RedisGet ("persons_" +:+ requested); ElasticGet index requested;
        ElasticSearch request; RedisSet key' (model_dump_json enriched) 300]).
Proof.
  intros Hup Hmiss answer Hfound Hhydrate request films_answer Hfilms Hfilmworks
    enriched key'.
  rewrite (PersonService_get_by_id_miss index film_index) by done.
  cbv zeta. fold answer. rewrite Hfound.
  pose proof (hydrated_nonempty _ _ Hhydrate) as Hne.
  destruct (hit_source hit) as [|entry d] eqn:Hsource; [done|].
  rewrite Hhydrate.
  change (all_films_request film_index (person_id person)) with request.
  fold films_answer. by rewrite Hfilms, Hfilmworks.
Qed.

(** X11: no run of the lookup of people logs anything. Its handler for
    [ValidationError] covers the derivation of the roles only, which never
    raises; the two steps that validate documents, of the person and of the
    films, stand before it. *)
Theorem person_lookup_never_logs (requested : string) (w : world ES) :
  ∃ events,
    trace (PersonService.get_by_id RedisCache.make (ElasticSearchService.make index)
             (ElasticSearchService.make film_index) requested w).2
    = trace w ++ events
    ∧ forallb (λ ev, negb (is_log ev)) events = true.
Proof.
  destruct (redis_up (redis w)) eqn:Hup.
  - assert (cache_miss w ("persons_" +:+ requested) →
            ∃ events,
              trace (PersonService.get_by_id RedisCache.make
                       (ElasticSearchService.make index)
                       (ElasticSearchService.make film_index) requested w).2
              = trace w ++ events
              ∧ forallb (λ ev, negb (is_log ev)) events = true) as Hmiss.
    { intros Hmiss. rewrite (PersonService_get_by_id_miss index film_index) by done.
      cbv zeta.
      destruct (elastic_get (elastic w) index requested).1 as [hit|e].
      - destruct (hit_source hit) as [|entry d]; [by eexists|].
        destruct (model_init (entry :: d)) as [person|]; [|by eexists].
        destruct (elastic_search _ _).1 as [response|e]; [|by eexists].
        destruct (mapM model_init (hit_source <$> response)); by eexists.
      - destruct e; by eexists. }
    destruct (redis_data (redis w) !! ("persons_" +:+ requested))
      as [[[|c data] ttl]|] eqn:Hkey.
    + apply Hmiss. unfold cache_miss. by rewrite Hkey.
    + unfold PersonService.get_by_id.
      rewrite App_bind_run, (_get_from_cache_any "persons"), Hup.
      change ("persons" +:+ "_" +:+ requested) with ("persons_" +:+ requested).
      rewrite Hkey. destruct (model_validate_json (String c data)); by eexists.
    + apply Hmiss. unfold cache_miss. by rewrite Hkey.
  - unfold PersonService.get_by_id.
    rewrite App_bind_run, (_get_from_cache_any "persons"), Hup. by eexists.
Qed.
End PersonLookup.

(** ** Listings and searches *)

Section SearchesOnly.
Context `{ElasticClient ES}.

Lemma searches_only_ret {A} (a : A) : searches_only (ES := ES) (mret a).
Proof. intros w. split; [|done]. exists []. simpl. by rewrite app_nil_r. Qed.

Lemma searches_only_lift_result {A} (r : result A) : searches_only (ES := ES) (lift_result r).
Proof. intros w. split; [|done]. exists []. simpl. by rewrite app_nil_r. Qed.

Lemma searches_only_validated {A} (o : option A) : searches_only (ES := ES) (validated o).
Proof.
  intros w. split; [|by destruct o]. exists []. destruct o; simpl; by rewrite app_nil_r.
Qed.

Lemma searches_only_bind {A B} (m : App ES A) (f : A → App ES B) :
  searches_only m → (∀ a, searches_only (f a)) → searches_only (m ≫= f).
Proof.
  intros Hm Hf w. destruct (Hm w) as [[requests Htrace] Hblind].
  rewrite App_bind_run.
  destruct (m w) as [[a|e] w1] eqn:Hrun; simpl in *.
  - destruct (Hf a w1) as [[requests' Htrace'] Hblind']. split.
    + exists (requests ++ requests'). by rewrite Htrace', Htrace, fmap_app, app_assoc.
    + intros r. by rewrite App_bind_run, Hblind, Hblind'.
  - split; [by exists requests|].
    intros r. by rewrite App_bind_run, Hblind.
Qed.

Lemma searches_only_fmap {A B} (f : A → B) (m : App ES A) :
  searches_only m → searches_only (f <$> m).
Proof.
  intros Hm. apply searches_only_bind; [done|]. intros a. apply searches_only_ret.
Qed.

Lemma searches_only_mapM {A B} (f : A → App ES B) (l : list A) :
  (∀ x, searches_only (f x)) → searches_only (mapM f l).
Proof.
  intros Hf. induction l as [|x l IH]; [apply searches_only_ret|].
  cbn [mapM]. apply searches_only_bind; [done|]. intros y.
  apply searches_only_bind; [done|]. intros k. apply searches_only_ret.
Qed.

Lemma searches_only_search (index : string) params nested_objects search_query :
  searches_only (ElasticSearchService._search index params nested_objects search_query).
Proof.
  intros w. split.
  - rewrite _search_run. destruct (search_request_of _ _ _ _) as [request|e].
    + cbv zeta. exists [request]. by destruct (elastic_search (elastic w) request).1.
    + exists []. simpl. by rewrite app_nil_r.
  - intros r. rewrite !_search_run.
    destruct (search_request_of _ _ _ _) as [request|e]; [|done].
    cbv zeta. simpl. by destruct (elastic_search (elastic w) request).1.
Qed.

Context `{!Model Film} `{!Model Genre} `{!Model Person}.
Variables index film_index : string.

Lemma searches_only_get_person_films (person_id' : string) (params : CommonQueryParams) :
  searches_only
    (FilmService.get_person_films (ElasticSearchService.make film_index) person_id' params).
Proof.
  apply searches_only_bind; [apply searches_only_search|].
  intros raw. apply searches_only_mapM. intros d. apply searches_only_validated.
Qed.

(** X12: the listings and searches of the three services, and the
    inherited [get_by_text_field], never touch the cache. The only calls
    they make are searches of the engine; the cache is left as it was; and
    they run the same way whatever the cache holds and whether or not its
    backend can be reached, so a cache outage does not affect them. *)
Theorem listings_never_touch_the_cache :
  (∀ text query_params,
     searches_only
       (FilmService.search (ElasticSearchService.make index) text query_params))
  ∧ (∀ query_params genre,
       searches_only
         (FilmService.get_films (ElasticSearchService.make index) query_params genre))
  ∧ (∀ person_id' params,
       searches_only
         (FilmService.get_person_films (ElasticSearchService.make index) person_id' params))
  ∧ (∀ params,
       searches_only (GenreService.get_list (ElasticSearchService.make index) params))
  ∧ (∀ query params,
       searches_only
         (PersonService.search (ElasticSearchService.make index)
            (ElasticSearchService.make film_index) query params))
  ∧ (∀ person_id' params,
       searches_only
         (PersonService.get_person_films (ElasticSearchService.make film_index)
            person_id' params))
  ∧ (∀ item (has_id : HasId item) (model : Model item) search_field search_text,
       searches_only
         (Service.get_by_text_field (item := item) (ElasticSearchService.make index)
            search_field search_text)).
Proof.
  assert (∀ (A : Type) (f : document → option A) raw,
            searches_only (ES := ES) (mapM (λ d, validated (f d)) raw)) as Hhydrate.
  { intros A f raw. apply searches_only_mapM. intros d. apply searches_only_validated. }
  split_and!.
  - intros text query_params.
    apply searches_only_bind; [apply searches_only_search | intros; apply Hhydrate].
  - intros query_params genre.
    apply searches_only_bind; [apply searches_only_search | intros; apply Hhydrate].
  - intros person_id' params.
    apply searches_only_bind; [apply searches_only_search | intros; apply Hhydrate].
  - intros params.
    apply searches_only_bind; [apply searches_only_search | intros; apply Hhydrate].
  - intros query params.
    apply searches_only_bind; [apply searches_only_search|]. intros raw.
    apply searches_only_bind; [apply Hhydrate|]. intros persons.
    apply searches_only_mapM. intros person.
    apply searches_only_bind; [apply searches_only_get_person_films|]. intros filmworks.
    apply searches_only_bind; [apply searches_only_lift_result|]. intros films.
    apply searches_only_ret.
  - intros person_id' params. apply searches_only_get_person_films.
  - intros item has_id model search_field search_text.
    apply searches_only_bind; [apply searches_only_search|]. intros _.
    apply searches_only_bind; [apply searches_only_search|]. intros [|first rest].
    + apply searches_only_ret.
    + apply searches_only_fmap, searches_only_validated.
Qed.

(** The second loop of [PersonService.search]: one film search per person,
    answered by the engine one after the other; the ids and names of the
    people are kept, and the films of each are the roles derived from the
    answer to their own search. *)
Lemma person_search_loop (persons enriched : list Person) (w w' : world ES) :
  mapM (λ person,
          related_filmworks ← FilmService.get_person_films
                                 (ElasticSearchService.make film_index)
                                 (person_id person) PersonService.all_films_params;
          films ← lift_result
                     (PersonService._get_roles_from_filmworks person related_filmworks);
          mret (set_films person films))
       persons w
  = (Ok enriched, w') →
  let film_requests :=
    (λ person, all_films_request film_index (person_id person)) <$> persons in
  let answers := search_chain film_requests (elastic w) in
  w' = after w (redis w) answers.2 (ElasticSearch <$> film_requests)
  ∧ Forall2 (λ person person',
               person_id person' = person_id person
               ∧ full_name person' = full_name person)
      persons enriched
  ∧ Forall2 (λ person' answer,
               ∃ film_hits filmworks,
                 answer = Ok film_hits
                 ∧ mapM model_init (hit_source <$> film_hits) = Some filmworks
                 ∧ films person' = filmwork_roles person' filmworks)
      enriched answers.1.
Proof.
  revert enriched w. induction persons as [|person persons IH]; intros enriched w.
  - intros [= <- <-]. split_and!; [|constructor|constructor].
    destruct w. unfold after. simpl. by rewrite app_nil_r.
  - cbn [mapM]. rewrite App_bind_run, App_bind_run, get_person_films_all_run.
    cbv zeta.
    destruct (elastic_search (elastic w) (all_films_request film_index (person_id person))).1
      as [response|e] eqn:Hresponse; [|done].
    destruct (mapM model_init (hit_source <$> response)) as [filmworks|] eqn:Hfilmworks;
      [|done].
    rewrite App_bind_run. unfold lift_result at 1.
    rewrite _get_roles_from_filmworks_Ok.
    rewrite App_ret_run.
    cbv beta iota. rewrite App_bind_run.
    match goal with
    | |- context [mapM ?f persons ?w0] =>
        destruct (mapM f persons w0) as [[rest|e] w1] eqn:Hrest; [|done]
    end.
    intros [= <- <-]. apply IH in Hrest as (Hstate & Hpersons & Hfilms).
    cbn [fmap list_fmap search_chain fst snd]. simpl in Hstate, Hfilms.
    split_and!.
    + rewrite Hstate. unfold after. simpl. by rewrite <-app_assoc.
    + by constructor.
    + constructor; [|done]. exists response, filmworks. rewrite Hresponse.
      split_and!; [done|done|]. simpl. by apply filmwork_roles_full_name.
Qed.

(** X13: a search of people that returns has made one search of the index
    of people, for the page asked for, and then one film search per person
    returned, in the order of the result: each for up to 10000 films in
    which the id of that person stands under actors, directors or writers.
    The people returned are the hits of the first search, in order, with
    the id and the name of their documents; the films of each are exactly
    the roles derived from the films the engine answered to that person's
    own search, one entry per film and in the order of the hits. The cache
    is left as it was. *)
Theorem person_search_makes_one_film_search_per_person
    (query : string) (params : CommonQueryParams) (w w' : world ES)
    (persons : list Person) :
  PersonService.search (ElasticSearchService.make index)
    (ElasticSearchService.make film_index) query params w
  = (Ok persons, w') →
  ∃ request hits,
    search_request_of index (Some params) None (text_predicate (Some query) ["full_name"])
    = Ok request
    ∧ (elastic_search (elastic w) request).1 = Ok hits
    ∧ let film_requests :=
        (λ person, all_films_request film_index (person_id person)) <$> persons in
      let answers := search_chain film_requests (elastic_search (elastic w) request).2 in
      w' = after w (redis w) answers.2
             (ElasticSearch request :: (ElasticSearch <$> film_requests))
      ∧ Forall2 (λ hit person,
                   ∃ found,
                     model_init (hit_source hit) = Some found
                     ∧ person_id person = person_id found
                     ∧ full_name person = full_name found)
          hits persons
      ∧ Forall2 (λ person answer,
                   ∃ film_hits filmworks,
                     answer = Ok film_hits
                     ∧ mapM model_init (hit_source <$> film_hits) = Some filmworks
                     ∧ films person
                       = (λ filmwork, {| person_film_id := film_id filmwork;
                                         roles := derived_roles person filmwork |})
                         <$> filmworks)
          persons answers.1.
Proof.
  unfold PersonService.search. rewrite App_bind_run.
  cbn [AbstractSearchService.text_search ElasticSearchService.make].
  unfold ElasticSearchService.text_search. cbv zeta. rewrite _search_run.
  destruct (search_request_of _ _ _ _) as [request|e]; [|done]. cbv zeta.
  destruct (elastic_search (elastic w) request).1 as [hits|e] eqn:Hhits; [|done].
  rewrite App_bind_run, hydrate_all_run.
  destruct (mapM model_init (hit_source <$> hits)) as [found|] eqn:Hfound; [|done].
  intros (Hstate & Hpersons & Hfilms)%person_search_loop.
  exists request, hits. split; [done|]. split; [done|]. simpl in Hstate, Hfilms.
  assert ((λ person, all_films_request film_index (person_id person)) <$> persons
          = (λ person, all_films_request film_index (person_id person)) <$> found)
    as Hrequests.
  { clear -Hpersons. induction Hpersons as [|person person' found persons [Hid _] _ IH];
      [done|]. by rewrite !fmap_cons, IH, Hid. }
  cbv zeta. rewrite Hrequests. split_and!.
  - rewrite Hstate. unfold after. simpl. by rewrite <-app_assoc.
  - apply mapM_Some in Hfound. rewrite Forall2_fmap_l in Hfound.
    clear -Hfound Hpersons. revert persons Hpersons.
    induction Hfound as [|hit person0 hits found Hhit _ IH]; intros persons Hpersons.
    + apply Forall2_nil_inv_l in Hpersons as ->. constructor.
    + apply Forall2_cons_inv_l in Hpersons as (person' & rest & [Hid Hname] & Hrest & ->).
      constructor; [|by apply IH]. by exists person0.
  - done.
Qed.
End SearchesOnly.

(** ** Errors of the engine *)

(** X14: of the errors of the engine client, only not-found is turned into
    absent, and only by the lookup by id; every other error of a lookup
    reaches the caller of [get_by_id], after the cache read and the one
    engine call and with nothing cached. The search behind every listing
    has no handler: whatever the client raises reaches the caller,
    not-found (such as a missing index) included. *)
Theorem only_not_found_becomes_absent :
  ∀ ES (client : ElasticClient ES) (index : string) (w : world ES),
    (∀ id,
       let answer := elastic_get (elastic w) index id in
       ((ElasticSearchService.get_by_id index id w).1 = Ok None
        ↔ answer.1 = Raise NotFoundError)
       ∧ ∀ e, e ≠ NotFoundError → answer.1 = Raise e →
           ElasticSearchService.get_by_id index id w
           = (Raise e, after w (redis w) answer.2 [ElasticGet index id]))
    ∧ (∀ item (has_id : HasId item) (model : Model item) (codec : JsonCodec item)
         entity_name id e,
         let answer := elastic_get (elastic w) index id in
         redis_up (redis w) = true →
         cache_miss w (entity_name +:+ "_" +:+ id) →
         e ≠ NotFoundError →
         answer.1 = Raise e →
         Service.get_by_id (item := item) RedisCache.make (ElasticSearchService.make index)
           entity_name id w
         = (Raise e,
            after w (redis w) answer.2
              [RedisGet (entity_name +:+ "_" +:+ id); ElasticGet index id]))
    ∧ (∀ params nested_objects search_query request e,
         search_request_of index params nested_objects search_query = Ok request →
         (elastic_search (elastic w) request).1 = Raise e →
         ElasticSearchService._search index params nested_objects search_query w
         = (Raise e,
            after w (redis w) (elastic_search (elastic w) request).2
              [ElasticSearch request])).
Proof.
  intros ES client index w. split_and!.
  - intros id answer. rewrite ElasticSearchService_get_by_id_run. fold answer. simpl.
    split.
    + split.
      * by destruct answer.1 as [hit|[]].
      * by intros ->.
    + intros e He ->. by destruct e.
  - intros item has_id model codec entity_name id e answer Hup Hmiss He Hanswer.
    rewrite Service_get_by_id_miss by done. cbv zeta. fold answer.
    rewrite Hanswer. by destruct e.
  - intros params nested_objects search_query request e Hrequest Hanswer.
    by rewrite _search_run, Hrequest; cbv zeta; rewrite Hanswer.
Qed.

(** ** One cache for three services *)

Section SharedCache.
Context `{ElasticClient ES}.
Context `{!Model Film} `{!JsonCodec Film}.
Context `{!Model Genre} `{!JsonCodec Genre}.
Context `{!Model Person} `{!JsonCodec Person}.
Variables index film_index : string.

Lemma wrote_at_most_other_key (entity_name key : string) (w w' : world ES) :
  wrote_at_most entity_name w w' →
  (∀ id, key ≠ entity_name +:+ "_" +:+ id) →
  redis_data (redis w') !! key = redis_data (redis w) !! key.
Proof.
  intros [-> | (id & text & ->)] Hkey; [done|]. simpl.
  apply lookup_insert_ne. intros Heq. by apply (Hkey id).
Qed.

Lemma Service_get_by_id_wrote {item} `{Model item} `{!JsonCodec item}
    (entity_name requested : string) (w : world ES) :
  wrote_at_most entity_name w
    (Service.get_by_id (item := item) RedisCache.make (ElasticSearchService.make index)
       entity_name requested w).2.
Proof.
  destruct (redis_up (redis w)) eqn:Hup.
  - assert (cache_miss w (entity_name +:+ "_" +:+ requested) →
            wrote_at_most entity_name w
              (Service.get_by_id (item := item) RedisCache.make
                 (ElasticSearchService.make index) entity_name requested w).2) as Hmiss.
    { intros Hmiss. rewrite Service_get_by_id_miss by done. cbv zeta.
      destruct (elastic_get (elastic w) index requested).1 as [hit|e].
      - destruct (hit_source hit) as [|entry d]; [by left|].
        destruct (model_init (entry :: d)) as [it|]; [|by left].
        right. by eexists _, _.
      - left. by destruct e. }
    destruct (redis_data (redis w) !! (entity_name +:+ "_" +:+ requested))
      as [[[|c data] ttl]|] eqn:Hkey.
    + apply Hmiss. unfold cache_miss. by rewrite Hkey.
    + rewrite Service_get_by_id_run, Hup, Hkey. left.
      by destruct (model_validate_json (String c data)).
    + apply Hmiss. unfold cache_miss. by rewrite Hkey.
  - rewrite Service_get_by_id_run, Hup. by left.
Qed.

Lemma GenreService_get_by_id_wrote (requested : string) (w : world ES) :
  wrote_at_most "genres" w
    (GenreService.get_by_id RedisCache.make (ElasticSearchService.make index)
       requested w).2.
Proof.
  destruct (redis_up (redis w)) eqn:Hup.
  - assert (cache_miss w ("genres_" +:+ requested) →
            wrote_at_most "genres" w
              (GenreService.get_by_id RedisCache.make (ElasticSearchService.make index)
                 requested w).2) as Hmiss.
    { intros Hmiss. rewrite GenreService_get_by_id_miss by done. cbv zeta.
      destruct (elastic_get (elastic w) index requested).1 as [hit|e].
      - destruct (hit_source hit) as [|entry d]; [by left|].
        destruct (model_init (entry :: d)) as [genre|]; [|by left].
        right. by eexists _, _.
      - left. by destruct e. }
    destruct (redis_data (redis w) !! ("genres_" +:+ requested))
      as [[[|c data] ttl]|] eqn:Hkey.
    + apply Hmiss. unfold cache_miss. by rewrite Hkey.
    + unfold GenreService.get_by_id.
      rewrite App_bind_run, (_get_from_cache_any "genres"), Hup.
      change ("genres" +:+ "_" +:+ requested) with ("genres_" +:+ requested).
      rewrite Hkey. left. by destruct (model_validate_json (String c data)).
    + apply Hmiss. unfold cache_miss. by rewrite Hkey.
  - unfold GenreService.get_by_id.
    rewrite App_bind_run, (_get_from_cache_any "genres"), Hup. by left.
Qed.

Lemma PersonService_get_by_id_wrote (requested : string) (w : world ES) :
  wrote_at_most "persons" w
    (PersonService.get_by_id RedisCache.make (ElasticSearchService.make index)
       (ElasticSearchService.make film_index) requested w).2.
Proof.
  destruct (redis_up (redis w)) eqn:Hup.
  - assert (cache_miss w ("persons_" +:+ requested) →
            wrote_at_most "persons" w
              (PersonService.get_by_id RedisCache.make (ElasticSearchService.make index)
                 (ElasticSearchService.make film_index) requested w).2) as Hmiss.
    { intros Hmiss. rewrite (PersonService_get_by_id_miss index film_index) by done.
      cbv zeta.
      destruct (elastic_get (elastic w) index requested).1 as [hit|e].
      - destruct (hit_source hit) as [|entry d]; [by left|].
        destruct (model_init (entry :: d)) as [person|]; [|by left].
        destruct (elastic_search _ _).1 as [response|e]; [|by left].
        destruct (mapM model_init (hit_source <$> response)); [|by left].
        right. by eexists _, _.
      - left. by destruct e. }
    destruct (redis_data (redis w) !! ("persons_" +:+ requested))
      as [[[|c data] ttl]|] eqn:Hkey.
    + apply Hmiss. unfold cache_miss. by rewrite Hkey.
    + unfold PersonService.get_by_id.
      rewrite App_bind_run, (_get_from_cache_any "persons"), Hup.
      change ("persons" +:+ "_" +:+ requested) with ("persons_" +:+ requested).
      rewrite Hkey. left. by destruct (model_validate_json (String c data)).
    + apply Hmiss. unfold cache_miss. by rewrite Hkey.
  - unfold PersonService.get_by_id.
    rewrite App_bind_run, (_get_from_cache_any "persons"), Hup. by left.
Qed.

(** X15: the three services share one cache and keep apart in it. The keys
    of films, genres and people never coincide, whatever the ids, and two
    ids of one service never share a key; so a lookup of one service, in
    any state and however it ends, leaves every entry of the other two
    services as it was. *)
Theorem lookups_keep_the_entries_of_the_other_services :
  (∀ id id',
     FilmService.entity_name +:+ "_" +:+ id ≠ GenreService.entity_name +:+ "_" +:+ id'
     ∧ FilmService.entity_name +:+ "_" +:+ id ≠ PersonService.entity_name +:+ "_" +:+ id'
     ∧ GenreService.entity_name +:+ "_" +:+ id ≠ PersonService.entity_name +:+ "_" +:+ id')
  ∧ (∀ entity_name id id',
       entity_name +:+ "_" +:+ id = entity_name +:+ "_" +:+ id' → id = id')
  ∧ (∀ requested id' (w : world ES),
       let stored (w' : world ES) key := redis_data (redis w') !! key in
       let after_film :=
         (FilmService.get_by_id RedisCache.make (ElasticSearchService.make index)
            requested w).2 in
       let after_genre :=
         (GenreService.get_by_id RedisCache.make (ElasticSearchService.make index)
            requested w).2 in
       let after_person :=
         (PersonService.get_by_id RedisCache.make (ElasticSearchService.make index)
            (ElasticSearchService.make film_index) requested w).2 in
       stored after_film ("genres_" +:+ id') = stored w ("genres_" +:+ id')
       ∧ stored after_film ("persons_" +:+ id') = stored w ("persons_" +:+ id')
       ∧ stored after_genre ("movies_" +:+ id') = stored w ("movies_" +:+ id')
       ∧ stored after_genre ("persons_" +:+ id') = stored w ("persons_" +:+ id')
       ∧ stored after_person ("movies_" +:+ id') = stored w ("movies_" +:+ id')
       ∧ stored after_person ("genres_" +:+ id') = stored w ("genres_" +:+ id')).
Proof.
  split_and!.
  - intros id id'. by split_and!.
  - apply cache_key_inj.
  - intros requested id' w stored after_film after_genre after_person.
    subst stored after_film after_genre after_person. cbv beta.
    split_and!.
    + by apply (wrote_at_most_other_key "movies"); [apply Service_get_by_id_wrote|].
    + by apply (wrote_at_most_other_key "movies"); [apply Service_get_by_id_wrote|].
    + by apply (wrote_at_most_other_key "genres"); [apply GenreService_get_by_id_wrote|].
    + by apply (wrote_at_most_other_key "genres"); [apply GenreService_get_by_id_wrote|].
    + by apply (wrote_at_most_other_key "persons"); [apply PersonService_get_by_id_wrote|].
    + by apply (wrote_at_most_other_key "persons"); [apply PersonService_get_by_id_wrote|].
Qed.
End SharedCache.

(** ** The request handlers *)

Section Handlers.
Context `{ElasticClient ES}.
Context `{!Model Film} `{!JsonCodec Film} `{!Model Genre} `{!JsonCodec Genre}.
Variable genre_index : string.

(** [get_by_text_field] in every state. *)
Lemma get_by_text_field_run {item} `{Model item} (search_field search_text : string)
    (w : world ES) :
  let request := text_field_request genre_index search_field search_text in
  let first := elastic_search (elastic w) request in
  let second := elastic_search first.2 request in
  Service.get_by_text_field (item := item) (ElasticSearchService.make genre_index)
    search_field search_text w
  = match first.1 with
    | Raise e => (Raise e, after w (redis w) first.2 [ElasticSearch request])
    | Ok _ =>
        (match second.1 with
         | Raise e => Raise e
         | Ok [] => Ok None
         | Ok (hit :: _) =>
             match model_validate (hit_source hit) with
             | Some it => Ok (Some it)
             | None => Raise ValidationError
             end
         end,
         after w (redis w) second.2 [ElasticSearch request; ElasticSearch request])
    end.
Proof.
  intros request first second.
  assert (search_request_of genre_index None None
            (text_predicate (Some search_text) [search_field]) = Ok request) as Hrequest.
  { subst request. by destruct search_text. }
  unfold Service.get_by_text_field. rewrite App_bind_run.
  cbn [AbstractSearchService.text_search ElasticSearchService.make].
  unfold ElasticSearchService.text_search. cbv zeta.
  rewrite _search_run, Hrequest. cbv beta iota zeta. fold first.
  destruct first.1 as [first_response|e]; [|done].
  rewrite App_bind_run, _search_run, Hrequest. cbv beta iota zeta. simpl.
  fold first second. unfold after. simpl. rewrite <-app_assoc. simpl.
  destruct second.1 as [[|hit rest]|e]; try done.
  rewrite fmap_cons. cbv beta iota.
  unfold fmap, App_fmap. rewrite App_bind_run. unfold validated.
  by destruct (model_validate (hit_source hit)).
Qed.

(** The comprehension of [film_details]: two searches per name, in the
    order of the names, answered by the engine one after the other; each
    genre is the first hit of the second answer for its name, and no call is
    made to the cache. *)
Lemma genres_by_name_loop (names : list string) (found : list (option Genre))
    (w w' : world ES) :
  mapM (λ name,
          Service.get_by_text_field (item := Genre)
            (ElasticSearchService.make genre_index) "name" name)
       names w
  = (Ok found, w') →
  let requests :=
    names ≫= λ name, [text_field_request genre_index "name" name;
                      text_field_request genre_index "name" name] in
  let answers := search_chain requests (elastic w) in
  w' = after w (redis w) answers.2 (ElasticSearch <$> requests)
  ∧ Forall (λ answer, ∃ hits, answer = Ok hits) answers.1
  ∧ Forall2 (λ answer genre, ∃ hits, answer = Ok hits ∧ first_hit hits = Ok genre)
      (seconds answers.1) found.
Proof.
  revert found w. induction names as [|name names IH]; intros found w.
  - intros [= <- <-]. split_and!; [|constructor|constructor].
    destruct w. unfold after. simpl. by rewrite app_nil_r.
  - cbn [mapM]. rewrite App_bind_run, get_by_text_field_run. cbv zeta.
    set (request := text_field_request genre_index "name" name).
    destruct (elastic_search (elastic w) request).1 as [first_response|e] eqn:Hfirst;
      [|done].
    destruct (elastic_search (elastic_search (elastic w) request).2 request).1
      as [second_response|e] eqn:Hsecond; [|by destruct (elastic_search _ _).1].
    change (match second_response with
            | [] => Ok None
            | hit :: _ =>
                match model_validate (hit_source hit) with
                | Some it => Ok (Some it)
                | None => Raise ValidationError
                end
            end) with (first_hit (item := Genre) second_response).
    destruct (first_hit second_response) as [genre|e] eqn:Hgenre; [|done].
    rewrite App_bind_run.
    match goal with
    | |- context [mapM ?f names ?w0] =>
        destruct (mapM f names w0) as [[rest|e] w2] eqn:Hrest; [|done]
    end.
    intros [= <- <-]. apply IH in Hrest as (Hstate & Hanswers & Hfound).
    simpl in Hstate, Hanswers, Hfound.
    cbn [mbind list_bind fmap list_fmap app search_chain fst snd seconds].
    fold request. rewrite Hfirst, Hsecond. split_and!.
    + rewrite Hstate. unfold after. simpl. by rewrite <-app_assoc.
    + constructor; [by eexists|]. constructor; [by eexists|]. done.
    + constructor; [|done]. by exists second_response.
Qed.

(** X16: [film_details] answers a film that the film service finds with
    the fields of that film, its people under [uuid] and [full_name], and
    the genres resolved by name. For each genre name of the film, in
    order, the same search of the index of genres is made twice; the
    genre of a name is the entity of the first hit of the second answer;
    a name whose second answer has no hit is left out of the response
    without a word, and the genres of the response are those of the other
    names, in order. For the genres nothing is read from or written to
    the cache. *)
Theorem film_details_resolves_every_genre_by_two_searches
    (cache : Cache ES) (film_search_service : AbstractSearchService.t ES)
    (film_id' : string) (w w1 w' : world ES) (film : Film)
    (response : http_response FilmsApi.FilmOut) :
  FilmService.get_by_id cache film_search_service film_id' w = (Ok (Some film), w1) →
  FilmsApi.film_details cache film_search_service (ElasticSearchService.make genre_index)
    film_id' w
  = (Ok response, w') →
  let requests :=
    genres film ≫= λ name, [text_field_request genre_index "name" name;
                            text_field_request genre_index "name" name] in
  let answers := search_chain requests (elastic w1) in
  ∃ found : list (option Genre),
    Forall2 (λ answer genre, ∃ hits, answer = Ok hits ∧ first_hit hits = Ok genre)
      (seconds answers.1) found
    ∧ length found = length (genres film)
    ∧ response
      = Respond
          {| FilmsApi.out_uuid := film_id film;
             FilmsApi.out_title := title film;
             FilmsApi.out_description := description film;
             FilmsApi.out_imdb_rating := imdb_rating film;
             FilmsApi.out_genre :=
               (λ genre, {| FilmsApi.genre_uuid := genre_id genre;
                            FilmsApi.genre_out_name := genre_name genre |})
               <$> omap id found;
             FilmsApi.out_actors :=
               (λ p, {| FilmsApi.person_uuid := film_person_id p;
                        FilmsApi.person_full_name := film_person_name p |})
               <$> actors film;
             FilmsApi.out_writers :=
               (λ p, {| FilmsApi.person_uuid := film_person_id p;
                        FilmsApi.person_full_name := film_person_name p |})
               <$> writers film;
             FilmsApi.out_directors :=
               (λ p, {| FilmsApi.person_uuid := film_person_id p;
                        FilmsApi.person_full_name := film_person_name p |})
               <$> directors film |}
    ∧ w' = after w1 (redis w1) answers.2 (ElasticSearch <$> requests).
Proof.
  intros Hfilm. unfold FilmsApi.film_details. rewrite App_bind_run, Hfilm.
  rewrite App_bind_run.
  match goal with
  | |- context [mapM ?f (genres film) w1] =>
      destruct (mapM f (genres film) w1) as [[found|e] w2] eqn:Hfound; [|done]
  end.
  intros [= <- <-].
  apply genres_by_name_loop in Hfound as (Hstate & _ & Hfound).
  exists found. split_and!; [done| |done|done].
  apply Forall2_length in Hfound. rewrite <-Hfound.
  clear. generalize (elastic w1). induction (genres film) as [|name names IH];
    intros es; [done|].
  cbn [mbind list_bind fmap list_fmap app search_chain fst snd seconds length].
  by rewrite IH.
Qed.

(** X17: a genre whose document does not validate is reported as a genre
    that does not exist. The lookup of genres logs the document and
    returns absent, so [genre_details] answers 404, and so does the film
    listing filtered by that genre, which stops there: no film search is
    made. *)
Theorem invalid_genre_document_is_reported_as_not_found
    (film_search_service : AbstractSearchService.t ES)
    (query_params : CommonQueryParams) (requested : string) (w : world ES)
    (hit : es_hit) :
  redis_up (redis w) = true →
  cache_miss w ("genres_" +:+ requested) →
  (elastic_get (elastic w) genre_index requested).1 = Ok hit →
  hit_source hit ≠ [] →
  model_init (item := Genre) (hit_source hit) = None →
  requested ≠ "" →
  let logged :=
    after w (redis w) (elastic_get (elastic w) genre_index requested).2
      [RedisGet ("genres_" +:+ requested); ElasticGet genre_index requested;
       LogError "Error while validating " (Some (hit_source hit))] in
  GenresApi.genre_details RedisCache.make (ElasticSearchService.make genre_index)
    requested w
  = (Ok (HTTPException 404 "genre not found"), logged)
  ∧ FilmsApi.films RedisCache.make film_search_service
      (ElasticSearchService.make genre_index) query_params (Some requested) w
    = (Ok (HTTPException 404 "genre not found"), logged).
Proof.
  intros Hup Hmiss Hfound Hne Hinvalid Hrequested logged.
  assert (GenreService.get_by_id RedisCache.make (ElasticSearchService.make genre_index)
            requested w = (Ok None, logged)) as Hgenre.
  { rewrite GenreService_get_by_id_miss by done. cbv zeta. rewrite Hfound.
    destruct (hit_source hit) as [|entry d] eqn:Hsource; [done|]. by rewrite Hinvalid. }
  split.
  - unfold GenresApi.genre_details. by rewrite App_bind_run, Hgenre.
  - unfold FilmsApi.films. destruct requested as [|c requested]; [done|].
    by rewrite App_bind_run, Hgenre.
Qed.
End Handlers.

Section ListingHandlers.
Context `{ElasticClient ES}.
Context `{!Model Film} `{!Model Genre} `{!JsonCodec Genre} `{!Model Person}.

Lemma respond_run {A} (m : App ES A) (w w' : world ES) (out : http_response A) :
  (Respond <$> m) w = (Ok out, w') → ∃ body, m w = (Ok body, w') ∧ out = Respond body.
Proof.
  unfold fmap, App_fmap. rewrite App_bind_run.
  destruct (m w) as [[body|e] w1]; [|done]. intros [= <- <-]. by exists body.
Qed.

(** X18: the handlers that list or search never raise [HTTPException]:
    whenever [genre_list], [person_search], [person_filmworks], the film
    [search] or the film listing without a genre returns, it returns a
    response body, whatever the search service answered. In particular an
    engine answer without hits gives the empty list as a normal response,
    not a 404. *)
Theorem listing_handlers_never_answer_not_found :
  (∀ (search_service film_search_service : AbstractSearchService.t ES) (w w' : world ES),
     (∀ params out,
        GenresApi.genre_list search_service params w = (Ok out, w') →
        ∃ body, out = Respond body)
     ∧ (∀ query params out,
          PersonsApi.person_search search_service film_search_service query params w
          = (Ok out, w') →
          ∃ body, out = Respond body)
     ∧ (∀ person_id' params out,
          PersonsApi.person_filmworks film_search_service person_id' params w
          = (Ok out, w') →
          ∃ body, out = Respond body)
     ∧ (∀ query_params query out,
          FilmsApi.search film_search_service query_params query w = (Ok out, w') →
          ∃ body, out = Respond body)
     ∧ (∀ (cache : Cache ES) query_params genre_uuid' out,
          genre_uuid' = None ∨ genre_uuid' = Some "" →
          FilmsApi.films cache film_search_service search_service query_params genre_uuid' w
          = (Ok out, w') →
          ∃ body, out = Respond body))
  ∧ (∀ (index : string) params request (w : world ES),
       search_request_of index (Some params) None None = Ok request →
       (elastic_search (elastic w) request).1 = Ok [] →
       GenresApi.genre_list (ElasticSearchService.make index) params w
       = (Ok (Respond []),
          after w (redis w) (elastic_search (elastic w) request).2
            [ElasticSearch request])).
Proof.
  split.
  - intros search_service film_search_service w w'. split_and!.
    + intros params out (body & _ & ->)%respond_run. by exists body.
    + intros query params out (body & _ & ->)%respond_run. by exists body.
    + intros person_id' params out (body & _ & ->)%respond_run. by exists body.
    + intros query_params query out. unfold FilmsApi.search. rewrite App_bind_run.
      destruct (FilmService.search _ _ _ w) as [[films|e] w1]; [|done].
      intros [= <- <-]. by eexists.
    + intros cache query_params genre_uuid' out Hgenre.
      assert (FilmsApi.films cache film_search_service search_service query_params
                genre_uuid' w
              = (films ← FilmService.get_films film_search_service query_params None;
                 mret (Respond (FilmsApi.short_out <$> films))) w) as ->.
      { by destruct Hgenre as [-> | ->]. }
      rewrite App_bind_run.
      destruct (FilmService.get_films _ _ _ w) as [[films|e] w1]; [|done].
      intros [= <- <-]. by eexists.
  - intros index params request w Hrequest Hanswer.
    unfold GenresApi.genre_list, fmap, App_fmap. rewrite App_bind_run.
    unfold GenreService.get_list. rewrite App_bind_run.
    cbn [AbstractSearchService.get_list ElasticSearchService.make].
    unfold ElasticSearchService.get_list.
    by rewrite _search_run, Hrequest; cbv beta iota zeta; rewrite Hanswer.
Qed.
End ListingHandlers.

(** ** The further properties on the catalogue *)

Section FurtherOnTheCatalogue.
Import Catalogue.

(** The three lookups while the cache backend is down. *)
Lemma cache_outage_fails_every_lookup_witness :
  Service.get_by_id (item := Film) RedisCache.make (ElasticSearchService.make "movies")
    "movies" "f1" outage
  = (Raise ConnectionCacheError, after outage (redis outage) studio [RedisGet "movies_f1"])
  ∧ GenreService.get_by_id RedisCache.make (ElasticSearchService.make "genres") "f1" outage
    = (Raise ConnectionCacheError,
       after outage (redis outage) studio [RedisGet "genres_f1"])
  ∧ PersonService.get_by_id RedisCache.make (ElasticSearchService.make "persons")
      (ElasticSearchService.make "movies") "f1" outage
    = (Raise ConnectionCacheError,
       after outage (redis outage) studio [RedisGet "persons_f1"]).
Proof.
  apply (cache_outage_fails_every_lookup (item := Film)
           (ElasticSearchService.make "movies") (ElasticSearchService.make "genres")
           (ElasticSearchService.make "persons") (ElasticSearchService.make "movies")
           "movies" "f1" outage).
  reflexivity.
Defined.

(** The text [Drama] under the key of the Drama genre. *)
Lemma corrupt_cache_entry_fails_the_lookup_witness :
  Service.get_by_id (item := Genre) RedisCache.make (ElasticSearchService.make "genres")
    "genres" "g1" spoiled
  = (Raise ValidationError, after spoiled (redis spoiled) studio [RedisGet "genres_g1"])
  ∧ GenreService.get_by_id RedisCache.make (ElasticSearchService.make "genres") "g1" spoiled
    = (Raise ValidationError, after spoiled (redis spoiled) studio [RedisGet "genres_g1"]).
Proof.
  destruct (corrupt_cache_entry_fails_the_lookup (item := Genre)
              (ElasticSearchService.make "genres") (ElasticSearchService.make "genres")
              (ElasticSearchService.make "persons") (ElasticSearchService.make "movies")
              "genres" "g1" "Drama" spoiled)
    as (Hbase & Hgenre & _); [reflexivity | discriminate |].
  split.
  - apply (Hbase 300%Z); reflexivity.
  - apply (Hgenre 300%Z); reflexivity.
Defined.

(** The empty text under the key of Alice: she is fetched from the engine
    as if nothing were cached. *)
Lemma empty_text_and_empty_document_count_as_absent_witness :
  (Service.get_by_id (item := Person) RedisCache.make (ElasticSearchService.make "persons")
     "persons" "p1" spoiled).1
  = Ok (Some alice)
  ∧ trace (Service.get_by_id (item := Person) RedisCache.make
             (ElasticSearchService.make "persons") "persons" "p1" spoiled).2
    = [RedisGet "persons_p1"; ElasticGet "persons" "p1";
       RedisSet "persons_p1" (model_dump_json alice) 300].
Proof.
  destruct (empty_text_and_empty_document_count_as_absent (item := Person)
              "persons" "persons" "p1" spoiled)
    as (Hempty & _); [reflexivity|].
  destruct (Hempty 300%Z) as (Hresult & Htrace & _); [reflexivity|].
  split.
  - rewrite Hresult. reflexivity.
  - rewrite Htrace. reflexivity.
Defined.

(** The first film, fetched and then served from the cache. *)
Lemma second_lookup_is_served_from_the_cache_witness :
  ∃ film : Film,
    film_id film = "f1"
    ∧ let get_by_id :=
        Service.get_by_id (item := Film) RedisCache.make
          (ElasticSearchService.make "movies") "movies" in
      let first := get_by_id "f1" opening in
      first.1 = Ok (Some film)
      ∧ get_by_id (item_id film) first.2
        = (Ok (Some film),
           after first.2 (redis first.2) (elastic first.2)
             [RedisGet ("movies" +:+ "_" +:+ item_id film)])
      ∧ (item_id film ≠ "f1" → cache_miss first.2 ("movies" +:+ "_" +:+ "f1")).
Proof.
  destruct (film_of_document (hit_source film1)) as [film|] eqn:Hfilm;
    [|discriminate Hfilm].
  exists film. split.
  - injection Hfilm as <-. reflexivity.
  - apply (second_lookup_is_served_from_the_cache (item := Film) "movies" "movies" "f1"
             opening film1 film).
    + reflexivity.
    + reflexivity.
    + reflexivity.
    + exact Hfilm.
    + injection Hfilm as <-. discriminate.
    + injection Hfilm as <-. reflexivity.
Defined.

(** The Drama genre, looked up either way. *)
Lemma genre_lookup_agrees_with_the_inherited_one_witness :
  GenreService.get_by_id RedisCache.make (ElasticSearchService.make "genres") "g1" opening
  = Service.get_by_id RedisCache.make (ElasticSearchService.make "genres") "genres" "g1"
      opening.
Proof.
  apply (genre_lookup_agrees_with_the_inherited_one "genres" "g1" opening).
  discriminate.
Defined.

(** Alice acts in the first film, and directs and writes the second. *)
Lemma person_lookup_derives_roles_from_one_film_search_witness :
  let enriched :=
    {| person_id := "p1"; full_name := "Alice";
       films := [{| person_film_id := "f1"; roles := ["actor"] |};
                 {| person_film_id := "f2"; roles := ["director"; "writer"] |}] |} in
  let request :=
    {| es_index := "movies"; es_size := 10000; es_from := 0;
       es_query := person_films_query "p1";
       es_sort := [("_score", "desc")] |} in
  PersonService.get_by_id RedisCache.make (ElasticSearchService.make "persons")
    (ElasticSearchService.make "movies") "p1" opening
  = (Ok (Some enriched),
     after opening
       {| redis_up := true;
          redis_data := <["persons_p1" := (model_dump_json enriched, 300%Z)]> ∅ |}
       studio
       [RedisGet "persons_p1"; ElasticGet "persons" "p1"; ElasticSearch request;
        RedisSet "persons_p1" (model_dump_json enriched) 300]).
Proof.
  destruct (mapM (model_init (item := Film)) (hit_source <$> [film1; film2]))
    as [filmworks|] eqn:Hfilmworks; [|discriminate Hfilmworks].
  intros enriched request.
  rewrite (person_lookup_derives_roles_from_one_film_search "persons" "movies" "p1"
             opening {| hit_id := "p1"; hit_source := person_document "p1" "Alice" |}
             alice [film1; film2] filmworks);
    [ | reflexivity | reflexivity | reflexivity | reflexivity | reflexivity
      | exact Hfilmworks ].
  injection Hfilmworks as <-. reflexivity.
Defined.

(** The search of people for Alice: one search of people, one of films,
    and the roles are those of the two films found for her. *)
Lemma person_search_makes_one_film_search_per_person_witness :
  let enriched :=
    {| person_id := "p1"; full_name := "Alice";
       films := [{| person_film_id := "f1"; roles := ["actor"] |};
                 {| person_film_id := "f2"; roles := ["director"; "writer"] |}] |} in
  let run :=
    PersonService.search (ElasticSearchService.make "persons")
      (ElasticSearchService.make "movies") "Alice" CommonQueryParams_default opening in
  run.1 = Ok [enriched]
  ∧ ∃ request hits,
      search_request_of "persons" (Some CommonQueryParams_default) None
        (text_predicate (Some "Alice") ["full_name"])
      = Ok request
      ∧ (elastic_search (elastic opening) request).1 = Ok hits
      ∧ let film_requests :=
          (λ person, all_films_request "movies" (person_id person)) <$> [enriched] in
        let answers :=
          search_chain film_requests (elastic_search (elastic opening) request).2 in
        run.2 = after opening (redis opening) answers.2
                  (ElasticSearch request :: (ElasticSearch <$> film_requests))
        ∧ Forall2 (λ hit person,
                     ∃ found,
                       model_init (hit_source hit) = Some found
                       ∧ person_id person = person_id found
                       ∧ full_name person = full_name found)
            hits [enriched]
        ∧ Forall2 (λ person answer,
                     ∃ film_hits filmworks,
                       answer = Ok film_hits
                       ∧ mapM model_init (hit_source <$> film_hits) = Some filmworks
                       ∧ films person
                         = (λ filmwork, {| person_film_id := film_id filmwork;
                                           roles := derived_roles person filmwork |})
                           <$> filmworks)
            [enriched] answers.1.
Proof.
  intros enriched run. split; [reflexivity|].
  exact (person_search_makes_one_film_search_per_person "persons" "movies" "Alice"
           CommonQueryParams_default opening run.2 [enriched] eq_refl).
Defined.

(** The first film has the genre Drama, which is found. *)
Lemma film_details_resolves_every_genre_by_two_searches_witness :
  let looked_up :=
    FilmService.get_by_id RedisCache.make (ElasticSearchService.make "movies") "f1"
      opening in
  let run :=
    FilmsApi.film_details RedisCache.make (ElasticSearchService.make "movies")
      (ElasticSearchService.make "genres") "f1" opening in
  let request := text_field_request "genres" "name" "Drama" in
  ∃ film out,
    looked_up.1 = Ok (Some film)
    ∧ genres film = ["Drama"]
    ∧ run.1 = Ok (Respond out)
    ∧ FilmsApi.out_genre out
      = [{| FilmsApi.genre_uuid := "g1"; FilmsApi.genre_out_name := "Drama" |}]
    ∧ trace run.2 = trace looked_up.2 ++ [ElasticSearch request; ElasticSearch request].
Proof.
  intros looked_up run request. subst looked_up run.
  destruct (FilmService.get_by_id RedisCache.make (ElasticSearchService.make "movies")
              "f1" opening) as [[[film|]|e] w1] eqn:Hfilm; try discriminate Hfilm.
  destruct (FilmsApi.film_details RedisCache.make (ElasticSearchService.make "movies")
              (ElasticSearchService.make "genres") "f1" opening)
    as [[[out|status detail]|e] w'] eqn:Hdetails; try discriminate Hdetails.
  exists film, out.
  destruct (film_details_resolves_every_genre_by_two_searches "genres" RedisCache.make
              (ElasticSearchService.make "movies") "f1" opening w1 w' film (Respond out)
              Hfilm Hdetails)
    as (found & Hfound & _ & _ & Hstate).
  assert (genres film = ["Drama"]) as Hgenres by (by injection Hfilm as <- _).
  split_and!.
  - reflexivity.
  - exact Hgenres.
  - reflexivity.
  - injection Hdetails as <- _. reflexivity.
  - rewrite Hstate, Hgenres. reflexivity.
Defined.

(** The genre without a name, asked for by its id. *)
Lemma invalid_genre_document_is_reported_as_not_found_witness :
  let logged :=
    after opening (redis opening) studio
      [RedisGet "genres_g2"; ElasticGet "genres" "g2";
       LogError "Error while validating " (Some broken_genre)] in
  GenresApi.genre_details RedisCache.make (ElasticSearchService.make "genres") "g2" opening
  = (Ok (HTTPException 404 "genre not found"), logged)
  ∧ FilmsApi.films RedisCache.make (ElasticSearchService.make "movies")
      (ElasticSearchService.make "genres") CommonQueryParams_default (Some "g2") opening
    = (Ok (HTTPException 404 "genre not found"), logged).
Proof.
  intros logged. subst logged.
  destruct (invalid_genre_document_is_reported_as_not_found "genres"
              (ElasticSearchService.make "movies") CommonQueryParams_default "g2" opening
              {| hit_id := "g2"; hit_source := broken_genre |})
    as [Hdetails Hfilms];
    [reflexivity | reflexivity | reflexivity | discriminate | reflexivity | discriminate |].
  split.
  - rewrite Hdetails. reflexivity.
  - rewrite Hfilms. reflexivity.
Defined.

(** A genre without a name filters nothing; the Drama genre does. *)
Lemma empty_query_text_is_a_plain_listing_witness :
  let nameless := {| genre_id := "g0"; genre_name := ""; genre_description := None |} in
  FilmService.get_films (ElasticSearchService.make "movies") CommonQueryParams_default
    (Some nameless) opening
  = FilmService.get_films (ElasticSearchService.make "movies") CommonQueryParams_default
      None opening
  ∧ trace (FilmService.get_films (ElasticSearchService.make "movies")
             CommonQueryParams_default (Some drama_genre) opening).2
    = [ElasticSearch
         {| es_index := "movies"; es_size := 10; es_from := 0;
            es_query := {| must := [Match "genres" "Drama" "auto"]; should := [] |};
            es_sort := [("_score", "desc")] |}].
Proof.
  intros nameless.
  destruct empty_query_text_is_a_plain_listing as (_ & Hnameless & Hnamed).
  split.
  - apply (Hnameless _ _ _ "movies" CommonQueryParams_default nameless opening).
    reflexivity.
  - rewrite (Hnamed _ _ _ "movies" CommonQueryParams_default drama_genre opening);
      [reflexivity | discriminate | constructor].
Defined.

(** The first cluster has no index of people: a lookup in it answers
    absent, a listing of it raises. *)
Lemma only_not_found_becomes_absent_witness :
  (ElasticSearchService.get_by_id "persons" "p1" start).1 = Ok None
  ∧ ElasticSearchService._search "persons" None None None start
    = (Raise NotFoundError,
       after start (redis start) cluster
         [ElasticSearch
            {| es_index := "persons"; es_size := 10; es_from := 0;
               es_query := {| must := []; should := [] |};
               es_sort := [("_score", "desc")] |}]).
Proof.
  destruct (only_not_found_becomes_absent _ _ "persons" start) as (Hget & _ & Hsearch).
  split.
  - apply (Hget "p1"). reflexivity.
  - rewrite (Hsearch None None None
               {| es_index := "persons"; es_size := 10; es_from := 0;
                  es_query := {| must := []; should := [] |};
                  es_sort := [("_score", "desc")] |} NotFoundError);
      reflexivity.
Defined.

(** No genre on the page: the tenth page of the genres is empty, and is
    answered as such. *)
Lemma listing_handlers_never_answer_not_found_witness :
  let params := {| page_number := 10; page_size := 10; sort := [] |} in
  GenresApi.genre_list (ElasticSearchService.make "genres") params opening
  = (Ok (Respond []),
     after opening (redis opening) studio
       [ElasticSearch
          {| es_index := "genres"; es_size := 10; es_from := 90;
             es_query := {| must := []; should := [] |};
             es_sort := [("_score", "desc")] |}]).
Proof.
  intros params.
  destruct (listing_handlers_never_answer_not_found (ES := ReferenceEngine.state))
    as [_ Hempty].
  rewrite (Hempty "genres" params
             {| es_index := "genres"; es_size := 10; es_from := 90;
                es_query := {| must := []; should := [] |};
                es_sort := [("_score", "desc")] |} opening);
    reflexivity.
Defined.
End FurtherOnTheCatalogue.
